(** * selfdrive/ui/ui.cc: scene projection, status machine and device control

    A shallow embedding of [selfdrive/ui/ui.cc] together with the properties
    of it that the specification states.

    Conventions of the embedding.
    - [float] and [double] quantities are exact rationals ([Q]): rounding
      is outside the model, and the messages carry finite numbers. The one
      operation of ui.cc that leaves the finite numbers is the perspective
      divide at a zero depth, which gives an infinity or, for 0/0, NaN. The
      coordinates of screen points ([qreal]) are therefore finite numbers,
      infinities or NaN, compared as IEEE 754 compares them: a comparison
      with NaN is false, so that [QRectF::contains] accepts a NaN
      coordinate.
    - [int] is [Z]; the one product that could leave the [int] range
      ([timeout * UI_FREQ]) is wrapped explicitly with [to_int]; the
      [uint64_t] frame counters are wrapped with [to_uint64].
    - A read of a capnp list past its end is a [Fault]; functions that read
      lists return an [outcome].
    - Constants, tables and helpers that [ui.cc] takes from headers that are
      not part of the sources are Section variables.
    - [UIScene] carries the fields that the functions modelled here read or
      write; assignments to fields that only the painter reads are left
      out. *)

From Stdlib Require Import String ZArith QArith Qminmax List Bool Lia Lqa.
Import ListNotations.

Local Open Scope Z_scope.

(** ** Numbers *)

Definition Qltb (a b : Q) : bool := negb (Qle_bool b a).

(** [std::clamp(v, lo, hi)] as the standard library computes it. *)
Definition clamp (v lo hi : Q) : Q :=
  if Qltb v lo then lo else if Qltb hi v then hi else v.

(** [fmin], [fmax] and [std::max] on exact numbers. *)
Definition fmin (a b : Q) : Q := if Qltb b a then b else a.
Definition fmax (a b : Q) : Q := if Qltb a b then b else a.

(** Two's complement wrap to the 32-bit [int] range, and the wrap of
    [uint64_t] arithmetic. *)
Definition to_int (z : Z) : Z := (z + 2 ^ 31) mod 2 ^ 32 - 2 ^ 31.
Definition to_uint64 (z : Z) : Z := z mod 2 ^ 64.

(** Conversion of a [float] to [int]: truncation toward zero. *)
Definition float_to_int (q : Q) : Z := Z.quot (Qnum q) (Zpos (Qden q)).

(** ** Reads of capnp lists and of fixed-size arrays *)

Inductive outcome (A : Type) : Type :=
| Ret (a : A)
| Fault.
Arguments Ret {A} a.
Arguments Fault {A}.

Definition bind {A B : Type} (c : outcome A) (k : A -> outcome B) : outcome B :=
  match c with
  | Ret a => k a
  | Fault => Fault
  end.

Notation "x <- c ;; k" := (bind c (fun x => k))
  (at level 61, c at next level, right associativity).

(** [l[i]] for an [int] index. *)
Definition read {A : Type} (l : list A) (i : Z) : outcome A :=
  if i <? 0 then Fault
  else match nth_error l (Z.to_nat i) with
       | Some a => Ret a
       | None => Fault
       end.

(** [l[i] = v] on a fixed-size array. *)
Fixpoint write_nat {A : Type} (l : list A) (n : nat) (v : A) : outcome (list A) :=
  match l, n with
  | [], _ => Fault
  | _ :: l', O => Ret (v :: l')
  | a :: l', S n' => l'' <- write_nat l' n' v ;; Ret (a :: l'')
  end.

Definition write {A : Type} (l : list A) (i : Z) (v : A) : outcome (list A) :=
  if i <? 0 then Fault else write_nat l (Z.to_nat i) v.

(** An array of two elements ([QPointF lead_vertices[2]]), indexed by the
    loop counter of [update_leads], which takes the values 0 and 1. *)
Definition get2 {A : Type} (a : A * A) (i : Z) : A :=
  if i =? 0 then fst a else snd a.
Definition set2 {A : Type} (a : A * A) (i : Z) (v : A) : A * A :=
  if i =? 0 then (v, snd a) else (fst a, v).

(** ** Geometry kernel *)

(** [vec3] and [mat3] of common/mat.h: [v[3]] and row-major [v[3*3]]. *)
Record vec3 : Type := mk_vec3 { v_0 : Q; v_1 : Q; v_2 : Q }.

Record mat3 : Type := mk_mat3 {
  m_0 : Q; m_1 : Q; m_2 : Q;
  m_3 : Q; m_4 : Q; m_5 : Q;
  m_6 : Q; m_7 : Q; m_8 : Q
}.

(** Modelled from the spec: [matvecmul3] of common/mat.h is not among the
    sources; section 4.1 has it as the 3x3 matrix-vector product. *)
Definition matvecmul3 (a : mat3) (b : vec3) : vec3 :=
  mk_vec3 (m_0 a * v_0 b + m_1 a * v_1 b + m_2 a * v_2 b)%Q
          (m_3 a * v_0 b + m_4 a * v_1 b + m_5 a * v_2 b)%Q
          (m_6 a * v_0 b + m_7 a * v_1 b + m_8 a * v_2 b)%Q.

(** The product of two 3x3 matrices ([operator*] of [Eigen::Matrix3d]). *)
Definition matmul3 (a b : mat3) : mat3 :=
  let col0 := matvecmul3 a (mk_vec3 (m_0 b) (m_3 b) (m_6 b)) in
  let col1 := matvecmul3 a (mk_vec3 (m_1 b) (m_4 b) (m_7 b)) in
  let col2 := matvecmul3 a (mk_vec3 (m_2 b) (m_5 b) (m_8 b)) in
  mk_mat3 (v_0 col0) (v_0 col1) (v_0 col2)
          (v_1 col0) (v_1 col1) (v_1 col2)
          (v_2 col0) (v_2 col1) (v_2 col2).

(** A [qreal] coordinate of a screen point: a finite number, an infinity
    or NaN. *)
Inductive qreal : Type :=
| Finite (q : Q)
| PlusInfinity
| MinusInfinity
| NaN.

Bind Scope Q_scope with qreal.
Coercion Finite : Q >-> qreal.

(** [a < b] of IEEE 754: false when an operand is NaN. *)
Definition qreal_ltb (a b : qreal) : bool :=
  match a, b with
  | NaN, _ | _, NaN => false
  | Finite x, Finite y => Qltb x y
  | Finite _, PlusInfinity => true
  | Finite _, MinusInfinity => false
  | PlusInfinity, _ => false
  | MinusInfinity, MinusInfinity => false
  | MinusInfinity, _ => true
  end.

(** [a <= b] of IEEE 754: false when an operand is NaN. *)
Definition qreal_leb (a b : qreal) : bool :=
  match a, b with
  | NaN, _ | _, NaN => false
  | Finite x, Finite y => Qle_bool x y
  | Finite _, PlusInfinity => true
  | Finite _, MinusInfinity => false
  | PlusInfinity, PlusInfinity => true
  | PlusInfinity, _ => false
  | MinusInfinity, _ => true
  end.

(** [a / b] of IEEE 754 on finite operands: NaN for 0/0, an infinity for
    any other division by zero. The zero divisor is taken as +0: the sign of
    a zero is a matter of rounding, and it decides between the two
    infinities only. *)
Definition qreal_div (a b : Q) : qreal :=
  if Qeq_bool b 0 then
    if Qeq_bool a 0 then NaN
    else if Qltb 0 a then PlusInfinity else MinusInfinity
  else Finite (a / b).

Record QPointF : Type := mk_QPointF { px : qreal; py : qreal }.

(** [QPointF()] is the origin. *)
Definition QPointF_null : QPointF := mk_QPointF 0%Q 0%Q.

Definition QPolygonF : Type := list QPointF.

(** [QRectF{x, y, w, h}]. *)
Record QRectF : Type := mk_QRectF { xp : Q; yp : Q; rw : Q; rh : Q }.

(** [QRectF::contains(const QPointF &)]: the rectangle is normalised, a
    null extent contains nothing, the edges belong to the rectangle. The
    tests are [p.x() < l || p.x() > r] and [p.y() < t || p.y() > b]: both
    are false of a NaN coordinate, which is therefore contained. *)
Definition QRectF_contains (r : QRectF) (p : QPointF) : bool :=
  let l := if Qltb (rw r) 0%Q then (xp r + rw r)%Q else xp r in
  let rr := if Qltb (rw r) 0%Q then xp r else (xp r + rw r)%Q in
  if Qeq_bool l rr then false
  else if qreal_ltb (px p) (Finite l) || qreal_ltb (Finite rr) (px p) then false
  else
    let t := if Qltb (rh r) 0%Q then (yp r + rh r)%Q else yp r in
    let b := if Qltb (rh r) 0%Q then yp r else (yp r + rh r)%Q in
    if Qeq_bool t b then false
    else if qreal_ltb (py p) (Finite t) || qreal_ltb (Finite b) (py p) then false
    else true.

(** ** Messages (capnp readers) *)

Record XYZTData : Type := mk_XYZTData {
  getX : list Q;
  getY : list Q;
  getZ : list Q
}.

Record LeadData : Type := mk_LeadData {
  getStatus : bool;
  getDRel : Q;
  getYRel : Q
}.

Record RadarState : Type := mk_RadarState {
  getLeadOne : LeadData;
  getLeadTwo : LeadData
}.

Record ModelDataV2 : Type := mk_ModelDataV2 {
  getPosition : XYZTData;
  getLaneLines : list XYZTData;
  getLaneLineProbs : list Q;
  getRoadEdges : list XYZTData;
  getRoadEdgeStds : list Q
}.

Record UiPlan : Type := mk_UiPlan {
  plan_getPosition : XYZTData
}.

Inductive CalStatus : Type :=
| UNCALIBRATED | CALIBRATED | INVALID | RECALIBRATING.

Record LiveCalibrationData : Type := mk_LiveCalibrationData {
  getRpyCalib : list Q;
  getWideFromDeviceEuler : list Q;
  getCalStatus : CalStatus
}.

(** [PandaType]: the unknown type and the known hardware types. *)
Inductive PandaType : Type :=
| UNKNOWN
| KNOWN_PANDA (hw : nat).

Record PandaState : Type := mk_PandaState {
  getPandaType : PandaType;
  getIgnitionLine : bool;
  getIgnitionCan : bool
}.

Inductive OpenpilotState : Type :=
| DISABLED | PRE_ENABLED | ENABLED | SOFT_DISABLING | OVERRIDING.

Record ControlsState : Type := mk_ControlsState {
  getEnabled : bool;
  getState : OpenpilotState
}.

Record LateralPlan : Type := mk_LateralPlan {
  getLaneWidthLeft : Q;
  getLaneWidthRight : Q
}.

Inductive ImageSensor : Type :=
| AR0231 | OTHER_SENSOR.

Record WideRoadCameraState : Type := mk_WideRoadCameraState {
  getSensor : ImageSensor;
  getExposureValPercent : Q
}.

(** [SubMaster]: the frame counter, the per-topic freshness and
    last-received frame, and the latest message of each topic read here. *)
Record SubMaster : Type := mk_SubMaster {
  frame : Z;
  updated : string -> bool;
  rcv_frame : string -> Z;
  liveCalibration : LiveCalibrationData;
  pandaStates : list PandaState;
  carControl_getAlwaysOnLateral : bool;
  carParams_getAlwaysOnLateral : bool;
  controlsState : ControlsState;
  lateralPlan : LateralPlan;
  wideRoadCameraState : WideRoadCameraState;
  deviceState_getStarted : bool;
  radarState : RadarState
}.

(** ** Scene and UI state *)

Inductive UIStatus : Type :=
| STATUS_DISENGAGED
| STATUS_OVERRIDE
| STATUS_ENGAGED
| STATUS_LATERAL_ACTIVE.

#[projections(primitive)] Record UIScene : Type := mk_UIScene {
  view_from_calib : mat3;
  view_from_wide_calib : mat3;
  calibration_valid : bool;
  calibration_wide_valid : bool;
  wide_cam : bool;
  pandaType : PandaType;
  ignition : bool;
  started : bool;
  started_frame : Z;
  always_on_lateral : bool;
  always_on_lateral_active : bool;
  enabled : bool;
  light_sensor : Q;
  screen_brightness : Z;
  lane_width_left : Q;
  lane_width_right : Q;
  custom_road_ui : bool;
  unlimited_road_ui_length : bool;
  blind_spot_path : bool;
  developer_ui : Z;
  lane_line_width : Q;
  path_width : Q;
  path_edge_width : Q;
  road_edge_width : Q;
  lane_line_probs : list Q;
  road_edge_stds : list Q;
  lane_line_vertices : list QPolygonF;
  road_edge_vertices : list QPolygonF;
  track_vertices : QPolygonF;
  track_edge_vertices : QPolygonF;
  track_left_adjacent_lane_vertices : QPolygonF;
  track_right_adjacent_lane_vertices : QPolygonF;
  lead_vertices : QPointF * QPointF
}.

(** Field assignments [scene.f = v]. *)
Definition set_view_from_calib (v : mat3) (sc : UIScene) : UIScene :=
  let 'mk_UIScene f1 f2 f3 f4 f5 f6 f7 f8 f9 f10 f11 f12 f13 f14 f15 f16 f17
    f18 f19 f20 f21 f22 f23 f24 f25 f26 f27 f28 f29 f30 f31 f32 f33 := sc in
  mk_UIScene v f2 f3 f4 f5 f6 f7 f8 f9 f10 f11 f12 f13 f14 f15 f16 f17 f18 f19
    f20 f21 f22 f23 f24 f25 f26 f27 f28 f29 f30 f31 f32 f33.

Definition set_view_from_wide_calib (v : mat3) (sc : UIScene) : UIScene :=
  let 'mk_UIScene f1 f2 f3 f4 f5 f6 f7 f8 f9 f10 f11 f12 f13 f14 f15 f16 f17
    f18 f19 f20 f21 f22 f23 f24 f25 f26 f27 f28 f29 f30 f31 f32 f33 := sc in
  mk_UIScene f1 v f3 f4 f5 f6 f7 f8 f9 f10 f11 f12 f13 f14 f15 f16 f17 f18 f19
    f20 f21 f22 f23 f24 f25 f26 f27 f28 f29 f30 f31 f32 f33.

Definition set_calibration_valid (v : bool) (sc : UIScene) : UIScene :=
  let 'mk_UIScene f1 f2 f3 f4 f5 f6 f7 f8 f9 f10 f11 f12 f13 f14 f15 f16 f17
    f18 f19 f20 f21 f22 f23 f24 f25 f26 f27 f28 f29 f30 f31 f32 f33 := sc in
  mk_UIScene f1 f2 v f4 f5 f6 f7 f8 f9 f10 f11 f12 f13 f14 f15 f16 f17 f18 f19
    f20 f21 f22 f23 f24 f25 f26 f27 f28 f29 f30 f31 f32 f33.

Definition set_calibration_wide_valid (v : bool) (sc : UIScene) : UIScene :=
  let 'mk_UIScene f1 f2 f3 f4 f5 f6 f7 f8 f9 f10 f11 f12 f13 f14 f15 f16 f17
    f18 f19 f20 f21 f22 f23 f24 f25 f26 f27 f28 f29 f30 f31 f32 f33 := sc in
  mk_UIScene f1 f2 f3 v f5 f6 f7 f8 f9 f10 f11 f12 f13 f14 f15 f16 f17 f18 f19
    f20 f21 f22 f23 f24 f25 f26 f27 f28 f29 f30 f31 f32 f33.

Definition set_pandaType (v : PandaType) (sc : UIScene) : UIScene :=
  let 'mk_UIScene f1 f2 f3 f4 f5 f6 f7 f8 f9 f10 f11 f12 f13 f14 f15 f16 f17
    f18 f19 f20 f21 f22 f23 f24 f25 f26 f27 f28 f29 f30 f31 f32 f33 := sc in
  mk_UIScene f1 f2 f3 f4 f5 v f7 f8 f9 f10 f11 f12 f13 f14 f15 f16 f17 f18 f19
    f20 f21 f22 f23 f24 f25 f26 f27 f28 f29 f30 f31 f32 f33.

Definition set_ignition (v : bool) (sc : UIScene) : UIScene :=
  let 'mk_UIScene f1 f2 f3 f4 f5 f6 f7 f8 f9 f10 f11 f12 f13 f14 f15 f16 f17
    f18 f19 f20 f21 f22 f23 f24 f25 f26 f27 f28 f29 f30 f31 f32 f33 := sc in
  mk_UIScene f1 f2 f3 f4 f5 f6 v f8 f9 f10 f11 f12 f13 f14 f15 f16 f17 f18 f19
    f20 f21 f22 f23 f24 f25 f26 f27 f28 f29 f30 f31 f32 f33.

Definition set_started (v : bool) (sc : UIScene) : UIScene :=
  let 'mk_UIScene f1 f2 f3 f4 f5 f6 f7 f8 f9 f10 f11 f12 f13 f14 f15 f16 f17
    f18 f19 f20 f21 f22 f23 f24 f25 f26 f27 f28 f29 f30 f31 f32 f33 := sc in
  mk_UIScene f1 f2 f3 f4 f5 f6 f7 v f9 f10 f11 f12 f13 f14 f15 f16 f17 f18 f19
    f20 f21 f22 f23 f24 f25 f26 f27 f28 f29 f30 f31 f32 f33.

Definition set_started_frame (v : Z) (sc : UIScene) : UIScene :=
  let 'mk_UIScene f1 f2 f3 f4 f5 f6 f7 f8 f9 f10 f11 f12 f13 f14 f15 f16 f17
    f18 f19 f20 f21 f22 f23 f24 f25 f26 f27 f28 f29 f30 f31 f32 f33 := sc in
  mk_UIScene f1 f2 f3 f4 f5 f6 f7 f8 v f10 f11 f12 f13 f14 f15 f16 f17 f18 f19
    f20 f21 f22 f23 f24 f25 f26 f27 f28 f29 f30 f31 f32 f33.

Definition set_always_on_lateral (v : bool) (sc : UIScene) : UIScene :=
  let 'mk_UIScene f1 f2 f3 f4 f5 f6 f7 f8 f9 f10 f11 f12 f13 f14 f15 f16 f17
    f18 f19 f20 f21 f22 f23 f24 f25 f26 f27 f28 f29 f30 f31 f32 f33 := sc in
  mk_UIScene f1 f2 f3 f4 f5 f6 f7 f8 f9 v f11 f12 f13 f14 f15 f16 f17 f18 f19
    f20 f21 f22 f23 f24 f25 f26 f27 f28 f29 f30 f31 f32 f33.

Definition set_always_on_lateral_active (v : bool) (sc : UIScene) : UIScene :=
  let 'mk_UIScene f1 f2 f3 f4 f5 f6 f7 f8 f9 f10 f11 f12 f13 f14 f15 f16 f17
    f18 f19 f20 f21 f22 f23 f24 f25 f26 f27 f28 f29 f30 f31 f32 f33 := sc in
  mk_UIScene f1 f2 f3 f4 f5 f6 f7 f8 f9 f10 v f12 f13 f14 f15 f16 f17 f18 f19
    f20 f21 f22 f23 f24 f25 f26 f27 f28 f29 f30 f31 f32 f33.

Definition set_enabled (v : bool) (sc : UIScene) : UIScene :=
  let 'mk_UIScene f1 f2 f3 f4 f5 f6 f7 f8 f9 f10 f11 f12 f13 f14 f15 f16 f17
    f18 f19 f20 f21 f22 f23 f24 f25 f26 f27 f28 f29 f30 f31 f32 f33 := sc in
  mk_UIScene f1 f2 f3 f4 f5 f6 f7 f8 f9 f10 f11 v f13 f14 f15 f16 f17 f18 f19
    f20 f21 f22 f23 f24 f25 f26 f27 f28 f29 f30 f31 f32 f33.

Definition set_light_sensor (v : Q) (sc : UIScene) : UIScene :=
  let 'mk_UIScene f1 f2 f3 f4 f5 f6 f7 f8 f9 f10 f11 f12 f13 f14 f15 f16 f17
    f18 f19 f20 f21 f22 f23 f24 f25 f26 f27 f28 f29 f30 f31 f32 f33 := sc in
  mk_UIScene f1 f2 f3 f4 f5 f6 f7 f8 f9 f10 f11 f12 v f14 f15 f16 f17 f18 f19
    f20 f21 f22 f23 f24 f25 f26 f27 f28 f29 f30 f31 f32 f33.

Definition set_lane_width_left (v : Q) (sc : UIScene) : UIScene :=
  let 'mk_UIScene f1 f2 f3 f4 f5 f6 f7 f8 f9 f10 f11 f12 f13 f14 f15 f16 f17
    f18 f19 f20 f21 f22 f23 f24 f25 f26 f27 f28 f29 f30 f31 f32 f33 := sc in
  mk_UIScene f1 f2 f3 f4 f5 f6 f7 f8 f9 f10 f11 f12 f13 f14 v f16 f17 f18 f19
    f20 f21 f22 f23 f24 f25 f26 f27 f28 f29 f30 f31 f32 f33.

Definition set_lane_width_right (v : Q) (sc : UIScene) : UIScene :=
  let 'mk_UIScene f1 f2 f3 f4 f5 f6 f7 f8 f9 f10 f11 f12 f13 f14 f15 f16 f17
    f18 f19 f20 f21 f22 f23 f24 f25 f26 f27 f28 f29 f30 f31 f32 f33 := sc in
  mk_UIScene f1 f2 f3 f4 f5 f6 f7 f8 f9 f10 f11 f12 f13 f14 f15 v f17 f18 f19
    f20 f21 f22 f23 f24 f25 f26 f27 f28 f29 f30 f31 f32 f33.

Definition set_lane_line_probs (v : list Q) (sc : UIScene) : UIScene :=
  let 'mk_UIScene f1 f2 f3 f4 f5 f6 f7 f8 f9 f10 f11 f12 f13 f14 f15 f16 f17
    f18 f19 f20 f21 f22 f23 f24 f25 f26 f27 f28 f29 f30 f31 f32 f33 := sc in
  mk_UIScene f1 f2 f3 f4 f5 f6 f7 f8 f9 f10 f11 f12 f13 f14 f15 f16 f17 f18
    f19 f20 f21 f22 f23 f24 v f26 f27 f28 f29 f30 f31 f32 f33.

Definition set_road_edge_stds (v : list Q) (sc : UIScene) : UIScene :=
  let 'mk_UIScene f1 f2 f3 f4 f5 f6 f7 f8 f9 f10 f11 f12 f13 f14 f15 f16 f17
    f18 f19 f20 f21 f22 f23 f24 f25 f26 f27 f28 f29 f30 f31 f32 f33 := sc in
  mk_UIScene f1 f2 f3 f4 f5 f6 f7 f8 f9 f10 f11 f12 f13 f14 f15 f16 f17 f18
    f19 f20 f21 f22 f23 f24 f25 v f27 f28 f29 f30 f31 f32 f33.

Definition set_lane_line_vertices (v : list QPolygonF) (sc : UIScene) : UIScene :=
  let 'mk_UIScene f1 f2 f3 f4 f5 f6 f7 f8 f9 f10 f11 f12 f13 f14 f15 f16 f17
    f18 f19 f20 f21 f22 f23 f24 f25 f26 f27 f28 f29 f30 f31 f32 f33 := sc in
  mk_UIScene f1 f2 f3 f4 f5 f6 f7 f8 f9 f10 f11 f12 f13 f14 f15 f16 f17 f18
    f19 f20 f21 f22 f23 f24 f25 f26 v f28 f29 f30 f31 f32 f33.

Definition set_road_edge_vertices (v : list QPolygonF) (sc : UIScene) : UIScene :=
  let 'mk_UIScene f1 f2 f3 f4 f5 f6 f7 f8 f9 f10 f11 f12 f13 f14 f15 f16 f17
    f18 f19 f20 f21 f22 f23 f24 f25 f26 f27 f28 f29 f30 f31 f32 f33 := sc in
  mk_UIScene f1 f2 f3 f4 f5 f6 f7 f8 f9 f10 f11 f12 f13 f14 f15 f16 f17 f18
    f19 f20 f21 f22 f23 f24 f25 f26 f27 v f29 f30 f31 f32 f33.

Definition set_track_vertices (v : QPolygonF) (sc : UIScene) : UIScene :=
  let 'mk_UIScene f1 f2 f3 f4 f5 f6 f7 f8 f9 f10 f11 f12 f13 f14 f15 f16 f17
    f18 f19 f20 f21 f22 f23 f24 f25 f26 f27 f28 f29 f30 f31 f32 f33 := sc in
  mk_UIScene f1 f2 f3 f4 f5 f6 f7 f8 f9 f10 f11 f12 f13 f14 f15 f16 f17 f18
    f19 f20 f21 f22 f23 f24 f25 f26 f27 f28 v f30 f31 f32 f33.

Definition set_track_edge_vertices (v : QPolygonF) (sc : UIScene) : UIScene :=
  let 'mk_UIScene f1 f2 f3 f4 f5 f6 f7 f8 f9 f10 f11 f12 f13 f14 f15 f16 f17
    f18 f19 f20 f21 f22 f23 f24 f25 f26 f27 f28 f29 f30 f31 f32 f33 := sc in
  mk_UIScene f1 f2 f3 f4 f5 f6 f7 f8 f9 f10 f11 f12 f13 f14 f15 f16 f17 f18
    f19 f20 f21 f22 f23 f24 f25 f26 f27 f28 f29 v f31 f32 f33.

Definition set_track_left_adjacent_lane_vertices (v : QPolygonF) (sc : UIScene) : UIScene :=
  let 'mk_UIScene f1 f2 f3 f4 f5 f6 f7 f8 f9 f10 f11 f12 f13 f14 f15 f16 f17
    f18 f19 f20 f21 f22 f23 f24 f25 f26 f27 f28 f29 f30 f31 f32 f33 := sc in
  mk_UIScene f1 f2 f3 f4 f5 f6 f7 f8 f9 f10 f11 f12 f13 f14 f15 f16 f17 f18
    f19 f20 f21 f22 f23 f24 f25 f26 f27 f28 f29 f30 v f32 f33.

Definition set_track_right_adjacent_lane_vertices (v : QPolygonF) (sc : UIScene) : UIScene :=
  let 'mk_UIScene f1 f2 f3 f4 f5 f6 f7 f8 f9 f10 f11 f12 f13 f14 f15 f16 f17
    f18 f19 f20 f21 f22 f23 f24 f25 f26 f27 f28 f29 f30 f31 f32 f33 := sc in
  mk_UIScene f1 f2 f3 f4 f5 f6 f7 f8 f9 f10 f11 f12 f13 f14 f15 f16 f17 f18
    f19 f20 f21 f22 f23 f24 f25 f26 f27 f28 f29 f30 f31 v f33.

Definition set_lead_vertices (v : QPointF * QPointF) (sc : UIScene) : UIScene :=
  let 'mk_UIScene f1 f2 f3 f4 f5 f6 f7 f8 f9 f10 f11 f12 f13 f14 f15 f16 f17
    f18 f19 f20 f21 f22 f23 f24 f25 f26 f27 f28 f29 f30 f31 f32 f33 := sc in
  mk_UIScene f1 f2 f3 f4 f5 f6 f7 f8 f9 f10 f11 f12 f13 f14 f15 f16 f17 f18
    f19 f20 f21 f22 f23 f24 f25 f26 f27 f28 f29 f30 f31 f32 v.

(** [car_space_transform] is kept as the point map of the [QTransform]. *)
Record UIState : Type := mk_UIState {
  fb_w : Z;
  fb_h : Z;
  sm : SubMaster;
  status : UIStatus;
  scene : UIScene;
  car_space_transform : QPointF -> QPointF;
  started_prev : bool
}.

Definition set_scene (v : UIScene) (s : UIState) : UIState :=
  mk_UIState (fb_w s) (fb_h s) (sm s) (status s) v (car_space_transform s)
    (started_prev s).

Definition set_status (v : UIStatus) (s : UIState) : UIState :=
  mk_UIState (fb_w s) (fb_h s) (sm s) v (scene s) (car_space_transform s)
    (started_prev s).

Definition set_started_prev (v : bool) (s : UIState) : UIState :=
  mk_UIState (fb_w s) (fb_h s) (sm s) (status s) (scene s)
    (car_space_transform s) v.

Definition set_sm (v : SubMaster) (s : UIState) : UIState :=
  mk_UIState (fb_w s) (fb_h s) v (status s) (scene s) (car_space_transform s)
    (started_prev s).

(** Qt signals and hardware calls, in the order they are issued. *)
Inductive Signal : Type :=
| offroadTransition (offroad : bool)
| interactiveTimeout
| displayPowerChanged (on : bool)
| Hardware_set_display_power (on : bool).

(** ** The functions of ui.cc *)

Section Embedding.

(** Constants and helpers of headers outside the sources: [TRAJECTORY_SIZE],
    [UI_FREQ], [MIN_DRAW_DISTANCE], [MAX_DRAW_DISTANCE], the camera
    intrinsics, and [euler2rot] of common/transformations. *)
Variable TRAJECTORY_SIZE : Z.
Variable UI_FREQ : Z.
Variable MIN_DRAW_DISTANCE : Q.
Variable MAX_DRAW_DISTANCE : Q.
Variable ECAM_INTRINSIC_MATRIX : mat3.
Variable FCAM_INTRINSIC_MATRIX : mat3.
Variable euler2rot : vec3 -> mat3.

(** *** Projection *)

(** The point that [calib_frame_to_full_frame] tests against the clip
    region: calibration, intrinsics, perspective divide, screen transform.
    When the depth [KEp.v[2]] is zero the quotients are infinities or
    NaN. *)
Definition project_point (s : UIState) (in_x in_y in_z : Q) : QPointF :=
  let pt := mk_vec3 in_x in_y in_z in
  let Ep := matvecmul3 (if wide_cam (scene s)
                        then view_from_wide_calib (scene s)
                        else view_from_calib (scene s)) pt in
  let KEp := matvecmul3 (if wide_cam (scene s)
                         then ECAM_INTRINSIC_MATRIX
                         else FCAM_INTRINSIC_MATRIX) Ep in
  (* Project. *)
  car_space_transform s
    (mk_QPointF (qreal_div (v_0 KEp) (v_2 KEp))
                (qreal_div (v_1 KEp) (v_2 KEp))).

Definition margin : Q := 500%Q.

Definition clip_region (s : UIState) : QRectF :=
  mk_QRectF (- margin)%Q (- margin)%Q
            (inject_Z (fb_w s) + 2 * margin)%Q (inject_Z (fb_h s) + 2 * margin)%Q.

(** [out] is the value held by [*out] at the call; the result is the
    returned flag and the value held by [*out] at the return. *)
Definition calib_frame_to_full_frame (s : UIState) (in_x in_y in_z : Q)
    (out : QPointF) : bool * QPointF :=
  let point := project_point s in_x in_y in_z in
  if QRectF_contains (clip_region s) point then (true, point)
  else (false, out).

(** Both coordinates of the point are numbers. *)
Definition is_finite (p : QPointF) : bool :=
  match px p, py p with
  | Finite _, Finite _ => true
  | _, _ => false
  end.

(** The projection of the point is a finite point of the clip region. *)
Definition lands_in_clip (s : UIState) (in_x in_y in_z : Q) : bool :=
  let point := project_point s in_x in_y in_z in
  is_finite point && QRectF_contains (clip_region s) point.

(** *** Path length *)

(** The loop [for (i = ..; i < TRAJECTORY_SIZE && line_x[i] <= path_height;
    ++i) max_idx = i], entered with [n] = [TRAJECTORY_SIZE - i] iterations
    left before [i] reaches [TRAJECTORY_SIZE]. *)
Fixpoint path_length_loop (line_x : list Q) (path_height : Q) (n : nat)
    (i max_idx : Z) : outcome Z :=
  match n with
  | O => Ret max_idx
  | S n' =>
      x <- read line_x i ;;
      if Qle_bool x path_height
      then path_length_loop line_x path_height n' (i + 1) i
      else Ret max_idx
  end.

Definition get_path_length_idx (line : XYZTData) (path_height : Q) : outcome Z :=
  path_length_loop (getX line) path_height (Z.to_nat (TRAJECTORY_SIZE - 1)) 1 0.

(** *** Lead markers *)

(** One iteration of the loop of [update_leads]. *)
Definition update_lead (s : UIState) (lead_data : LeadData) (line : XYZTData)
    (i : Z) : outcome UIState :=
  if getStatus lead_data then
    idx <- get_path_length_idx line (getDRel lead_data) ;;
    z <- read (getZ line) idx ;;
    let r := calib_frame_to_full_frame s (getDRel lead_data)
               (- getYRel lead_data)%Q (z + (122 # 100))%Q
               (get2 (lead_vertices (scene s)) i) in
    Ret (set_scene (set_lead_vertices
                      (set2 (lead_vertices (scene s)) i (snd r)) (scene s)) s)
  else Ret s.

(** [lead_data] at iteration [i]. *)
Definition lead_of (radar_state : RadarState) (i : Z) : LeadData :=
  if i =? 0 then getLeadOne radar_state else getLeadTwo radar_state.

Definition update_leads (s : UIState) (radar_state : RadarState)
    (line : XYZTData) : outcome UIState :=
  s1 <- update_lead s (lead_of radar_state 0) line 0 ;;
  update_lead s1 (lead_of radar_state 1) line 1.

(** *** Line and polygon builder *)

(** The body of the loop of [update_line_data] at index [i], on the pair
    ([left_points], [right_points]). *)
Definition line_step (s : UIState) (line : XYZTData) (y_off z_off : Q)
    (allow_invert : bool) (i : Z) (pts : QPolygonF * QPolygonF)
    : outcome (QPolygonF * QPolygonF) :=
  let (left_points, right_points) := pts in
  x <- read (getX line) i ;;
  if Qltb x 0%Q then Ret pts
  else
    y <- read (getY line) i ;;
    z <- read (getZ line) i ;;
    let l := calib_frame_to_full_frame s x (y - y_off)%Q (z + z_off)%Q
               QPointF_null in
    let r := calib_frame_to_full_frame s x (y + y_off)%Q (z + z_off)%Q
               QPointF_null in
    if fst l && fst r then
      if negb allow_invert
         && negb (Nat.eqb (length left_points) 0)
         && qreal_ltb (py (last left_points QPointF_null)) (py (snd l))
      then Ret pts
      else Ret (left_points ++ [snd l], snd r :: right_points)
    else Ret pts.

(** [n] iterations of the loop from index [i]. *)
Fixpoint line_loop (s : UIState) (line : XYZTData) (y_off z_off : Q)
    (allow_invert : bool) (n : nat) (i : Z) (pts : QPolygonF * QPolygonF)
    : outcome (QPolygonF * QPolygonF) :=
  match n with
  | O => Ret pts
  | S n' =>
      pts' <- line_step s line y_off z_off allow_invert i pts ;;
      line_loop s line y_off z_off allow_invert n' (i + 1) pts'
  end.

(** [left_points] and [right_points] at the end of the loop. *)
Definition line_points (s : UIState) (line : XYZTData) (y_off z_off : Q)
    (max_idx : Z) (allow_invert : bool) : outcome (QPolygonF * QPolygonF) :=
  line_loop s line y_off z_off allow_invert (Z.to_nat (max_idx + 1)) 0 ([], []).

(** The polygon stored through [pvd]. *)
Definition update_line_data (s : UIState) (line : XYZTData) (y_off z_off : Q)
    (max_idx : Z) (allow_invert : bool) : outcome QPolygonF :=
  pts <- line_points s line y_off z_off max_idx allow_invert ;;
  Ret (fst pts ++ snd pts).

(** *** Scene model updater *)

(** [max_distance] as initialised in [update_model]. *)
Definition model_max_distance (sc : UIScene) (plan_position : XYZTData)
    : outcome Q :=
  x <- read (getX plan_position) (TRAJECTORY_SIZE - 1) ;;
  Ret (if unlimited_road_ui_length sc then x
       else clamp x MIN_DRAW_DISTANCE MAX_DRAW_DISTANCE).

(** [max_distance] after the block under "update path": clamped by the
    lead when lead one has a valid status. *)
Definition path_max_distance (lead_one : LeadData) (max_distance : Q) : Q :=
  if getStatus lead_one then
    let lead_d := (getDRel lead_one * 2)%Q in
    clamp (lead_d - fmin (lead_d * (35 # 100)) 10)%Q 0%Q max_distance
  else max_distance.

(** The loop over [scene.lane_line_vertices], [n] iterations from [i]. *)
Fixpoint lane_lines_loop (model : ModelDataV2) (max_idx : Z) (n : nat) (i : Z)
    (s : UIState) : outcome UIState :=
  match n with
  | O => Ret s
  | S n' =>
      p <- read (getLaneLineProbs model) i ;;
      probs <- write (lane_line_probs (scene s)) i p ;;
      let s1 := set_scene (set_lane_line_probs probs (scene s)) s in
      line <- read (getLaneLines model) i ;;
      prob <- read (lane_line_probs (scene s1)) i ;;
      pvd <- update_line_data s1 line
               (if custom_road_ui (scene s1)
                then lane_line_width (scene s1) * prob
                else (25 # 1000) * prob)%Q
               0%Q max_idx true ;;
      verts <- write (lane_line_vertices (scene s1)) i pvd ;;
      lane_lines_loop model max_idx n' (i + 1)
        (set_scene (set_lane_line_vertices verts (scene s1)) s1)
  end.

(** The loop over [scene.road_edge_vertices]. *)
Fixpoint road_edges_loop (model : ModelDataV2) (max_idx : Z) (n : nat) (i : Z)
    (s : UIState) : outcome UIState :=
  match n with
  | O => Ret s
  | S n' =>
      e <- read (getRoadEdgeStds model) i ;;
      stds <- write (road_edge_stds (scene s)) i e ;;
      let s1 := set_scene (set_road_edge_stds stds (scene s)) s in
      line <- read (getRoadEdges model) i ;;
      pvd <- update_line_data s1 line
               (if custom_road_ui (scene s1)
                then road_edge_width (scene s1) else 25 # 1000)%Q
               0%Q max_idx true ;;
      verts <- write (road_edge_vertices (scene s1)) i pvd ;;
      road_edges_loop model max_idx n' (i + 1)
        (set_scene (set_road_edge_vertices verts (scene s1)) s1)
  end.

(** The trajectory that [update_model] draws the path from. *)
Definition select_plan_position (model : ModelDataV2) (plan : UiPlan) : XYZTData :=
  if Z.of_nat (length (getX (plan_getPosition plan))) <? TRAJECTORY_SIZE
  then getPosition model
  else plan_getPosition plan.

(** The index bound that [update_model] draws the path to. *)
Definition path_max_idx (s : UIState) (plan_position : XYZTData)
    (max_distance : Q) : outcome Z :=
  get_path_length_idx plan_position
    (path_max_distance (getLeadOne (radarState (sm s))) max_distance).

Definition update_model (s : UIState) (model : ModelDataV2) (plan : UiPlan)
    : outcome UIState :=
  let plan_position := select_plan_position model plan in
  max_distance <- model_max_distance (scene s) plan_position ;;
  (* update lane lines *)
  lane_line0 <- read (getLaneLines model) 0 ;;
  max_idx <- get_path_length_idx lane_line0 max_distance ;;
  s1 <- lane_lines_loop model max_idx
          (length (lane_line_vertices (scene s))) 0 s ;;
  (* update road edges *)
  s2 <- road_edges_loop model max_idx
          (length (road_edge_vertices (scene s1))) 0 s1 ;;
  (* update path *)
  max_idx <- path_max_idx s2 plan_position max_distance ;;
  let developer := negb (developer_ui (scene s2) =? 0) in
  track <- update_line_data s2 plan_position
             (if custom_road_ui (scene s2)
              then path_width (scene s2) * (1 - path_edge_width (scene s2) / 100)
              else 9 # 10)%Q
             (122 # 100)%Q max_idx false ;;
  let s3 := set_scene (set_track_vertices track (scene s2)) s2 in
  (* update path edges *)
  track_edge <- update_line_data s3 plan_position
                  (if custom_road_ui (scene s3) then path_width (scene s3) else 0)%Q
                  (122 # 100)%Q max_idx false ;;
  let s4 := set_scene (set_track_edge_vertices track_edge (scene s3)) s3 in
  (* update left adjacent path *)
  lane_line4 <- read (getLaneLines model) 4 ;;
  adj_left <- update_line_data s4 lane_line4
                (if blind_spot_path (scene s4) || developer
                 then lane_width_left (scene s4) / 2 else 0)%Q
                0%Q max_idx true ;;
  let s5 := set_scene
              (set_track_left_adjacent_lane_vertices adj_left (scene s4)) s4 in
  (* update right adjacent path *)
  lane_line5 <- read (getLaneLines model) 5 ;;
  adj_right <- update_line_data s5 lane_line5
                 (if blind_spot_path (scene s5) || developer
                  then lane_width_right (scene s5) / 2 else 0)%Q
                 0%Q max_idx true ;;
  Ret (set_scene
         (set_track_right_adjacent_lane_vertices adj_right (scene s5)) s5).

(** *** Reactive state sync *)

Definition view_from_device : mat3 :=
  mk_mat3 0 1 0
          0 0 1
          1 0 0.

(** An [Eigen::Vector3d] declared without initialiser and filled from a
    list only when the list has three elements; [uninit] is what the
    vector holds otherwise. *)
Definition fill_vector3 (l : list Q) (uninit : vec3) : vec3 :=
  if Nat.eqb (length l) 3
  then mk_vec3 (nth 0 l 0%Q) (nth 1 l 0%Q) (nth 2 l 0%Q)
  else uninit.

(** The block of [update_state] under [sm.updated("liveCalibration")]. *)
Definition update_calibration (live_calib : LiveCalibrationData)
    (uninit_rpy uninit_wfde : vec3) (sc : UIScene) : UIScene :=
  let rpy_list := getRpyCalib live_calib in
  let wfde_list := getWideFromDeviceEuler live_calib in
  let rpy := fill_vector3 rpy_list uninit_rpy in
  let wfde := fill_vector3 wfde_list uninit_wfde in
  let device_from_calib := euler2rot rpy in
  let wide_from_device := euler2rot wfde in
  let view_from_calib' := matmul3 view_from_device device_from_calib in
  let view_from_wide_calib' :=
    matmul3 (matmul3 view_from_device wide_from_device) device_from_calib in
  let sc1 := set_view_from_calib view_from_calib' sc in
  let sc2 := set_view_from_wide_calib view_from_wide_calib' sc1 in
  let sc3 := set_calibration_valid
               (match getCalStatus live_calib with
                | CALIBRATED => true
                | _ => false
                end) sc2 in
  set_calibration_wide_valid (Nat.eqb (length wfde_list) 3) sc3.

(** The block under [sm.updated("pandaStates")] and its stale branch. *)
Definition update_panda (m : SubMaster) (sc : UIScene) : UIScene :=
  if updated m "pandaStates" then
    match pandaStates m with
    | [] => sc
    | first :: _ =>
        let sc1 := set_pandaType (getPandaType first) sc in
        match pandaType sc1 with
        | UNKNOWN => sc1
        | KNOWN_PANDA _ =>
            set_ignition
              (fold_left (fun ign pandaState =>
                            ign || (getIgnitionLine pandaState
                                    || getIgnitionCan pandaState))
                         (pandaStates m) false) sc1
        end
    end
  else if to_uint64 (frame m - rcv_frame m "pandaStates")
          >? to_uint64 (to_int (5 * UI_FREQ))
  then set_pandaType UNKNOWN sc
  else sc.

(** [update_state]. [uninit_rpy] and [uninit_wfde] are what the two
    uninitialised vectors of the calibration block hold. The blocks for
    carState, gpsLocationExternal and longitudinalPlan, and the assignments
    of the other blocks to fields outside [UIScene], are not carried. *)
Definition update_state (s : UIState) (uninit_rpy uninit_wfde : vec3) : UIState :=
  let m := sm s in
  let sc := scene s in
  let sc := if updated m "liveCalibration"
            then update_calibration (liveCalibration m) uninit_rpy uninit_wfde sc
            else sc in
  let sc := update_panda m sc in
  let sc := if updated m "carControl" && always_on_lateral sc
            then set_always_on_lateral_active
                   (negb (enabled sc) && carControl_getAlwaysOnLateral m) sc
            else sc in
  let sc := if updated m "carParams"
            then set_always_on_lateral (carParams_getAlwaysOnLateral m) sc
            else sc in
  let sc := if updated m "controlsState"
            then set_enabled (getEnabled (controlsState m)) sc
            else sc in
  let sc := if updated m "lateralPlan"
               && (blind_spot_path sc || negb (developer_ui sc =? 0))
            then set_lane_width_right (getLaneWidthRight (lateralPlan m))
                   (set_lane_width_left (getLaneWidthLeft (lateralPlan m)) sc)
            else sc in
  let sc := if updated m "wideRoadCameraState"
            then
              let cam_state := wideRoadCameraState m in
              let scale := match getSensor cam_state with
                           | AR0231 => 6%Q
                           | OTHER_SENSOR => 1%Q
                           end in
              set_light_sensor
                (fmax (100 - scale * getExposureValPercent cam_state) 0)%Q sc
            else sc in
  set_scene (set_started (deviceState_getStarted m && ignition sc) sc) s.

(** *** Status *)

Definition updateStatus (s : UIState) : UIState * list Signal :=
  let s1 :=
    if started (scene s) && updated (sm s) "controlsState" then
      let controls_state := controlsState (sm s) in
      match getState controls_state with
      | PRE_ENABLED | OVERRIDING => set_status STATUS_OVERRIDE s
      | _ =>
          if always_on_lateral_active (scene s)
          then set_status STATUS_LATERAL_ACTIVE s
          else set_status (if getEnabled controls_state
                           then STATUS_ENGAGED else STATUS_DISENGAGED) s
      end
    else s in
  (* Handle onroad/offroad transition *)
  if negb (Bool.eqb (started (scene s1)) (started_prev s1))
     || (frame (sm s1) =? 1)
  then
    let s2 :=
      if started (scene s1)
      then set_scene (set_started_frame (frame (sm s1)) (scene s1))
             (set_status STATUS_DISENGAGED s1)
      else s1 in
    (set_started_prev (started (scene s2)) s2,
     [offroadTransition (negb (started (scene s2)))])
  else (s1, []).

(** [update_sockets], [update_state] and [updateStatus] as [UIState::update]
    runs them on the messages [m] that the poll delivers. *)
Definition update_sockets (s : UIState) (m : SubMaster) : UIState := set_sm m s.

Definition update_scene_status (s : UIState) (m : SubMaster)
    (uninit_rpy uninit_wfde : vec3) : UIState * list Signal :=
  updateStatus (update_state (update_sockets s m) uninit_rpy uninit_wfde).

(** *** Device: brightness and wakefulness *)

(** Modelled from the spec: [FirstOrderFilter] of common/util.h is not among
    the sources; section 4.8 has it as a fixed-time-constant smoothing
    filter of the family of section 4.5, [x = (1 - k) * x + k * input]. *)
Record FirstOrderFilter : Type := mk_FirstOrderFilter { x_ : Q; k_ : Q }.

Definition FirstOrderFilter_update (f : FirstOrderFilter) (x : Q)
    : FirstOrderFilter * Q :=
  let x' := ((1 - k_ f) * x_ f + k_ f * x)%Q in
  (mk_FirstOrderFilter x' (k_ f), x').

(** The worker threads behind [QtConcurrent::run]: the calls of
    [Hardware::set_brightness] that have started and not yet returned, each
    with the identity of its task, the next fresh identity, and the log of
    every call started so far, oldest first. *)
Record ThreadPool : Type := mk_ThreadPool {
  running : list (nat * Z);
  next_task : nat;
  set_brightness_calls : list Z
}.

(** A [QFuture<void>]: default-constructed, or the handle of a task. *)
Definition QFuture : Type := option nat.

Definition isRunning (f : QFuture) (pool : ThreadPool) : bool :=
  match f with
  | None => false
  | Some id => existsb (fun t => Nat.eqb (fst t) id) (running pool)
  end.

(** [QtConcurrent::run(Hardware::set_brightness, brightness)]. *)
Definition QtConcurrent_run (pool : ThreadPool) (brightness : Z)
    : QFuture * ThreadPool :=
  (Some (next_task pool),
   mk_ThreadPool (running pool ++ [(next_task pool, brightness)])
                 (S (next_task pool))
                 (set_brightness_calls pool ++ [brightness])).

(** The call of task [id] returns. *)
Definition task_finished (id : nat) (pool : ThreadPool) : ThreadPool :=
  mk_ThreadPool (filter (fun t => negb (Nat.eqb (fst t) id)) (running pool))
                (next_task pool) (set_brightness_calls pool).

Record Device : Type := mk_Device {
  awake : bool;
  interactive_timeout : Z;
  ignition_on : bool;
  last_brightness : Z;
  offroad_brightness : Q;
  brightness_filter : FirstOrderFilter;
  brightness_future : QFuture
}.

Definition setAwake (d : Device) (on : bool) : Device * list Signal :=
  if negb (Bool.eqb on (awake d)) then
    (mk_Device on (interactive_timeout d) (ignition_on d) (last_brightness d)
       (offroad_brightness d) (brightness_filter d) (brightness_future d),
     [Hardware_set_display_power on; displayPowerChanged on])
  else (d, []).

(** [resetInteractiveTimeout(timeout)]; the default argument is -1. *)
Definition resetInteractiveTimeout (d : Device) (timeout : Z) : Device :=
  let timeout := if timeout =? -1
                 then (if ignition_on d then 10 else 30)
                 else timeout in
  mk_Device (awake d) (to_int (timeout * UI_FREQ)) (ignition_on d)
    (last_brightness d) (offroad_brightness d) (brightness_filter d)
    (brightness_future d).

(** The first part of [updateBrightness]: the filter after its update and
    the value of the local [brightness] at the comparison with
    [last_brightness]. *)
Definition computed_brightness (d : Device) (s : UIState)
    : FirstOrderFilter * Z :=
  let clipped_brightness :=
    if started (scene s) then
      let clipped_brightness := light_sensor (scene s) in
      (* CIE 1931 *)
      let clipped_brightness :=
        if Qle_bool clipped_brightness 8
        then (clipped_brightness / (9033 # 10))%Q
        else (((clipped_brightness + 16) / 116) ^ 3)%Q in
      (* Scale back to 10% to 100% *)
      clamp (100 * clipped_brightness) 10 100
    else offroad_brightness d in
  let (filter', x) := FirstOrderFilter_update (brightness_filter d)
                        clipped_brightness in
  let brightness := float_to_int x in
  let brightness :=
    if negb (awake d) then 0
    else if screen_brightness (scene s) <=? 100
    then float_to_int (fmax 5 (inject_Z (screen_brightness (scene s))))
    else brightness in
  (filter', brightness).

Definition updateBrightness (d : Device) (pool : ThreadPool) (s : UIState)
    : Device * ThreadPool :=
  let (filter', brightness) := computed_brightness d s in
  let d1 := mk_Device (awake d) (interactive_timeout d) (ignition_on d)
              (last_brightness d) (offroad_brightness d) filter'
              (brightness_future d) in
  if negb (brightness =? last_brightness d1) then
    if negb (isRunning (brightness_future d1) pool) then
      let (future, pool') := QtConcurrent_run pool brightness in
      (mk_Device (awake d1) (interactive_timeout d1) (ignition_on d1)
         brightness (offroad_brightness d1) (brightness_filter d1) future,
       pool')
    else (d1, pool)
  else (d1, pool).

Definition updateWakefulness (d : Device) (s : UIState) : Device * list Signal :=
  let ignition_just_turned_off := negb (ignition (scene s)) && ignition_on d in
  let d1 := mk_Device (awake d) (interactive_timeout d) (ignition (scene s))
              (last_brightness d) (offroad_brightness d) (brightness_filter d)
              (brightness_future d) in
  let (d2, sig) :=
    if ignition_just_turned_off then (resetInteractiveTimeout d1 (-1), [])
    else if 0 <? interactive_timeout d1 then
      let d' := mk_Device (awake d1) (interactive_timeout d1 - 1)
                  (ignition_on d1) (last_brightness d1) (offroad_brightness d1)
                  (brightness_filter d1) (brightness_future d1) in
      (d', if interactive_timeout d' =? 0 then [interactiveTimeout] else [])
    else (d1, []) in
  let (d3, sig') :=
    if negb (screen_brightness (scene s) =? 0)
    then setAwake d2 (ignition (scene s) || (0 <? interactive_timeout d2))
    else setAwake d2 (0 <? interactive_timeout d2) in
  (d3, sig ++ sig').

(** [Device::update]. *)
Definition Device_update (d : Device) (pool : ThreadPool) (s : UIState)
    : Device * ThreadPool * list Signal :=
  let (d1, pool') := updateBrightness d pool s in
  let (d2, sig) := updateWakefulness d1 s in
  (d2, pool', sig).

(** *** Runs *)

(** What happens to the device and the worker threads: a tick of the UI
    timer with the UI state it publishes, or the return of a background
    call. *)
Inductive Event : Type :=
| Tick (s : UIState)
| Finished (id : nat).

Definition step (w : Device * ThreadPool) (e : Event) : Device * ThreadPool :=
  match e with
  | Tick s => fst (Device_update (fst w) (snd w) s)
  | Finished id => (fst w, task_finished id (snd w))
  end.

Definition run (w : Device * ThreadPool) (evs : list Event) : Device * ThreadPool :=
  fold_left step evs w.

(** A run of [updateWakefulness] alone over the UI states of successive
    ticks: the device at the end and the signals of each tick. *)
Fixpoint wake_run (d : Device) (ticks : list UIState)
    : Device * list (list Signal) :=
  match ticks with
  | [] => (d, [])
  | s :: ticks' =>
      let (d1, sig) := updateWakefulness d s in
      let (d2, sigs) := wake_run d1 ticks' in
      (d2, sig :: sigs)
  end.

(** No tick of [ticks] sees the ignition go from on to off, [prev] being
    the ignition of the tick before. *)
Fixpoint no_ignition_off_edge (prev : bool) (ticks : list UIState) : bool :=
  match ticks with
  | [] => true
  | s :: ticks' =>
      negb (negb (ignition (scene s)) && prev)
      && no_ignition_off_edge (ignition (scene s)) ticks'
  end.

(** *** Prime type *)

(** [hasPrime()] of ui.h, which is not part of the sources, as a function
    of [prime_type]; [PrimeType] is the integer of the enum. *)
Variable hasPrime : Z -> bool.

(** [Params] of common/params.h, which is not part of the sources, as a
    key-value store shared by its instances: [get] gives what the last
    [put] of the key stored, and the empty string for a key that was never
    put. *)
Definition Params : Type := string -> string.

Definition Params_get (params : Params) (key : string) : string := params key.

Definition Params_put (params : Params) (key value : string) : Params :=
  fun k => if String.eqb k key then value else params k.

(** [std::to_string(int)]: the decimal digits of [n], least significant
    digit last, in front of [acc]; [fuel] bounds the number of digits, an
    [int] having at most ten. *)
Fixpoint to_string_digits (fuel : nat) (n : Z) (acc : string) : string :=
  match fuel with
  | O => acc
  | S fuel' =>
      let acc' := String (Ascii.ascii_of_nat (Z.to_nat (48 + n mod 10))) acc in
      if n / 10 =? 0 then acc' else to_string_digits fuel' (n / 10) acc'
  end.

(** The characters [-] and [+]. *)
Definition minus_sign : Ascii.ascii := Ascii.ascii_of_nat 45.
Definition plus_sign : Ascii.ascii := Ascii.ascii_of_nat 43.

Definition to_string (z : Z) : string :=
  if z <? 0 then String minus_sign (to_string_digits 10 (- z) EmptyString)
  else to_string_digits 10 z EmptyString.

(** [std::atoi]: white space, an optional sign, then digits up to the
    first character that is not one; 0 when there is no digit. *)
Definition digit_of (c : Ascii.ascii) : option Z :=
  let n := Z.of_nat (Ascii.nat_of_ascii c) in
  if (48 <=? n) && (n <=? 57) then Some (n - 48) else None.

Fixpoint atoi_digits (s : string) (acc : Z) : Z :=
  match s with
  | EmptyString => acc
  | String c s' =>
      match digit_of c with
      | Some d => atoi_digits s' (10 * acc + d)
      | None => acc
      end
  end.

Definition is_space (c : Ascii.ascii) : bool :=
  let n := Ascii.nat_of_ascii c in
  Nat.eqb n 32 || (Nat.leb 9 n && Nat.leb n 13).

Fixpoint skip_spaces (s : string) : string :=
  match s with
  | String c s' => if is_space c then skip_spaces s' else s
  | EmptyString => s
  end.

Definition atoi (s : string) : Z :=
  match skip_spaces s with
  | String c s' =>
      if Ascii.eqb c minus_sign then - atoi_digits s' 0
      else if Ascii.eqb c plus_sign then atoi_digits s' 0
      else atoi_digits (String c s') 0
  | EmptyString => 0
  end.

Inductive PrimeSignal : Type :=
| primeTypeChanged (prime_type : Z)
| primeChanged (prime : bool).

(** [UIState::setPrimeType] on the member [prime_type] and the parameter
    store. *)
Definition setPrimeType (prime_type : Z) (params : Params) (type : Z)
    : Z * Params * list PrimeSignal :=
  if negb (type =? prime_type) then
    let prev_prime := hasPrime prime_type in
    let prime_type := type in
    let params := Params_put params "PrimeType" (to_string prime_type) in
    let prime := hasPrime prime_type in
    (prime_type, params,
     primeTypeChanged prime_type
     :: (if negb (Bool.eqb prev_prime prime) then [primeChanged prime] else []))
  else (prime_type, params, []).

(** The part of the constructor of [UIState] that restores [prime_type]:
    [init] is the member's initialiser. *)
Definition restore_prime_type (params : Params) (init : Z) : Z :=
  let prime_value := Params_get params "PrimeType" in
  if negb (String.eqb prime_value EmptyString) then atoi prime_value
  else init.

(** *** Driver monitoring *)

(** [sinf] and [cosf], and the table [default_face_kpts_3d] of ui.h. *)
Variable sinf : Q -> Q.
Variable cosf : Q -> Q.
Variable default_face_kpts_3d : list vec3.

Record DriverData : Type := mk_DriverData {
  getFaceOrientation : list Q
}.

Record DriverStateV2 : Type := mk_DriverStateV2 {
  getLeftDriverData : DriverData;
  getRightDriverData : DriverData
}.

(** The fields of the scene that [update_dmonitoring] works on. *)
Record DriverPose : Type := mk_DriverPose {
  driver_pose_vals : list Q;
  driver_pose_diff : list Q;
  driver_pose_sins : list Q;
  driver_pose_coss : list Q;
  face_kpts_draw : list vec3
}.

(** [fabs] on exact numbers. *)
Definition fabs (q : Q) : Q := if Qltb q 0 then (- q)%Q else q.

(** [v_this] at index [i] for the reported angle. *)
Definition pose_target (i : Z) (orient : Q) : Q :=
  ((if i =? 0 then (if Qltb orient 0 then 7 # 10 else 9 # 10) else 4 # 10)
   * orient)%Q.

(** The loop over [scene.driver_pose_vals], [n] iterations from [i]. *)
Fixpoint pose_loop (driver_orient : list Q) (dm_fade_state : Q) (n : nat)
    (i : Z) (p : DriverPose) : outcome DriverPose :=
  match n with
  | O => Ret p
  | S n' =>
      o <- read driver_orient i ;;
      let v_this := pose_target i o in
      old <- read (driver_pose_vals p) i ;;
      diff <- write (driver_pose_diff p) i (fabs (old - v_this)) ;;
      let new := ((8 # 10) * v_this + (1 - (8 # 10)) * old)%Q in
      vals <- write (driver_pose_vals p) i new ;;
      sins <- write (driver_pose_sins p) i
                (sinf (new * (1 - dm_fade_state))) ;;
      coss <- write (driver_pose_coss p) i
                (cosf (new * (1 - dm_fade_state))) ;;
      pose_loop driver_orient dm_fade_state n' (i + 1)
        (mk_DriverPose vals diff sins coss (face_kpts_draw p))
  end.

(** The loop over [default_face_kpts_3d]. *)
Fixpoint kpts_loop (r_xyz : mat3) (dm_fade_state : Q) (kpts : list vec3)
    (kpi : Z) (draw : list vec3) : outcome (list vec3) :=
  match kpts with
  | [] => Ret draw
  | kpt :: kpts' =>
      let kpt_this := matvecmul3 r_xyz kpt in
      draw' <- write draw kpi
                 (mk_vec3 (v_0 kpt_this) (v_1 kpt_this)
                    (v_2 kpt_this * (1 - dm_fade_state) + 8 * dm_fade_state)) ;;
      kpts_loop r_xyz dm_fade_state kpts' (kpi + 1) draw'
  end.

Definition update_dmonitoring (p : DriverPose) (driverstate : DriverStateV2)
    (dm_fade_state : Q) (is_rhd : bool) : outcome DriverPose :=
  let driver_orient :=
    if is_rhd then getFaceOrientation (getRightDriverData driverstate)
    else getFaceOrientation (getLeftDriverData driverstate) in
  p1 <- pose_loop driver_orient dm_fade_state
          (length (driver_pose_vals p)) 0 p ;;
  s0 <- read (driver_pose_sins p1) 0 ;;
  s1 <- read (driver_pose_sins p1) 1 ;;
  s2 <- read (driver_pose_sins p1) 2 ;;
  c0 <- read (driver_pose_coss p1) 0 ;;
  c1 <- read (driver_pose_coss p1) 1 ;;
  c2 <- read (driver_pose_coss p1) 2 ;;
  let r_xyz :=
    mk_mat3 (c1 * c2) (c1 * s2) (- s1)
            (- s0 * s1 * c2 - c0 * s2) (- s0 * s1 * s2 + c0 * c2) (- s0 * c1)
            (c0 * s1 * c2 - s0 * s2) (c0 * s1 * s2 + s0 * c2) (c0 * c1) in
  (* transform vertices *)
  draw <- kpts_loop r_xyz dm_fade_state default_face_kpts_3d 0
            (face_kpts_draw p1) ;;
  Ret (mk_DriverPose (driver_pose_vals p1) (driver_pose_diff p1)
         (driver_pose_sins p1) (driver_pose_coss p1) draw).

(** *** Notions used by the statements *)

(** Boolean comparisons of [Z] in the hypotheses, as propositions. *)
Ltac Z_of_bool :=
  repeat match goal with
         | H : (_ =? _) = true |- _ => apply Z.eqb_eq in H
         | H : (_ =? _) = false |- _ => apply Z.eqb_neq in H
         | H : (_ <? _) = true |- _ => apply Z.ltb_lt in H
         | H : (_ <? _) = false |- _ => apply Z.ltb_ge in H
         end.

(** The point is a finite point within the frame bounds widened by the
    margin on each side. *)
Definition within_margin (s : UIState) (p : QPointF) : Prop :=
  match px p, py p with
  | Finite x, Finite y =>
      (- margin <= x <= inject_Z (fb_w s) + margin)%Q
      /\ (- margin <= y <= inject_Z (fb_h s) + margin)%Q
  | _, _ => False
  end.

(** The coordinate is NaN or a number between [lo] and [hi]: what the
    tests of [QRectF::contains] let through. *)
Definition coordinate_within (lo hi : Q) (c : qreal) : Prop :=
  match c with
  | Finite q => (lo <= q <= hi)%Q
  | NaN => True
  | _ => False
  end.

(** The sample at index [i] is valid: it is read within the lists, its x is
    not negative, and its two offset projections are finite points of the
    clip region. *)
Definition sample_valid (s : UIState) (line : XYZTData) (y_off z_off : Q)
    (i : Z) : bool :=
  match read (getX line) i, read (getY line) i, read (getZ line) i with
  | Ret x, Ret y, Ret z =>
      negb (Qltb x 0)
      && lands_in_clip s x (y - y_off) (z + z_off)
      && lands_in_clip s x (y + y_off) (z + z_off)
  | _, _, _ => false
  end.

(** The number of valid samples among the [n] indices from [i]. *)
Fixpoint valid_count_from (s : UIState) (line : XYZTData) (y_off z_off : Q)
    (n : nat) (i : Z) : nat :=
  match n with
  | O => O
  | S n' =>
      ((if sample_valid s line y_off z_off i then 1 else 0)
       + valid_count_from s line y_off z_off n' (i + 1))%nat
  end.

(** The number of valid samples in the index range 0..[max_idx]. *)
Definition valid_count (s : UIState) (line : XYZTData) (y_off z_off : Q)
    (max_idx : Z) : nat :=
  valid_count_from s line y_off z_off (Z.to_nat (max_idx + 1)) 0.

(** The screen y of each point is at most that of the point before it. *)
Inductive y_nonincreasing : QPolygonF -> Prop :=
| y_nonincreasing_nil : y_nonincreasing []
| y_nonincreasing_one (p : QPointF) : y_nonincreasing [p]
| y_nonincreasing_cons (p q : QPointF) (l : QPolygonF) :
    qreal_leb (py q) (py p) = true -> y_nonincreasing (q :: l) ->
    y_nonincreasing (p :: q :: l).

(** The value to which the spec clamps the draw distance for a lead at
    distance [d]. *)
Definition lead_draw_distance (d : Q) : Q :=
  (d * 2 - Qmin (d * (7 # 10)) 10)%Q.

(** The four calibration fields of a scene. *)
Definition calibration_of (sc : UIScene) : mat3 * mat3 * bool * bool :=
  (view_from_calib sc, view_from_wide_calib sc,
   calibration_valid sc, calibration_wide_valid sc).

(** The status that the transition rule derives from a controls-state
    message. *)
Definition derived_status (controls_state : ControlsState)
    (always_on_lateral_active : bool) : UIStatus :=
  match getState controls_state with
  | PRE_ENABLED | OVERRIDING => STATUS_OVERRIDE
  | _ =>
      if always_on_lateral_active then STATUS_LATERAL_ACTIVE
      else if getEnabled controls_state then STATUS_ENGAGED
      else STATUS_DISENGAGED
  end.

(** The tick is a start or stop edge, or the first frame. *)
Definition transition_tick (s : UIState) : bool :=
  negb (Bool.eqb (started (scene s)) (started_prev s)) || (frame (sm s) =? 1).

(** A write is dispatched on this tick: the computed brightness differs
    from the last issued one and the handle of the last write reports no
    running call. *)
Definition dispatches (d : Device) (pool : ThreadPool) (s : UIState) : bool :=
  negb (snd (computed_brightness d s) =? last_brightness d)
  && negb (isRunning (brightness_future d) pool).

(** At most one call of [Hardware::set_brightness] is in flight, and it is
    the one the device holds the handle of. *)
Definition single_flight (w : Device * ThreadPool) : Prop :=
  running (snd w) = []
  \/ exists id v,
       running (snd w) = [(id, v)] /\ brightness_future (fst w) = Some id.

(** The state in which a run starts: any device, no call in flight. *)
Definition idle_pool : ThreadPool := mk_ThreadPool [] 0 [].

Definition is_interactiveTimeout (sig : Signal) : bool :=
  match sig with
  | interactiveTimeout => true
  | _ => false
  end.

(** How many times a tick emits [interactiveTimeout]. *)
Definition timeouts_emitted (sig : list Signal) : nat :=
  length (filter is_interactiveTimeout sig).

(** *** Notions used by the further statements *)

(** The left and right screen points of the sample at index [i], when
    [update_line_data] accepts the sample: its x is not negative and the
    clip test passes for both projections. *)
Definition sample_points (s : UIState) (line : XYZTData) (y_off z_off : Q)
    (i : Z) : option (QPointF * QPointF) :=
  match read (getX line) i, read (getY line) i, read (getZ line) i with
  | Ret x, Ret y, Ret z =>
      if Qltb x 0 then None
      else
        let l := project_point s x (y - y_off) (z + z_off) in
        let r := project_point s x (y + y_off) (z + z_off) in
        if QRectF_contains (clip_region s) l
           && QRectF_contains (clip_region s) r
        then Some (l, r) else None
  | _, _, _ => None
  end.

(** The point pairs of the accepted samples among the [n] indices from
    [i], in index order. *)
Fixpoint band_samples (s : UIState) (line : XYZTData) (y_off z_off : Q)
    (n : nat) (i : Z) : list (QPointF * QPointF) :=
  match n with
  | O => []
  | S n' =>
      match sample_points s line y_off z_off i with
      | Some p => p :: band_samples s line y_off z_off n' (i + 1)
      | None => band_samples s line y_off z_off n' (i + 1)
      end
  end.

(** [l1] is [l2] with some elements left out. *)
Inductive subseq {A : Type} : list A -> list A -> Prop :=
| subseq_nil : subseq [] []
| subseq_take (a : A) (l1 l2 : list A) :
    subseq l1 l2 -> subseq (a :: l1) (a :: l2)
| subseq_skip (a : A) (l1 l2 : list A) :
    subseq l1 l2 -> subseq l1 (a :: l2).

(** The point passes the clip test of [s]: [QRectF::contains] of the clip
    region holds of it. *)
Definition in_clip (s : UIState) (p : QPointF) : Prop :=
  QRectF_contains (clip_region s) p = true.

(** What the projection reads of a UI state: the frame size, the camera
    choice, the two calibration transforms and the screen transform. *)
Definition same_projection (s1 s2 : UIState) : Prop :=
  fb_w s1 = fb_w s2 /\ fb_h s1 = fb_h s2
  /\ wide_cam (scene s1) = wide_cam (scene s2)
  /\ view_from_calib (scene s1) = view_from_calib (scene s2)
  /\ view_from_wide_calib (scene s1) = view_from_wide_calib (scene s2)
  /\ car_space_transform s1 = car_space_transform s2.

(** The scene with the eight fields that [update_model] assigns set to the
    given values. *)
Definition with_model_geometry (probs stds : list Q)
    (lane_lines road_edges : list QPolygonF)
    (track track_edge adjacent_left adjacent_right : QPolygonF)
    (sc : UIScene) : UIScene :=
  set_track_right_adjacent_lane_vertices adjacent_right
    (set_track_left_adjacent_lane_vertices adjacent_left
       (set_track_edge_vertices track_edge
          (set_track_vertices track
             (set_road_edge_vertices road_edges
                (set_road_edge_stds stds
                   (set_lane_line_vertices lane_lines
                      (set_lane_line_probs probs sc))))))).

(** The three lists of the trajectory have at least [TRAJECTORY_SIZE]
    samples. *)
Definition full_line (line : XYZTData) : Prop :=
  TRAJECTORY_SIZE <= Z.of_nat (length (getX line))
  /\ TRAJECTORY_SIZE <= Z.of_nat (length (getY line))
  /\ TRAJECTORY_SIZE <= Z.of_nat (length (getZ line)).

(** The ignition that a fresh pandaStates message reports: the OR over
    all pandas of the ignition line and the CAN ignition, once the first
    panda has a known type. *)
Definition reported_ignition (m : SubMaster) : option bool :=
  if updated m "pandaStates" then
    match pandaStates m with
    | [] => None
    | first :: _ =>
        match getPandaType first with
        | UNKNOWN => None
        | KNOWN_PANDA _ =>
            Some (existsb (fun p => getIgnitionLine p || getIgnitionCan p)
                    (pandaStates m))
        end
    end
  else None.

(** The scene on which the blocks after the calibration block work. *)
Definition after_calibration (s : UIState) (uninit_rpy uninit_wfde : vec3)
    : UIScene :=
  if updated (sm s) "liveCalibration"
  then update_calibration (liveCalibration (sm s)) uninit_rpy uninit_wfde
         (scene s)
  else scene s.

(** The display power calls and notifications among the signals. *)
Definition power_signals (sig : list Signal) : list Signal :=
  filter (fun x => negb (is_interactiveTimeout x)) sig.

(** The value of [clipped_brightness] that [updateBrightness] hands to the
    filter: the configured offroad brightness, or while started the light
    sensor through the CIE 1931 curve, scaled and clamped to 10..100. *)
Definition brightness_target (d : Device) (s : UIState) : Q :=
  if started (scene s) then
    let clipped_brightness := light_sensor (scene s) in
    let clipped_brightness :=
      if Qle_bool clipped_brightness 8
      then (clipped_brightness / (9033 # 10))%Q
      else (((clipped_brightness + 16) / 116) ^ 3)%Q in
    clamp (100 * clipped_brightness) 10 100
  else offroad_brightness d.

(** No two neighbours of the list are equal. *)
Fixpoint distinct_neighbours (l : list Z) : Prop :=
  match l with
  | a :: (b :: _) as rest => a <> b /\ distinct_neighbours rest
  | _ => True
  end.

(** The log of hardware writes has no repeated neighbour and ends with
    the last issued brightness. *)
Definition write_log_invariant (w : Device * ThreadPool) : Prop :=
  distinct_neighbours (set_brightness_calls (snd w))
  /\ (set_brightness_calls (snd w) <> [] ->
      last (set_brightness_calls (snd w)) 0 = last_brightness (fst w)).

(** The marker that [update_leads] computes for a lead: the projection of
    the lead's position at the height of the trajectory at its distance,
    when the lead has a valid status and the projection passes the clip
    test. *)
Definition lead_marker (s : UIState) (lead_data : LeadData) (line : XYZTData)
    : outcome (option QPointF) :=
  if getStatus lead_data then
    idx <- get_path_length_idx line (getDRel lead_data) ;;
    z <- read (getZ line) idx ;;
    let p := project_point s (getDRel lead_data) (- getYRel lead_data)
               (z + (122 # 100)) in
    Ret (if QRectF_contains (clip_region s) p then Some p else None)
  else Ret None.

(** ** Properties *)

(** *** Numbers and reads *)

Lemma Qltb_lt (a b : Q) : Qltb a b = true <-> (a < b)%Q.
Proof.
  unfold Qltb. rewrite negb_true_iff, <- not_true_iff_false, Qle_bool_iff.
  split; [apply Qnot_le_lt | apply Qlt_not_le].
Qed.

Lemma Qltb_ge (a b : Q) : Qltb a b = false <-> (b <= a)%Q.
Proof.
  unfold Qltb. rewrite negb_false_iff. apply Qle_bool_iff.
Qed.

Lemma to_int_small (z : Z) : - 2 ^ 31 <= z < 2 ^ 31 -> to_int z = z.
Proof.
  intros Hz. unfold to_int. rewrite Z.mod_small; lia.
Qed.

Lemma read_in_range {A : Type} (l : list A) (i : Z) :
  0 <= i < Z.of_nat (length l) -> exists a, read l i = Ret a.
Proof.
  intros Hi. unfold read.
  destruct (i <? 0) eqn:E; [apply Z.ltb_lt in E; lia|].
  destruct (nth_error l (Z.to_nat i)) as [a|] eqn:N; [now exists a|].
  apply nth_error_None in N. lia.
Qed.

Lemma bind_Ret {A B : Type} (c : outcome A) (k : A -> outcome B) (b : B) :
  bind c k = Ret b -> exists a, c = Ret a /\ k a = Ret b.
Proof.
  destruct c as [a|]; cbn; [|discriminate]. intros H. now exists a.
Qed.

(** Each field assignment sets its field. *)
Lemma scene_setters_set (sc : UIScene)
    (v0 : mat3) (v1 : mat3) (v2 : bool) (v3 : bool) (v4 : PandaType) (v5 :
    bool) (v6 : bool) (v7 : Z) (v8 : bool) (v9 : bool) (v10 : bool) (v11 :
    Q) (v12 : Q) (v13 : Q) (v14 : list Q) (v15 : list Q) (v16 : list
    QPolygonF) (v17 : list QPolygonF) (v18 : QPolygonF) (v19 : QPolygonF)
    (v20 : QPolygonF) (v21 : QPolygonF) (v22 : QPointF * QPointF) :
  view_from_calib (set_view_from_calib v0 sc) = v0
  /\ view_from_wide_calib (set_view_from_wide_calib v1 sc) = v1
  /\ calibration_valid (set_calibration_valid v2 sc) = v2
  /\ calibration_wide_valid (set_calibration_wide_valid v3 sc) = v3
  /\ pandaType (set_pandaType v4 sc) = v4
  /\ ignition (set_ignition v5 sc) = v5
  /\ started (set_started v6 sc) = v6
  /\ started_frame (set_started_frame v7 sc) = v7
  /\ always_on_lateral (set_always_on_lateral v8 sc) = v8
  /\ always_on_lateral_active (set_always_on_lateral_active v9 sc) = v9
  /\ enabled (set_enabled v10 sc) = v10
  /\ light_sensor (set_light_sensor v11 sc) = v11
  /\ lane_width_left (set_lane_width_left v12 sc) = v12
  /\ lane_width_right (set_lane_width_right v13 sc) = v13
  /\ lane_line_probs (set_lane_line_probs v14 sc) = v14
  /\ road_edge_stds (set_road_edge_stds v15 sc) = v15
  /\ lane_line_vertices (set_lane_line_vertices v16 sc) = v16
  /\ road_edge_vertices (set_road_edge_vertices v17 sc) = v17
  /\ track_vertices (set_track_vertices v18 sc) = v18
  /\ track_edge_vertices (set_track_edge_vertices v19 sc) = v19
  /\ track_left_adjacent_lane_vertices (set_track_left_adjacent_lane_vertices v20 sc) = v20
  /\ track_right_adjacent_lane_vertices (set_track_right_adjacent_lane_vertices v21 sc) = v21
  /\ lead_vertices (set_lead_vertices v22 sc) = v22.
Proof.
  repeat split; reflexivity.
Qed.

(** *** The clip region *)

(** A contained point of a rectangle of non-negative extent has each
    coordinate between the edges, or NaN. *)
Lemma QRectF_contains_bounds (r : QRectF) (p : QPointF) :
  (0 <= rw r)%Q -> (0 <= rh r)%Q ->
  QRectF_contains r p = true ->
  coordinate_within (xp r) (xp r + rw r) (px p)
  /\ coordinate_within (yp r) (yp r + rh r) (py p).
Proof.
  intros Hw Hh. unfold QRectF_contains.
  assert (Ew : Qltb (rw r) 0 = false) by now apply Qltb_ge.
  assert (Eh : Qltb (rh r) 0 = false) by now apply Qltb_ge.
  rewrite Ew, Eh.
  destruct (Qeq_bool (xp r) (xp r + rw r)); [discriminate|].
  destruct (qreal_ltb (px p) (Finite (xp r))) eqn:E1; [discriminate|].
  destruct (qreal_ltb (Finite (xp r + rw r)) (px p)) eqn:E2; [discriminate|].
  cbn [orb].
  destruct (Qeq_bool (yp r) (yp r + rh r)); [discriminate|].
  destruct (qreal_ltb (py p) (Finite (yp r))) eqn:E3; [discriminate|].
  destruct (qreal_ltb (Finite (yp r + rh r)) (py p)) eqn:E4; [discriminate|].
  intros _. split.
  - destruct (px p); cbn in *; try discriminate; [|exact I].
    apply Qltb_ge in E1, E2. now split.
  - destruct (py p); cbn in *; try discriminate; [|exact I].
    apply Qltb_ge in E3, E4. now split.
Qed.

Lemma clip_region_within_margin (s : UIState) (p : QPointF) :
  0 <= fb_w s -> 0 <= fb_h s ->
  QRectF_contains (clip_region s) p = true ->
  is_finite p = true -> within_margin s p.
Proof.
  intros Hw Hh Hc Hf.
  assert (Qw : (0 <= inject_Z (fb_w s))%Q)
    by (change 0%Q with (inject_Z 0); now rewrite <- Zle_Qle).
  assert (Qh : (0 <= inject_Z (fb_h s))%Q)
    by (change 0%Q with (inject_Z 0); now rewrite <- Zle_Qle).
  apply QRectF_contains_bounds in Hc; unfold clip_region, margin in *;
    cbn in *; [| lra | lra].
  unfold within_margin, is_finite, margin in *.
  destruct (px p), (py p); try discriminate. cbn in Hc. lra.
Qed.

(** A point that passes the clip test of a frame of non-negative size has
    each coordinate within the margin, or NaN. *)
Lemma in_clip_coordinates (s : UIState) (p : QPointF) :
  0 <= fb_w s -> 0 <= fb_h s ->
  in_clip s p ->
  coordinate_within (- margin) (inject_Z (fb_w s) + margin) (px p)
  /\ coordinate_within (- margin) (inject_Z (fb_h s) + margin) (py p).
Proof.
  intros Hw Hh Hc.
  assert (Qw : (0 <= inject_Z (fb_w s))%Q)
    by (change 0%Q with (inject_Z 0); now rewrite <- Zle_Qle).
  assert (Qh : (0 <= inject_Z (fb_h s))%Q)
    by (change 0%Q with (inject_Z 0); now rewrite <- Zle_Qle).
  apply QRectF_contains_bounds in Hc; unfold clip_region, margin in *;
    cbn in *; [| lra | lra].
  unfold coordinate_within in *.
  destruct (px p), (py p); cbn in *; try tauto; lra.
Qed.

Lemma calib_frame_flag (s : UIState) (x y z : Q) (out : QPointF) :
  fst (calib_frame_to_full_frame s x y z out)
  = QRectF_contains (clip_region s) (project_point s x y z).
Proof.
  unfold calib_frame_to_full_frame. cbv zeta.
  now destruct (QRectF_contains (clip_region s) (project_point s x y z)).
Qed.

Lemma calib_frame_point (s : UIState) (x y z : Q) (out : QPointF) :
  fst (calib_frame_to_full_frame s x y z out) = true ->
  snd (calib_frame_to_full_frame s x y z out) = project_point s x y z
  /\ QRectF_contains (clip_region s) (project_point s x y z) = true.
Proof.
  unfold calib_frame_to_full_frame. cbv zeta.
  destruct (QRectF_contains (clip_region s) (project_point s x y z)) eqn:E;
    [|discriminate].
  now split.
Qed.

(** The two ways out of [calib_frame_to_full_frame]. *)
Lemma calib_frame_cases (s : UIState) (x y z : Q) (out : QPointF) :
  calib_frame_to_full_frame s x y z out = (false, out)
  \/ (calib_frame_to_full_frame s x y z out = (true, project_point s x y z)
      /\ QRectF_contains (clip_region s) (project_point s x y z) = true).
Proof.
  unfold calib_frame_to_full_frame. cbv zeta.
  destruct (QRectF_contains (clip_region s) (project_point s x y z)) eqn:E;
    [|now left].
  right. now split.
Qed.

(** C10. When [calib_frame_to_full_frame] returns false, the point behind
    [out] is the one it held at the call: the function writes through [out]
    only on the path that returns true. *)
Theorem calib_frame_false_leaves_out (s : UIState) (in_x in_y in_z : Q)
    (out : QPointF) :
  fst (calib_frame_to_full_frame s in_x in_y in_z out) = false ->
  snd (calib_frame_to_full_frame s in_x in_y in_z out) = out.
Proof.
  destruct (calib_frame_cases s in_x in_y in_z out) as [-> | [-> _]];
    cbn [fst snd]; [reflexivity | discriminate].
Qed.

(** *** Path length *)

Lemma path_length_loop_range (line_x : list Q) (path_height : Q) (n : nat) :
  forall i max_idx,
    0 <= max_idx < i ->
    i + Z.of_nat n <= Z.of_nat (length line_x) ->
    exists idx,
      path_length_loop line_x path_height n i max_idx = Ret idx
      /\ max_idx <= idx < i + Z.of_nat n.
Proof.
  induction n as [|n IH]; intros i max_idx Hm Hlen; cbn [path_length_loop].
  - exists max_idx. split; [reflexivity | lia].
  - destruct (read_in_range line_x i) as [x Hx]; [lia|].
    rewrite Hx. cbn [bind].
    destruct (Qle_bool x path_height).
    + destruct (IH (i + 1) i) as [idx [Hr Hi]]; [lia | lia |].
      exists idx. split; [exact Hr | lia].
    + exists max_idx. split; [reflexivity | lia].
Qed.

(** The loop never returns an index at or past the bound, whatever the
    length of the list. *)
Lemma path_length_loop_below (line_x : list Q) (path_height : Q) (n : nat) :
  forall i max_idx idx,
    0 <= max_idx < i ->
    path_length_loop line_x path_height n i max_idx = Ret idx ->
    max_idx <= idx < i + Z.of_nat n.
Proof.
  induction n as [|n IH]; intros i max_idx idx Hm; cbn [path_length_loop].
  - intros [= <-]. lia.
  - intros H. apply bind_Ret in H. destruct H as [x [_ H]].
    destruct (Qle_bool x path_height).
    + apply IH in H; lia.
    + injection H as <-. lia.
Qed.

Lemma get_path_length_idx_returns (line : XYZTData) (path_height : Q) :
  1 <= TRAJECTORY_SIZE ->
  TRAJECTORY_SIZE <= Z.of_nat (length (getX line)) ->
  exists idx,
    get_path_length_idx line path_height = Ret idx
    /\ 0 <= idx <= TRAJECTORY_SIZE - 1.
Proof.
  intros Hn Hx. unfold get_path_length_idx.
  destruct (path_length_loop_range (getX line) path_height
              (Z.to_nat (TRAJECTORY_SIZE - 1)) 1 0) as [idx [Hr Hi]];
    [lia | lia |].
  exists idx. split; [exact Hr | lia].
Qed.

(** C9. On a trajectory of [TRAJECTORY_SIZE] samples and for every path
    height, [get_path_length_idx] returns an index between 0 and
    [TRAJECTORY_SIZE - 1], and the read of the z list at that index made
    by [update_leads] is within the list. *)
Theorem get_path_length_idx_in_bounds (line : XYZTData) (path_height : Q) :
  1 <= TRAJECTORY_SIZE ->
  Z.of_nat (length (getX line)) = TRAJECTORY_SIZE ->
  Z.of_nat (length (getZ line)) = TRAJECTORY_SIZE ->
  exists idx z,
    get_path_length_idx line path_height = Ret idx
    /\ 0 <= idx <= TRAJECTORY_SIZE - 1
    /\ read (getZ line) idx = Ret z.
Proof.
  intros Hn Hx Hz.
  destruct (get_path_length_idx_returns line path_height Hn) as [idx [Hr Hi]];
    [lia|].
  destruct (read_in_range (getZ line) idx) as [z Hrz]; [lia|].
  exists idx, z. repeat split; [exact Hr | lia | lia | exact Hrz].
Qed.

(** *** Line and polygon builder *)

Lemma y_nonincreasing_snoc (l : QPolygonF) (p : QPointF) :
  y_nonincreasing l ->
  (l <> [] -> qreal_leb (py p) (py (last l QPointF_null)) = true) ->
  y_nonincreasing (l ++ [p]).
Proof.
  induction 1 as [|q|q r l Hqr Hl IH]; intros Hp; cbn [app].
  - constructor.
  - constructor; [|constructor]. apply Hp. discriminate.
  - constructor; [exact Hqr|]. apply IH. intros _.
    apply Hp. discriminate.
Qed.

(** Between two numbers, [a < b] false is [b <= a]. *)
Lemma qreal_ltb_false_leb (p q : QPointF) :
  is_finite p = true -> is_finite q = true ->
  qreal_ltb (py p) (py q) = false -> qreal_leb (py q) (py p) = true.
Proof.
  unfold is_finite.
  destruct (px p), (py p) as [a| | |], (px q), (py q) as [b| | |];
    try discriminate.
  intros _ _. cbn. intros H. apply Qltb_ge in H. now apply Qle_bool_iff.
Qed.

(** One iteration, in terms of the sample's point pair: an accepted sample
    adds its left point at the back of the left points and its right point
    at the front of the right points, unless inversion is refused and the y
    of its left point compares greater than that of the last left point. *)
Lemma line_step_sample (s : UIState) (line : XYZTData) (y_off z_off : Q)
    (allow_invert : bool) (i : Z) (lp rp : QPolygonF)
    (pts' : QPolygonF * QPolygonF) :
  line_step s line y_off z_off allow_invert i (lp, rp) = Ret pts' ->
  pts' = match sample_points s line y_off z_off i with
         | Some (l, r) =>
             if negb allow_invert
                && negb (Nat.eqb (length lp) 0)
                && qreal_ltb (py (last lp QPointF_null)) (py l)
             then (lp, rp)
             else (lp ++ [l], r :: rp)
         | None => (lp, rp)
         end.
Proof.
  unfold line_step, sample_points, calib_frame_to_full_frame. intros H.
  apply bind_Ret in H. destruct H as [x [-> H]].
  destruct (Qltb x 0).
  { injection H as <-.
    destruct (read (getY line) i); [destruct (read (getZ line) i)|];
      reflexivity. }
  apply bind_Ret in H. destruct H as [y [-> H]].
  apply bind_Ret in H. destruct H as [z [-> H]].
  cbv zeta in *.
  destruct (QRectF_contains (clip_region s)
              (project_point s x (y - y_off) (z + z_off)));
    destruct (QRectF_contains (clip_region s)
                (project_point s x (y + y_off) (z + z_off)));
    cbn [fst snd andb] in *; try (now injection H as <-).
  destruct (negb allow_invert && negb (Nat.eqb (length lp) 0)
            && qreal_ltb (py (last lp QPointF_null))
                 (py (project_point s x (y - y_off) (z + z_off))));
    now injection H as <-.
Qed.

Lemma sample_points_in_clip (s : UIState) (line : XYZTData) (y_off z_off : Q)
    (i : Z) (l r : QPointF) :
  sample_points s line y_off z_off i = Some (l, r) ->
  QRectF_contains (clip_region s) l = true
  /\ QRectF_contains (clip_region s) r = true.
Proof.
  unfold sample_points.
  destruct (read (getX line) i) as [x|]; [|discriminate].
  destruct (read (getY line) i) as [y|]; [|discriminate].
  destruct (read (getZ line) i) as [z|]; [|discriminate].
  destruct (Qltb x 0); [discriminate|]. cbv zeta.
  destruct (QRectF_contains (clip_region s)
              (project_point s x (y - y_off) (z + z_off))) eqn:El;
    [|discriminate].
  destruct (QRectF_contains (clip_region s)
              (project_point s x (y + y_off) (z + z_off))) eqn:Er;
    [|discriminate].
  intros [= <- <-]. now split.
Qed.

(** What one iteration does to the two point lists: nothing, or one point
    more on each, both passing the clip test, and with inversion refused
    the y of the last left point does not compare less than that of the new
    one. *)
Lemma line_step_cases (s : UIState) (line : XYZTData) (y_off z_off : Q)
    (allow_invert : bool) (i : Z) (lp rp : QPolygonF)
    (pts' : QPolygonF * QPolygonF) :
  line_step s line y_off z_off allow_invert i (lp, rp) = Ret pts' ->
  pts' = (lp, rp)
  \/ exists l r,
       pts' = (lp ++ [l], r :: rp)
       /\ sample_points s line y_off z_off i = Some (l, r)
       /\ QRectF_contains (clip_region s) l = true
       /\ QRectF_contains (clip_region s) r = true
       /\ (allow_invert = false -> lp <> [] ->
           qreal_ltb (py (last lp QPointF_null)) (py l) = false).
Proof.
  intros H. apply line_step_sample in H.
  destruct (sample_points s line y_off z_off i) as [[l r]|] eqn:Es;
    [|now left].
  destruct (sample_points_in_clip _ _ _ _ _ _ _ Es) as [Hl Hr].
  destruct (negb allow_invert && negb (Nat.eqb (length lp) 0)
            && qreal_ltb (py (last lp QPointF_null)) (py l)) eqn:Einv;
    [now left|].
  right. exists l, r. repeat split; try assumption.
  intros -> Hne. destruct lp as [|a lp']; [congruence|].
  cbn [negb length Nat.eqb andb] in Einv. exact Einv.
Qed.

(** With inversion refused, a sample whose left point has a y that compares
    greater than that of the last accepted left point adds nothing. *)
Lemma line_step_skips_inversion (s : UIState) (line : XYZTData)
    (y_off z_off : Q) (i : Z) (lp rp : QPolygonF) (x y z : Q) :
  read (getX line) i = Ret x ->
  read (getY line) i = Ret y ->
  read (getZ line) i = Ret z ->
  lp <> [] ->
  qreal_ltb (py (last lp QPointF_null))
    (py (project_point s x (y - y_off) (z + z_off))) = true ->
  line_step s line y_off z_off false i (lp, rp) = Ret (lp, rp).
Proof.
  intros Hx Hy Hz Hne Hlt. unfold line_step. rewrite Hx. cbn [bind].
  destruct (Qltb x 0); [reflexivity|]. rewrite Hy, Hz. cbn [bind].
  destruct (fst (calib_frame_to_full_frame s x (y - y_off) (z + z_off)
                   QPointF_null)) eqn:El; [|reflexivity].
  destruct (fst (calib_frame_to_full_frame s x (y + y_off) (z + z_off)
                   QPointF_null)); [|reflexivity].
  destruct (calib_frame_point _ _ _ _ _ El) as [-> _].
  rewrite Hlt.
  destruct lp; [congruence | reflexivity].
Qed.

(** An iteration within the lists does not fault. *)
Lemma line_step_returns (s : UIState) (line : XYZTData) (y_off z_off : Q)
    (allow_invert : bool) (i : Z) (pts : QPolygonF * QPolygonF) :
  0 <= i ->
  i < Z.of_nat (length (getX line)) ->
  i < Z.of_nat (length (getY line)) ->
  i < Z.of_nat (length (getZ line)) ->
  exists pts', line_step s line y_off z_off allow_invert i pts = Ret pts'.
Proof.
  intros H0 Hx Hy Hz. unfold line_step. destruct pts as [lp rp].
  destruct (read_in_range (getX line) i) as [x ->]; [lia|].
  destruct (read_in_range (getY line) i) as [y ->]; [lia|].
  destruct (read_in_range (getZ line) i) as [z ->]; [lia|].
  cbn [bind]. destruct (Qltb x 0); [eauto|].
  destruct (_ && _); [|eauto]. destruct (_ && _); eauto.
Qed.

(** The loop invariant: the points added by [n] iterations. *)
Lemma line_loop_adds (s : UIState) (line : XYZTData) (y_off z_off : Q)
    (allow_invert : bool) (n : nat) :
  forall i lp rp pts',
    line_loop s line y_off z_off allow_invert n i (lp, rp) = Ret pts' ->
    exists la ra,
      pts' = (lp ++ la, ra ++ rp)
      /\ length la = length ra
      /\ Forall (fun p => QRectF_contains (clip_region s) p = true) la
      /\ Forall (fun p => QRectF_contains (clip_region s) p = true) ra
      /\ (allow_invert = false ->
          Forall (fun p => is_finite p = true) (lp ++ la) ->
          y_nonincreasing lp -> y_nonincreasing (lp ++ la)).
Proof.
  induction n as [|n IH]; intros i lp rp pts'; cbn [line_loop].
  - intros [= <-]. exists [], []. rewrite app_nil_r. cbn.
    repeat split; auto.
  - intros H. apply bind_Ret in H. destruct H as [pts1 [Hstep Hloop]].
    apply line_step_cases in Hstep.
    destruct Hstep as [-> | [l [r [-> [Hv [Hl [Hr Hinv]]]]]]].
    + apply IH in Hloop. exact Hloop.
    + apply IH in Hloop.
      destruct Hloop as [la [ra [-> [Hlen [Fl [Fr Hs]]]]]].
      exists (l :: la), (ra ++ [r]).
      rewrite <- !app_assoc. cbn [app].
      repeat split.
      * cbn [length]. rewrite length_app. cbn [length]. lia.
      * now constructor.
      * apply Forall_app. split; [exact Fr | now repeat constructor].
      * intros Hai Hfin Hlp. specialize (Hs Hai).
        rewrite <- app_assoc in Hs. cbn [app] in Hs.
        apply Hs; [exact Hfin|].
        apply y_nonincreasing_snoc; [exact Hlp|].
        intros Hne. apply Forall_app in Hfin. destruct Hfin as [Flp Fla].
        apply qreal_ltb_false_leb.
        -- destruct (exists_last Hne) as [lp0 [a ->]].
           rewrite last_last. apply Forall_app in Flp.
           destruct Flp as [_ Fa]. now inversion Fa.
        -- now inversion Fla.
        -- now apply Hinv.
Qed.

Lemma line_loop_returns (s : UIState) (line : XYZTData) (y_off z_off : Q)
    (allow_invert : bool) (n : nat) :
  forall i pts,
    0 <= i ->
    i + Z.of_nat n <= Z.of_nat (length (getX line)) ->
    i + Z.of_nat n <= Z.of_nat (length (getY line)) ->
    i + Z.of_nat n <= Z.of_nat (length (getZ line)) ->
    exists pts', line_loop s line y_off z_off allow_invert n i pts = Ret pts'.
Proof.
  induction n as [|n IH]; intros i pts H0 Hx Hy Hz; cbn [line_loop].
  - eauto.
  - destruct (line_step_returns s line y_off z_off allow_invert i pts)
      as [pts1 ->]; [lia | lia | lia | lia |].
    cbn [bind]. apply IH; lia.
Qed.

Lemma line_points_return (s : UIState) (line : XYZTData) (y_off z_off : Q)
    (max_idx : Z) (allow_invert : bool) :
  max_idx < Z.of_nat (length (getX line)) ->
  max_idx < Z.of_nat (length (getY line)) ->
  max_idx < Z.of_nat (length (getZ line)) ->
  exists pts,
    line_points s line y_off z_off max_idx allow_invert = Ret pts.
Proof.
  intros Hx Hy Hz. unfold line_points. apply line_loop_returns; lia.
Qed.

(** With [allow_invert] false, the left points that [update_line_data]
    accepts have, in the order it accepts them, screen y values that never
    increase, whenever all of them are finite points. *)
Lemma line_points_finite_y_nonincreasing (s : UIState) (line : XYZTData)
    (y_off z_off : Q) (max_idx : Z) (left_points right_points : QPolygonF) :
  line_points s line y_off z_off max_idx false
  = Ret (left_points, right_points) ->
  Forall (fun p => is_finite p = true) left_points ->
  y_nonincreasing left_points.
Proof.
  unfold line_points. intros Hl Hfin.
  apply line_loop_adds in Hl.
  destruct Hl as [la [ra [Heq [_ [_ [_ Hs]]]]]].
  cbn [app] in *. injection Heq as -> _.
  apply Hs; [reflexivity | exact Hfin | constructor].
Qed.

(** The finite points of a polygon of [update_line_data] lie within the
    frame bounds widened by the margin. *)
Lemma update_line_data_finite_within_margin (s : UIState) (line : XYZTData)
    (y_off z_off : Q) (max_idx : Z) (allow_invert : bool) (pvd : QPolygonF) :
  0 <= fb_w s -> 0 <= fb_h s ->
  update_line_data s line y_off z_off max_idx allow_invert = Ret pvd ->
  Forall (fun p => is_finite p = true -> within_margin s p) pvd.
Proof.
  intros Hw Hh. unfold update_line_data, line_points. intros H.
  apply bind_Ret in H. destruct H as [pts [Hl H]]. injection H as <-.
  apply line_loop_adds in Hl.
  destruct Hl as [la [ra [-> [_ [Fl [Fr _]]]]]].
  cbn [fst snd app]. rewrite app_nil_r. apply Forall_app. split.
  - eapply Forall_impl; [|exact Fl]. intros p Hc Hf.
    now apply clip_region_within_margin.
  - eapply Forall_impl; [|exact Fr]. intros p Hc Hf.
    now apply clip_region_within_margin.
Qed.

(** *** Lead markers *)

(** One iteration of [update_leads] touches nothing but slot [i] of
    [lead_vertices], and that slot either keeps its point or, the lead
    having a valid status, takes a projected point of the clip region. *)
Lemma update_lead_effect (s s' : UIState) (lead_data : LeadData)
    (line : XYZTData) (i : Z) :
  update_lead s lead_data line i = Ret s' ->
  fb_w s' = fb_w s /\ fb_h s' = fb_h s
  /\ (forall j, (j =? 0) <> (i =? 0) ->
        get2 (lead_vertices (scene s')) j = get2 (lead_vertices (scene s)) j)
  /\ (get2 (lead_vertices (scene s')) i = get2 (lead_vertices (scene s)) i
      \/ (getStatus lead_data = true
          /\ QRectF_contains (clip_region s)
               (get2 (lead_vertices (scene s')) i) = true)).
Proof.
  unfold update_lead. destruct (getStatus lead_data) eqn:Est.
  - intros H. apply bind_Ret in H. destruct H as [idx [_ H]].
    apply bind_Ret in H. destruct H as [z [_ H]]. injection H as <-.
    cbn. split; [reflexivity|]. split; [reflexivity|]. split.
    + intros j Hj. unfold get2, set2.
      destruct (j =? 0), (i =? 0); cbn; congruence.
    + set (r := calib_frame_to_full_frame _ _ _ _ _).
      assert (Hg : get2 (set2 (lead_vertices (scene s)) i (snd r)) i = snd r)
        by (unfold get2, set2; destruct (i =? 0); reflexivity).
      rewrite Hg. unfold r.
      destruct (calib_frame_cases s (getDRel lead_data)
                  (- getYRel lead_data) (z + (122 # 100))
                  (get2 (lead_vertices (scene s)) i))
        as [-> | [-> Hc]]; cbn [snd].
      * now left.
      * right. now split.
  - intros [= <-]. repeat split; auto.
Qed.

(** On a trajectory of [TRAJECTORY_SIZE] samples [update_leads] does not
    fault. *)
Lemma update_leads_returns (s : UIState) (radar_state : RadarState)
    (line : XYZTData) :
  1 <= TRAJECTORY_SIZE ->
  TRAJECTORY_SIZE <= Z.of_nat (length (getX line)) ->
  TRAJECTORY_SIZE <= Z.of_nat (length (getZ line)) ->
  exists s', update_leads s radar_state line = Ret s'.
Proof.
  intros Hn Hx Hz.
  assert (Hone : forall s0 lead_data i,
             exists s1, update_lead s0 lead_data line i = Ret s1).
  { intros s0 lead_data i. unfold update_lead.
    destruct (getStatus lead_data); [|eauto].
    destruct (get_path_length_idx_returns line (getDRel lead_data) Hn Hx)
      as [idx [-> Hi]].
    cbn [bind].
    destruct (read_in_range (getZ line) idx) as [z ->]; [lia|].
    cbn [bind]. eauto. }
  unfold update_leads.
  destruct (Hone s (lead_of radar_state 0) 0) as [s1 ->]. cbn [bind].
  apply Hone.
Qed.

(** C8, as the code has it. After [update_leads], the marker of lead [i]
    either is the point it was before the call, or the lead's status is
    valid on this tick and the marker is a point of the clip region. A lead
    whose status is not valid therefore keeps the marker it had: the slot is
    not cleared. *)
Theorem update_leads_marker_kept_or_valid (s s' : UIState)
    (radar_state : RadarState) (line : XYZTData) (i : Z) :
  i = 0 \/ i = 1 ->
  update_leads s radar_state line = Ret s' ->
  get2 (lead_vertices (scene s')) i = get2 (lead_vertices (scene s)) i
  \/ (getStatus (lead_of radar_state i) = true
      /\ QRectF_contains (clip_region s)
           (get2 (lead_vertices (scene s')) i) = true).
Proof.
  intros Hi H. unfold update_leads in H.
  apply bind_Ret in H. destruct H as [s1 [H0 H1]].
  apply update_lead_effect in H0. destruct H0 as [Hw0 [Hh0 [Ho0 Hs0]]].
  apply update_lead_effect in H1. destruct H1 as [Hw1 [Hh1 [Ho1 Hs1]]].
  assert (Hclip : clip_region s1 = clip_region s)
    by (unfold clip_region; now rewrite Hw0, Hh0).
  destruct Hi as [-> | ->].
  - rewrite (Ho1 0) by (cbn; congruence). exact Hs0.
  - rewrite <- (Ho0 1) by (cbn; congruence).
    rewrite Hclip in Hs1. exact Hs1.
Qed.

(** *** Draw distance *)

Lemma fmin_Qmin (a b : Q) : (fmin a b == Qmin a b)%Q.
Proof.
  unfold fmin. destruct (Qltb b a) eqn:E.
  - apply Qltb_lt in E. rewrite Q.min_r; [reflexivity | now apply Qlt_le_weak].
  - apply Qltb_ge in E. rewrite Q.min_l; [reflexivity | exact E].
Qed.

Lemma clamp_between (v lo hi : Q) :
  (lo <= hi)%Q -> (clamp v lo hi == Qmin (Qmax v lo) hi)%Q.
Proof.
  intros Hlh. unfold clamp. destruct (Qltb v lo) eqn:E1.
  - apply Qltb_lt in E1.
    rewrite Q.max_r by now apply Qlt_le_weak.
    rewrite Q.min_l by exact Hlh. reflexivity.
  - apply Qltb_ge in E1. rewrite Q.max_l by exact E1.
    destruct (Qltb hi v) eqn:E2.
    + apply Qltb_lt in E2. rewrite Q.min_r; [reflexivity | now apply Qlt_le_weak].
    + apply Qltb_ge in E2. rewrite Q.min_l; [reflexivity | exact E2].
Qed.

(** Without the unlimited-length override, the first [max_distance] is at
    least [MIN_DRAW_DISTANCE]. *)
Lemma model_max_distance_limited (sc : UIScene) (plan_position : XYZTData)
    (d : Q) :
  (MIN_DRAW_DISTANCE <= MAX_DRAW_DISTANCE)%Q ->
  unlimited_road_ui_length sc = false ->
  model_max_distance sc plan_position = Ret d ->
  (MIN_DRAW_DISTANCE <= d <= MAX_DRAW_DISTANCE)%Q.
Proof.
  intros Hmm Hu H. unfold model_max_distance in H.
  apply bind_Ret in H. destruct H as [x [_ H]]. rewrite Hu in H.
  injection H as <-. rewrite clamp_between by exact Hmm.
  split.
  - apply Q.min_glb; [apply Q.le_max_r | exact Hmm].
  - apply Q.le_min_r.
Qed.

(** When lead one has a valid status and the [max_distance] computed
    before is not negative, [path_max_distance] is
    [leadDistance*2 - min(leadDistance*0.7, 10)] floored at 0 and capped by
    that [max_distance], and [path_max_idx] is computed from it. *)
Lemma path_max_distance_lead_clamp (s : UIState) (plan_position : XYZTData)
    (max_distance : Q) :
  getStatus (getLeadOne (radarState (sm s))) = true ->
  (0 <= max_distance)%Q ->
  let lead_one := getLeadOne (radarState (sm s)) in
  let d := path_max_distance lead_one max_distance in
  (d == Qmin (Qmax (lead_draw_distance (getDRel lead_one)) 0) max_distance)%Q
  /\ (0 <= d <= max_distance)%Q
  /\ path_max_idx s plan_position max_distance
     = get_path_length_idx plan_position d.
Proof.
  intros Hst Hmax lead_one d. fold lead_one in Hst.
  assert (Hd : (d == Qmin (Qmax (lead_draw_distance (getDRel lead_one)) 0)
                       max_distance)%Q).
  { unfold d, path_max_distance. rewrite Hst.
    rewrite clamp_between by exact Hmax.
    assert (E : (getDRel lead_one * 2
                 - fmin (getDRel lead_one * 2 * (35 # 100)) 10
                 == lead_draw_distance (getDRel lead_one))%Q).
    { unfold lead_draw_distance. rewrite fmin_Qmin.
      assert (E' : (getDRel lead_one * 2 * (35 # 100)
                    == getDRel lead_one * (7 # 10))%Q) by (field).
      rewrite E'. reflexivity. }
    rewrite E. reflexivity. }
  split; [exact Hd|]. split; [|reflexivity].
  rewrite Hd. split.
  - apply Q.min_glb; [apply Q.le_max_r | exact Hmax].
  - apply Q.le_min_r.
Qed.

(** *** Calibration *)

Lemma fill_vector3_malformed (l : list Q) (uninit : vec3) :
  length l <> 3%nat -> fill_vector3 l uninit = uninit.
Proof.
  intros H. unfold fill_vector3.
  destruct (Nat.eqb (length l) 3) eqn:E; [|reflexivity].
  apply Nat.eqb_eq in E. contradiction.
Qed.

Lemma update_panda_calibration (m : SubMaster) (sc : UIScene) :
  calibration_of (update_panda m sc) = calibration_of sc.
Proof.
  unfold update_panda.
  destruct (updated m "pandaStates").
  - destruct (pandaStates m) as [|first rest]; [reflexivity|].
    cbn. destruct (getPandaType first); reflexivity.
  - destruct (_ >? _); reflexivity.
Qed.

(** The blocks of [update_state] after the calibration block leave the
    calibration fields alone. *)
Lemma update_state_calibration_frame (s : UIState) (u1 u2 : vec3) :
  calibration_of (scene (update_state s u1 u2))
  = calibration_of
      (if updated (sm s) "liveCalibration"
       then update_calibration (liveCalibration (sm s)) u1 u2 (scene s)
       else scene s).
Proof.
  unfold update_state.
  set (sc0 := if updated (sm s) "liveCalibration" then _ else _).
  rewrite <- (update_panda_calibration (sm s) sc0).
  generalize (update_panda (sm s) sc0). intros sc1.
  repeat match goal with
         | |- context [if ?c then _ else _] => destruct c
         end; reflexivity.
Qed.

(** What the calibration block stores. On a fresh calibration message
    [update_state] overwrites both transforms whatever the sizes of the two
    lists: each Euler vector is the list when the list has three elements
    and is what the uninitialised vector holds otherwise (lemma
    [fill_vector3_malformed]). [calibration_wide_valid] is set exactly when
    the wide Euler list has three elements; [calibration_valid] is set
    exactly when the reported status is CALIBRATED. *)
Lemma update_state_calibration (s : UIState) (uninit_rpy uninit_wfde : vec3) :
  updated (sm s) "liveCalibration" = true ->
  let live_calib := liveCalibration (sm s) in
  let rpy := fill_vector3 (getRpyCalib live_calib) uninit_rpy in
  let wfde := fill_vector3 (getWideFromDeviceEuler live_calib) uninit_wfde in
  let sc' := scene (update_state s uninit_rpy uninit_wfde) in
  view_from_calib sc' = matmul3 view_from_device (euler2rot rpy)
  /\ view_from_wide_calib sc'
     = matmul3 (matmul3 view_from_device (euler2rot wfde)) (euler2rot rpy)
  /\ calibration_valid sc'
     = match getCalStatus live_calib with CALIBRATED => true | _ => false end
  /\ calibration_wide_valid sc'
     = Nat.eqb (length (getWideFromDeviceEuler live_calib)) 3.
Proof.
  intros Hup live_calib rpy wfde sc'.
  pose proof (update_state_calibration_frame s uninit_rpy uninit_wfde) as F.
  rewrite Hup in F. fold sc' in F.
  pose proof (f_equal (fun t => fst (fst (fst t))) F) as F1.
  pose proof (f_equal (fun t => snd (fst (fst t))) F) as F2.
  pose proof (f_equal (fun t => snd (fst t)) F) as F3.
  pose proof (f_equal snd F) as F4.
  cbv beta in F1, F2, F3. unfold calibration_of in F1, F2, F3, F4.
  cbn [fst snd] in F1, F2, F3, F4.
  rewrite F1, F2, F3, F4. repeat split; reflexivity.
Qed.

(** *** Status *)

(** C1, as the code has it. On a tick with [started] true and a fresh
    controlsState message, the status after [updateStatus] is the one the
    transition rule derives, unless the tick is a start edge or the first
    frame, where it is DISENGAGED. *)
Theorem updateStatus_fresh_controlsState (s : UIState) :
  started (scene s) = true ->
  updated (sm s) "controlsState" = true ->
  status (fst (updateStatus s))
  = if transition_tick s then STATUS_DISENGAGED
    else derived_status (controlsState (sm s))
           (always_on_lateral_active (scene s)).
Proof.
  intros Hst Hup. unfold updateStatus, transition_tick, derived_status.
  rewrite Hst, Hup. cbn [andb].
  destruct (getState (controlsState (sm s)));
    destruct (always_on_lateral_active (scene s));
    destruct (getEnabled (controlsState (sm s)));
    cbn; rewrite ?Hst; cbn;
    destruct (started_prev s); cbn;
    destruct (frame (sm s) =? 1); cbn; rewrite ?Hst; reflexivity.
Qed.

(** *** Brightness *)

Lemma updateBrightness_effect (d : Device) (pool : ThreadPool) (s : UIState) :
  let b := snd (computed_brightness d s) in
  let w' := updateBrightness d pool s in
  last_brightness (fst w')
  = (if dispatches d pool s then b else last_brightness d)
  /\ brightness_future (fst w')
     = (if dispatches d pool s then Some (next_task pool)
        else brightness_future d)
  /\ running (snd w')
     = running pool
       ++ (if dispatches d pool s then [(next_task pool, b)] else [])
  /\ set_brightness_calls (snd w')
     = set_brightness_calls pool ++ (if dispatches d pool s then [b] else [])
  /\ awake (fst w') = awake d
  /\ interactive_timeout (fst w') = interactive_timeout d
  /\ ignition_on (fst w') = ignition_on d.
Proof.
  unfold updateBrightness, dispatches.
  destruct (computed_brightness d s) as [filter' b]. cbn [snd fst last_brightness
    brightness_future awake interactive_timeout ignition_on].
  destruct (b =? last_brightness d); cbn [negb andb].
  - cbn. rewrite !app_nil_r. repeat split; reflexivity.
  - destruct (isRunning (brightness_future d) pool); cbn.
    + rewrite !app_nil_r. repeat split; reflexivity.
    + repeat split; reflexivity.
Qed.

Lemma setAwake_keeps (d : Device) (on : bool) :
  let d' := fst (setAwake d on) in
  interactive_timeout d' = interactive_timeout d
  /\ ignition_on d' = ignition_on d
  /\ last_brightness d' = last_brightness d
  /\ brightness_future d' = brightness_future d.
Proof.
  unfold setAwake. destruct (negb (Bool.eqb on (awake d)));
    cbn; repeat split; reflexivity.
Qed.

Lemma updateWakefulness_keeps_brightness (d : Device) (s : UIState) :
  last_brightness (fst (updateWakefulness d s)) = last_brightness d
  /\ brightness_future (fst (updateWakefulness d s)) = brightness_future d.
Proof.
  unfold updateWakefulness.
  destruct (negb (ignition (scene s)) && ignition_on d);
    [|destruct (0 <? _)];
    destruct (negb (screen_brightness (scene s) =? 0));
    match goal with
    | |- context [setAwake ?d0 ?on] =>
        destruct (setAwake_keeps d0 on) as [_ [_ [H1 H2]]];
        destruct (setAwake d0 on) as [d3 sig'] eqn:E
    end; cbn [fst] in *; rewrite H1, H2; split; reflexivity.
Qed.

Lemma single_flight_isRunning (d : Device) (pool : ThreadPool) :
  single_flight (d, pool) ->
  isRunning (brightness_future d) pool
  = negb (Nat.eqb (length (running pool)) 0).
Proof.
  intros [H | [id [v [H F]]]]; cbn [fst snd] in *.
  - unfold isRunning. rewrite H. now destruct (brightness_future d).
  - rewrite F. unfold isRunning. rewrite H. cbn. now rewrite Nat.eqb_refl.
Qed.

Lemma single_flight_length (w : Device * ThreadPool) :
  single_flight w -> (length (running (snd w)) <= 1)%nat.
Proof.
  intros [H | [id [v [H _]]]]; rewrite H; cbn; lia.
Qed.

Lemma single_flight_step (w : Device * ThreadPool) (e : Event) :
  single_flight w -> single_flight (step w e).
Proof.
  destruct w as [d pool]. intros Inv. destruct e as [s | id]; cbn [step fst snd].
  - unfold Device_update.
    pose proof (updateBrightness_effect d pool s) as B. cbv zeta in B.
    pose proof (single_flight_isRunning d pool Inv) as R.
    destruct (updateBrightness d pool s) as [d1 pool'].
    cbn [fst snd] in B. destruct B as [_ [Bf [Br _]]].
    pose proof (updateWakefulness_keeps_brightness d1 s) as [_ Wf].
    destruct (updateWakefulness d1 s) as [d2 sig]. cbn [fst snd] in *.
    unfold single_flight. cbn [fst snd]. rewrite Br, Wf, Bf.
    unfold dispatches. rewrite R.
    generalize (snd (computed_brightness d s)). intros b.
    destruct Inv as [H | [id [v [H F]]]]; cbn [fst snd] in H.
    + rewrite H. cbn [length Nat.eqb negb app]. rewrite andb_true_r.
      destruct (negb (b =? last_brightness d)); [right | left]; eauto.
    + cbn [fst] in F. rewrite H. cbn [length Nat.eqb negb app].
      rewrite andb_false_r. right. eauto.
  - unfold single_flight, task_finished. cbn [fst snd running].
    destruct Inv as [H | [id' [v [H F]]]]; cbn [fst snd] in *; rewrite H; cbn.
    + now left.
    + destruct (Nat.eqb id' id); cbn; [now left | right; eauto].
Qed.

Lemma single_flight_run (evs : list Event) :
  forall w, single_flight w -> single_flight (run w evs).
Proof.
  unfold run. induction evs as [|e evs IH]; intros w Inv; cbn [fold_left].
  - exact Inv.
  - apply IH. now apply single_flight_step.
Qed.

(** C2. In every run of ticks and returns of background calls that starts
    with no call in flight: at most one call of [Hardware::set_brightness]
    is ever in flight, and the handle reports running exactly while one is;
    [updateBrightness] starts a call exactly when the computed brightness
    differs from [last_brightness] and no call is in flight, and the call
    carries the computed brightness; [last_brightness] takes the computed
    brightness exactly when a call is started and keeps its value
    otherwise, so that a value dropped while a call is in flight still
    differs from it on the next tick. *)
Theorem updateBrightness_single_flight (d0 : Device) (evs : list Event)
    (s : UIState) :
  let w := run (d0, idle_pool) evs in
  let d := fst w in
  let pool := snd w in
  let b := snd (computed_brightness d s) in
  let in_flight := negb (Nat.eqb (length (running pool)) 0) in
  let dispatch := negb (b =? last_brightness d) && negb in_flight in
  let w' := updateBrightness d pool s in
  (length (running pool) <= 1)%nat
  /\ isRunning (brightness_future d) pool = in_flight
  /\ set_brightness_calls (snd w')
     = set_brightness_calls pool ++ (if dispatch then [b] else [])
  /\ running (snd w')
     = running pool ++ (if dispatch then [(next_task pool, b)] else [])
  /\ last_brightness (fst w') = (if dispatch then b else last_brightness d)
  /\ (length (running (snd w')) <= 1)%nat.
Proof.
  intros w d pool b in_flight dispatch w'.
  assert (Inv : single_flight w)
    by (apply single_flight_run; left; reflexivity).
  assert (Inv' : single_flight (d, pool)) by (subst d pool; now destruct w).
  pose proof (single_flight_isRunning d pool Inv') as R.
  pose proof (updateBrightness_effect d pool s) as B. cbv zeta in B.
  destruct B as [Bl [Bf [Br [Bc _]]]].
  assert (D : dispatches d pool s = dispatch)
    by (unfold dispatches, dispatch, in_flight, b; now rewrite R).
  rewrite D in Bl, Bf, Br, Bc.
  split; [exact (single_flight_length w Inv)|].
  split; [exact R|].
  split; [exact Bc|]. split; [exact Br|]. split; [exact Bl|].
  fold w' in Br. rewrite Br, length_app.
  pose proof (single_flight_length w Inv) as L. fold pool in L.
  unfold dispatch, in_flight. clearbody b.
  destruct (running pool) as [|t l]; cbn [length Nat.eqb negb] in *.
  - rewrite andb_true_r.
    destruct (negb (b =? last_brightness d)); cbn [length]; lia.
  - rewrite andb_false_r. cbn [length]. lia.
Qed.

(** *** Wakefulness *)

Lemma setAwake_no_timeout (d : Device) (on : bool) :
  timeouts_emitted (snd (setAwake d on)) = O.
Proof.
  unfold setAwake. now destruct (negb (Bool.eqb on (awake d))).
Qed.

Lemma timeouts_emitted_app (a b : list Signal) :
  timeouts_emitted (a ++ b) = (timeouts_emitted a + timeouts_emitted b)%nat.
Proof.
  unfold timeouts_emitted. now rewrite filter_app, length_app.
Qed.

(** The tick on which the ignition goes from on to off. *)
Lemma updateWakefulness_off_edge (d : Device) (s : UIState) :
  0 < UI_FREQ -> 30 * UI_FREQ < 2 ^ 31 ->
  ignition_on d = true -> ignition (scene s) = false ->
  interactive_timeout (fst (updateWakefulness d s)) = 30 * UI_FREQ
  /\ ignition_on (fst (updateWakefulness d s)) = false
  /\ timeouts_emitted (snd (updateWakefulness d s)) = O.
Proof.
  intros Hf Hmax Hon Hoff. unfold updateWakefulness.
  rewrite Hon, Hoff. cbn [negb andb orb].
  unfold resetInteractiveTimeout. cbn [ignition_on Z.eqb Pos.eqb].
  rewrite to_int_small by lia.
  destruct (negb (screen_brightness (scene s) =? 0));
    match goal with
    | |- context [setAwake ?d0 ?on] =>
        destruct (setAwake_keeps d0 on) as [H1 [H2 _]];
        pose proof (setAwake_no_timeout d0 on) as H3;
        destruct (setAwake d0 on) as [d3 sig'] eqn:E
    end; cbn [fst snd app] in *; rewrite H1, H2, H3; auto.
Qed.

(** A tick on which the ignition does not go from on to off. *)
Lemma updateWakefulness_no_edge (d : Device) (s : UIState) :
  negb (ignition (scene s)) && ignition_on d = false ->
  interactive_timeout (fst (updateWakefulness d s))
  = (if 0 <? interactive_timeout d
     then interactive_timeout d - 1 else interactive_timeout d)
  /\ ignition_on (fst (updateWakefulness d s)) = ignition (scene s)
  /\ timeouts_emitted (snd (updateWakefulness d s))
     = (if interactive_timeout d =? 1 then 1%nat else O).
Proof.
  intros Hne. unfold updateWakefulness. rewrite Hne.
  cbn [interactive_timeout].
  destruct (0 <? interactive_timeout d) eqn:Epos;
    destruct (negb (screen_brightness (scene s) =? 0));
    match goal with
    | |- context [setAwake ?d0 ?on] =>
        destruct (setAwake_keeps d0 on) as [H1 [H2 _]];
        pose proof (setAwake_no_timeout d0 on) as H3;
        destruct (setAwake d0 on) as [d3 sig'] eqn:E
    end; cbn [fst snd interactive_timeout ignition_on] in *;
    rewrite H1, H2, timeouts_emitted_app, H3;
    (split; [reflexivity|]); (split; [reflexivity|]);
    destruct (interactive_timeout d - 1 =? 0) eqn:E0;
    destruct (interactive_timeout d =? 1) eqn:E1;
    try reflexivity; lia.
Qed.

(** A run without ignition-off edge counts down to 0 and emits on the tick
    that reaches 0 only. *)
Lemma wake_run_countdown (ticks : list UIState) :
  forall d,
    0 <= interactive_timeout d ->
    no_ignition_off_edge (ignition_on d) ticks = true ->
    interactive_timeout (fst (wake_run d ticks))
    = Z.max 0 (interactive_timeout d - Z.of_nat (length ticks))
    /\ forall k sig,
         nth_error (snd (wake_run d ticks)) k = Some sig ->
         timeouts_emitted sig
         = (if Z.of_nat (S k) =? interactive_timeout d then 1%nat else O).
Proof.
  induction ticks as [|s ticks IH]; intros d Hpos Hne.
  - cbn. split; [lia|]. intros [|k] sig; discriminate.
  - cbn [no_ignition_off_edge] in Hne. apply andb_true_iff in Hne.
    destruct Hne as [Hs Hrest]. apply negb_true_iff in Hs.
    destruct (updateWakefulness_no_edge d s Hs) as [Ht [Hi He]].
    cbn [wake_run].
    destruct (updateWakefulness d s) as [d1 sig1]. cbn [fst snd] in Ht, Hi, He.
    specialize (IH d1). rewrite Hi in IH.
    destruct (wake_run d1 ticks) as [d2 sigs]. cbn [fst snd] in *.
    assert (Hpos1 : 0 <= interactive_timeout d1)
      by (rewrite Ht; destruct (0 <? interactive_timeout d) eqn:E;
          [apply Z.ltb_lt in E|]; lia).
    destruct (IH Hpos1 Hrest) as [IHt IHs]. split.
    + rewrite IHt, Ht. cbn [length].
      destruct (0 <? interactive_timeout d) eqn:E;
        [apply Z.ltb_lt in E | apply Z.ltb_ge in E]; lia.
    + intros [|k] sig Hk; cbn [nth_error] in Hk.
      * injection Hk as <-. rewrite He.
        change (Z.of_nat 1) with 1. now rewrite Z.eqb_sym.
      * rewrite (IHs k sig Hk), Ht.
        destruct (0 <? interactive_timeout d) eqn:E;
          destruct (Z.of_nat (S k) =? _) eqn:E1;
          destruct (Z.of_nat (S (S k)) =? _) eqn:E2;
          try reflexivity; Z_of_bool; lia.
Qed.

(** C3. When the ignition goes from on to off, the counter is
    [30 * UI_FREQ] right after that tick; over the following ticks, none of
    which is another ignition-off edge, it goes down by one per tick until
    it is 0, and [interactiveTimeout] is emitted once, on the tick that
    brings the counter to 0, and on no other tick. *)
Theorem updateWakefulness_ignition_off_countdown (d : Device) (s0 : UIState)
    (later : list UIState) :
  0 < UI_FREQ -> 30 * UI_FREQ < 2 ^ 31 ->
  ignition_on d = true -> ignition (scene s0) = false ->
  no_ignition_off_edge false later = true ->
  let d1 := fst (updateWakefulness d s0) in
  interactive_timeout d1 = 30 * UI_FREQ
  /\ timeouts_emitted (snd (updateWakefulness d s0)) = O
  /\ interactive_timeout (fst (wake_run d1 later))
     = Z.max 0 (30 * UI_FREQ - Z.of_nat (length later))
  /\ forall k sig,
       nth_error (snd (wake_run d1 later)) k = Some sig ->
       timeouts_emitted sig
       = (if Z.of_nat (S k) =? 30 * UI_FREQ then 1%nat else O).
Proof.
  intros Hf Hmax Hon Hoff Hne d1.
  destruct (updateWakefulness_off_edge d s0 Hf Hmax Hon Hoff) as [Ht [Hi He]].
  fold d1 in Ht, Hi.
  split; [exact Ht|]. split; [exact He|].
  destruct (wake_run_countdown later d1) as [Hc Hs].
  - rewrite Ht. lia.
  - rewrite Hi. exact Hne.
  - rewrite Ht in Hc, Hs. split; [exact Hc | exact Hs].
Qed.

(** ** Further properties of the functions above *)

(** *** Path length, continued *)

Lemma read_Ret_range {A : Type} (l : list A) (i : Z) (a : A) :
  read l i = Ret a -> 0 <= i < Z.of_nat (length l).
Proof.
  unfold read. destruct (i <? 0) eqn:E; [discriminate|].
  destruct (nth_error l (Z.to_nat i)) eqn:N; [|discriminate].
  intros _. apply Z.ltb_ge in E.
  assert (Z.to_nat i < length l)%nat
    by (apply nth_error_Some; congruence).
  lia.
Qed.

(** The loop entered at [i] with [max_idx = i - 1] stops at the end of the
    run of samples at or below the height. *)
Lemma path_length_loop_run (line_x : list Q) (path_height : Q) (n : nat) :
  forall i idx,
    path_length_loop line_x path_height n i (i - 1) = Ret idx ->
    i - 1 <= idx < i + Z.of_nat n
    /\ (forall j, i <= j <= idx ->
          exists x, read line_x j = Ret x /\ (x <= path_height)%Q)
    /\ (idx + 1 < i + Z.of_nat n ->
          exists x, read line_x (idx + 1) = Ret x /\ (path_height < x)%Q).
Proof.
  induction n as [|n IH]; intros i idx; cbn [path_length_loop].
  - intros [= <-]. split; [lia|]. split; [intros j Hj; lia | lia].
  - intros H. apply bind_Ret in H. destruct H as [x [Hx H]].
    destruct (Qle_bool x path_height) eqn:E.
    + replace i with (i + 1 - 1) in H at 2 by lia.
      apply IH in H. destruct H as [Hr [Hle Hgt]].
      split; [lia|]. split.
      * intros j Hj. destruct (Z.eq_dec j i) as [-> | Hne].
        -- exists x. split; [exact Hx | now apply Qle_bool_iff].
        -- apply Hle. lia.
      * intros Hlt. apply Hgt. lia.
    + injection H as <-. split; [lia|]. split; [intros j Hj; lia|].
      intros _. replace (i - 1 + 1) with i by lia.
      exists x. split; [exact Hx|].
      apply Qnot_le_lt. intros Hle. apply Qle_bool_iff in Hle. congruence.
Qed.

(** A greater height never gives a smaller index. *)
Lemma path_length_loop_monotone (line_x : list Q) (h h' : Q) (n : nat) :
  (h <= h')%Q ->
  forall i max_idx idx idx',
    0 <= max_idx < i ->
    path_length_loop line_x h n i max_idx = Ret idx ->
    path_length_loop line_x h' n i max_idx = Ret idx' ->
    idx <= idx'.
Proof.
  intros Hh. induction n as [|n IH]; intros i max_idx idx idx' Hm;
    cbn [path_length_loop].
  - intros [= <-] [= <-]. lia.
  - intros H H'. apply bind_Ret in H. destruct H as [x [Hx H]].
    rewrite Hx in H'. cbn [bind] in H'.
    destruct (Qle_bool x h) eqn:E.
    + assert (E' : Qle_bool x h' = true).
      { apply Qle_bool_iff. apply Qle_bool_iff in E.
        eapply Qle_trans; eauto. }
      rewrite E' in H'.
      apply (IH (i + 1) i idx idx'); [lia | exact H | exact H'].
    + injection H as <-. destruct (Qle_bool x h').
      * apply path_length_loop_below in H'; lia.
      * injection H' as <-. lia.
Qed.

(** X1. [get_path_length_idx] is monotone in the height: on a trajectory
    of [TRAJECTORY_SIZE] samples a greater height gives an index at least
    as great. *)
Theorem get_path_length_idx_monotone (line : XYZTData) (h h' : Q) :
  1 <= TRAJECTORY_SIZE ->
  TRAJECTORY_SIZE <= Z.of_nat (length (getX line)) ->
  (h <= h')%Q ->
  exists idx idx',
    get_path_length_idx line h = Ret idx
    /\ get_path_length_idx line h' = Ret idx'
    /\ idx <= idx'.
Proof.
  intros Hn Hx Hh.
  destruct (get_path_length_idx_returns line h Hn Hx) as [idx [Hr _]].
  destruct (get_path_length_idx_returns line h' Hn Hx) as [idx' [Hr' _]].
  exists idx, idx'. split; [exact Hr|]. split; [exact Hr'|].
  unfold get_path_length_idx in Hr, Hr'.
  eapply path_length_loop_monotone; [| | exact Hr | exact Hr']; [assumption | lia].
Qed.

(** X2. The index that [get_path_length_idx] returns ends the first run of
    samples at or below the height, counted from index 1: every sample from
    1 to the index is at or below the height, and the sample after the
    index, when there is one before [TRAJECTORY_SIZE], is above it. The
    sample at index 0 is never read. *)
Theorem get_path_length_idx_first_run (line : XYZTData) (path_height : Q)
    (idx : Z) :
  get_path_length_idx line path_height = Ret idx ->
  0 <= idx
  /\ (forall j, 1 <= j <= idx ->
        exists x, read (getX line) j = Ret x /\ (x <= path_height)%Q)
  /\ (idx + 1 < TRAJECTORY_SIZE ->
        exists x, read (getX line) (idx + 1) = Ret x /\ (path_height < x)%Q).
Proof.
  unfold get_path_length_idx. intros H.
  change 0 with (1 - 1) in H.
  apply path_length_loop_run in H. destruct H as [Hr [Hle Hgt]].
  split; [lia|]. split; [exact Hle|].
  intros Hlt. apply Hgt. lia.
Qed.

Lemma clamp_le_hi (v lo hi : Q) : (lo <= hi)%Q -> (clamp v lo hi <= hi)%Q.
Proof.
  intros H. rewrite clamp_between by exact H. apply Q.le_min_r.
Qed.

(** With a first [max_distance] that is not negative, [path_max_idx] is at
    most the index of [max_distance] itself. *)
Lemma path_max_idx_not_beyond_unclamped (s : UIState)
    (plan_position : XYZTData) (max_distance : Q) :
  1 <= TRAJECTORY_SIZE ->
  TRAJECTORY_SIZE <= Z.of_nat (length (getX plan_position)) ->
  (0 <= max_distance)%Q ->
  exists idx_lead idx_free,
    path_max_idx s plan_position max_distance = Ret idx_lead
    /\ get_path_length_idx plan_position max_distance = Ret idx_free
    /\ idx_lead <= idx_free.
Proof.
  intros Hn Hx Hmax. unfold path_max_idx.
  set (d := path_max_distance (getLeadOne (radarState (sm s))) max_distance).
  assert (Hd : (d <= max_distance)%Q).
  { unfold d, path_max_distance.
    destruct (getStatus (getLeadOne (radarState (sm s)))).
    - now apply clamp_le_hi.
    - apply Qle_refl. }
  destruct (get_path_length_idx_returns plan_position d Hn Hx) as [i [Hr _]].
  destruct (get_path_length_idx_returns plan_position max_distance Hn Hx)
    as [i' [Hr' _]].
  exists i, i'. split; [exact Hr|]. split; [exact Hr'|].
  unfold get_path_length_idx in Hr, Hr'.
  eapply path_length_loop_monotone; [| | exact Hr | exact Hr']; [assumption | lia].
Qed.


(** *** Line and polygon builder, continued *)

Lemma subseq_refl {A : Type} (l : list A) : subseq l l.
Proof.
  induction l; constructor; assumption.
Qed.

(** A valid sample is an accepted one. *)
Lemma sample_valid_accepted (s : UIState) (line : XYZTData) (y_off z_off : Q)
    (i : Z) :
  sample_valid s line y_off z_off i = true ->
  exists p, sample_points s line y_off z_off i = Some p.
Proof.
  unfold sample_valid, sample_points, lands_in_clip.
  destruct (read (getX line) i) as [x|]; [|discriminate].
  destruct (read (getY line) i) as [y|]; [|discriminate].
  destruct (read (getZ line) i) as [z|]; [|discriminate].
  destruct (Qltb x 0); [discriminate|]. cbv zeta. cbn [negb andb].
  destruct (QRectF_contains (clip_region s)
              (project_point s x (y - y_off) (z + z_off)));
    [|rewrite andb_false_r; discriminate].
  destruct (QRectF_contains (clip_region s)
              (project_point s x (y + y_off) (z + z_off)));
    [|rewrite !andb_false_r; discriminate].
  intros _. cbn [andb]. eauto.
Qed.

Lemma band_samples_count (s : UIState) (line : XYZTData) (y_off z_off : Q)
    (n : nat) :
  forall i,
    (valid_count_from s line y_off z_off n i
     <= length (band_samples s line y_off z_off n i))%nat.
Proof.
  induction n as [|n IH]; intros i; cbn [band_samples valid_count_from];
    [lia|].
  specialize (IH (i + 1)).
  destruct (sample_valid s line y_off z_off i) eqn:Ev.
  - destruct (sample_valid_accepted _ _ _ _ _ Ev) as [p ->]. cbn [length]. lia.
  - destruct (sample_points s line y_off z_off i); cbn [length]; lia.
Qed.

Lemma line_loop_pairs (s : UIState) (line : XYZTData) (y_off z_off : Q)
    (allow_invert : bool) (n : nat) :
  forall i lp rp pts',
    line_loop s line y_off z_off allow_invert n i (lp, rp) = Ret pts' ->
    exists accepted,
      subseq accepted (band_samples s line y_off z_off n i)
      /\ pts' = (lp ++ map fst accepted, rev (map snd accepted) ++ rp)
      /\ (allow_invert = true ->
          accepted = band_samples s line y_off z_off n i).
Proof.
  induction n as [|n IH]; intros i lp rp pts'; cbn [line_loop band_samples].
  - intros [= <-]. exists []. cbn. rewrite app_nil_r.
    repeat split; constructor.
  - intros H. apply bind_Ret in H. destruct H as [pts1 [Hstep Hloop]].
    apply line_step_sample in Hstep.
    destruct (sample_points s line y_off z_off i) as [[l r]|].
    + destruct (negb allow_invert && negb (Nat.eqb (length lp) 0)
                && qreal_ltb (py (last lp QPointF_null)) (py l)) eqn:Eskip;
        subst pts1; apply IH in Hloop;
        destruct Hloop as [acc [Hsub [-> Hall]]].
      * exists acc. split; [now constructor|]. split; [reflexivity|].
        intros ->. discriminate.
      * exists ((l, r) :: acc). split; [now constructor|]. split.
        -- cbn [map fst snd rev]. now rewrite <- !app_assoc.
        -- intros Hai. now rewrite (Hall Hai).
    + subst pts1. apply IH in Hloop. exact Hloop.
Qed.

(** X4. With inversion allowed the polygon of [update_line_data] is the
    left points of the accepted samples of the index range (x not negative,
    both projections passing the clip test), in index order, followed by
    their right points in reverse order. It has at least twice as many
    points as there are valid samples, those whose two projections are
    finite points of the clip region. *)
Theorem update_line_data_invertible_band (s : UIState) (line : XYZTData)
    (y_off z_off : Q) (max_idx : Z) :
  max_idx < Z.of_nat (length (getX line)) ->
  max_idx < Z.of_nat (length (getY line)) ->
  max_idx < Z.of_nat (length (getZ line)) ->
  let samples :=
    band_samples s line y_off z_off (Z.to_nat (max_idx + 1)) 0 in
  update_line_data s line y_off z_off max_idx true
  = Ret (map fst samples ++ rev (map snd samples))
  /\ (2 * valid_count s line y_off z_off max_idx
      <= length (map fst samples ++ rev (map snd samples)))%nat.
Proof.
  intros Hx Hy Hz samples.
  destruct (line_points_return s line y_off z_off max_idx true Hx Hy Hz)
    as [pts Hp].
  pose proof Hp as Hl. unfold line_points in Hl.
  apply line_loop_pairs in Hl. destruct Hl as [acc [_ [-> Hall]]].
  rewrite (Hall eq_refl) in Hp. fold samples in Hp.
  cbn [app] in Hp. rewrite app_nil_r in Hp. split.
  - unfold update_line_data. rewrite Hp. reflexivity.
  - rewrite length_app, length_rev, !length_map. unfold samples, valid_count.
    pose proof (band_samples_count s line y_off z_off
                  (Z.to_nat (max_idx + 1)) 0).
    lia.
Qed.

(** X5. With or without inversion, the points of the polygon come in pairs
    from the same samples: the polygon is the left points of a selection of
    the accepted samples, in index order, followed by the right points of
    the same selection in reverse order. *)
Theorem update_line_data_paired (s : UIState) (line : XYZTData)
    (y_off z_off : Q) (max_idx : Z) (allow_invert : bool) :
  max_idx < Z.of_nat (length (getX line)) ->
  max_idx < Z.of_nat (length (getY line)) ->
  max_idx < Z.of_nat (length (getZ line)) ->
  exists accepted,
    subseq accepted
      (band_samples s line y_off z_off (Z.to_nat (max_idx + 1)) 0)
    /\ update_line_data s line y_off z_off max_idx allow_invert
       = Ret (map fst accepted ++ rev (map snd accepted)).
Proof.
  intros Hx Hy Hz.
  destruct (line_points_return s line y_off z_off max_idx allow_invert
              Hx Hy Hz) as [pts Hp].
  pose proof Hp as Hl. unfold line_points in Hl.
  apply line_loop_pairs in Hl. destruct Hl as [acc [Hsub [-> _]]].
  exists acc. split; [exact Hsub|].
  unfold update_line_data. rewrite Hp. cbn [bind fst snd app].
  now rewrite app_nil_r.
Qed.


(** *** Scene model updater, continued *)

Lemma update_line_data_in_clip (s : UIState) (line : XYZTData)
    (y_off z_off : Q) (max_idx : Z) (allow_invert : bool) (pvd : QPolygonF) :
  update_line_data s line y_off z_off max_idx allow_invert = Ret pvd ->
  Forall (in_clip s) pvd.
Proof.
  unfold update_line_data, line_points. intros H.
  apply bind_Ret in H. destruct H as [pts [Hl H]]. injection H as <-.
  apply line_loop_adds in Hl.
  destruct Hl as [la [ra [-> [_ [Fl [Fr _]]]]]].
  cbn [fst snd app]. rewrite app_nil_r. apply Forall_app. now split.
Qed.

Lemma write_nat_prefix {A : Type} (P : A -> Prop) (v : A) :
  forall (l l' : list A) (k : nat),
    write_nat l k v = Ret l' ->
    P v -> Forall P (firstn k l) ->
    length l' = length l /\ Forall P (firstn (S k) l').
Proof.
  induction l as [|a l IH]; intros l' k H Hv Hp; cbn [write_nat] in H.
  - destruct k; discriminate.
  - destruct k as [|k].
    + injection H as <-. cbn. split; [reflexivity|]. now repeat constructor.
    + apply bind_Ret in H. destruct H as [l'' [Hw H]]. injection H as <-.
      cbn [firstn] in Hp. inversion Hp as [|? ? Ha Hrest]; subst.
      destruct (IH l'' k Hw Hv Hrest) as [Hlen Hf].
      split; [cbn; now rewrite Hlen|].
      change (firstn (S (S k)) (a :: l'')) with (a :: firstn (S k) l'').
      now constructor.
Qed.

Lemma write_prefix {A : Type} (P : A -> Prop) (v : A) (l l' : list A)
    (k : nat) :
  write l (Z.of_nat k) v = Ret l' ->
  P v -> Forall P (firstn k l) ->
  length l' = length l /\ Forall P (firstn (S k) l').
Proof.
  unfold write. destruct (Z.of_nat k <? 0) eqn:E; [discriminate|].
  rewrite Nat2Z.id. apply write_nat_prefix.
Qed.

Lemma clip_region_set_scene (sc : UIScene) (s : UIState) :
  clip_region (set_scene sc s) = clip_region s.
Proof. reflexivity. Qed.

(** The loop over the lane lines assigns [lane_line_probs] and
    [lane_line_vertices] and nothing else; the points of the polygons it
    has stored pass the clip test. *)
Lemma lane_lines_loop_effect (model : ModelDataV2) (max_idx : Z) (n : nat) :
  forall (k : nat) (s s' : UIState),
    lane_lines_loop model max_idx n (Z.of_nat k) s = Ret s' ->
    Forall (Forall (in_clip s)) (firstn k (lane_line_vertices (scene s))) ->
    exists probs verts,
      s' = set_scene (set_lane_line_vertices verts
                        (set_lane_line_probs probs (scene s))) s
      /\ length verts = length (lane_line_vertices (scene s))
      /\ Forall (Forall (in_clip s)) (firstn (k + n) verts).
Proof.
  induction n as [|n IH]; intros k s s' H Hp; cbn [lane_lines_loop] in H.
  - injection H as <-.
    exists (lane_line_probs (scene s)), (lane_line_vertices (scene s)).
    split; [now destruct s|]. split; [reflexivity|].
    now rewrite Nat.add_0_r.
  - apply bind_Ret in H. destruct H as [p [_ H]].
    apply bind_Ret in H. destruct H as [probs [_ H]]. cbv zeta in H.
    apply bind_Ret in H. destruct H as [line [_ H]].
    apply bind_Ret in H. destruct H as [prob [_ H]].
    apply bind_Ret in H. destruct H as [pvd [Hpvd H]].
    apply bind_Ret in H. destruct H as [verts [Hw H]].
    apply update_line_data_in_clip in Hpvd.
    cbn [scene set_scene] in Hw.
    change (lane_line_vertices (set_lane_line_probs probs (scene s)))
      with (lane_line_vertices (scene s)) in Hw.
    destruct (write_prefix (Forall (in_clip s)) pvd _ _ k Hw Hpvd Hp)
      as [Hlen Hf].
    replace (Z.of_nat k + 1) with (Z.of_nat (S k)) in H by lia.
    apply IH in H; [|exact Hf].
    destruct H as [probs' [verts' [-> [Hlen' Hf']]]].
    exists probs', verts'. split; [reflexivity|].
    split; [change (length verts' = length verts) in Hlen';
            rewrite Hlen'; exact Hlen|].
    now rewrite <- Nat.add_succ_comm.
Qed.

Lemma road_edges_loop_effect (model : ModelDataV2) (max_idx : Z) (n : nat) :
  forall (k : nat) (s s' : UIState),
    road_edges_loop model max_idx n (Z.of_nat k) s = Ret s' ->
    Forall (Forall (in_clip s)) (firstn k (road_edge_vertices (scene s))) ->
    exists stds verts,
      s' = set_scene (set_road_edge_vertices verts
                        (set_road_edge_stds stds (scene s))) s
      /\ length verts = length (road_edge_vertices (scene s))
      /\ Forall (Forall (in_clip s)) (firstn (k + n) verts).
Proof.
  induction n as [|n IH]; intros k s s' H Hp; cbn [road_edges_loop] in H.
  - injection H as <-.
    exists (road_edge_stds (scene s)), (road_edge_vertices (scene s)).
    split; [now destruct s|]. split; [reflexivity|].
    now rewrite Nat.add_0_r.
  - apply bind_Ret in H. destruct H as [e [_ H]].
    apply bind_Ret in H. destruct H as [stds [_ H]]. cbv zeta in H.
    apply bind_Ret in H. destruct H as [line [_ H]].
    apply bind_Ret in H. destruct H as [pvd [Hpvd H]].
    apply bind_Ret in H. destruct H as [verts [Hw H]].
    apply update_line_data_in_clip in Hpvd.
    cbn [scene set_scene] in Hw.
    change (road_edge_vertices (set_road_edge_stds stds (scene s)))
      with (road_edge_vertices (scene s)) in Hw.
    destruct (write_prefix (Forall (in_clip s)) pvd _ _ k Hw Hpvd Hp)
      as [Hlen Hf].
    replace (Z.of_nat k + 1) with (Z.of_nat (S k)) in H by lia.
    apply IH in H; [|exact Hf].
    destruct H as [stds' [verts' [-> [Hlen' Hf']]]].
    exists stds', verts'. split; [reflexivity|].
    split; [change (length verts' = length verts) in Hlen';
            rewrite Hlen'; exact Hlen|].
    now rewrite <- Nat.add_succ_comm.
Qed.


(** What a call of [update_model] that reads within its lists does: it
    assigns the eight geometry fields of the scene and nothing else, and
    every point of every polygon it stores passes the clip test. *)
Lemma update_model_effect (s s' : UIState) (model : ModelDataV2)
    (plan : UiPlan) :
  update_model s model plan = Ret s' ->
  exists probs stds lane_lines road_edges track track_edge adj_left adj_right,
    s' = set_scene
           (with_model_geometry probs stds lane_lines road_edges track
              track_edge adj_left adj_right (scene s)) s
    /\ length lane_lines = length (lane_line_vertices (scene s))
    /\ length road_edges = length (road_edge_vertices (scene s))
    /\ Forall (Forall (in_clip s)) lane_lines
    /\ Forall (Forall (in_clip s)) road_edges
    /\ Forall (in_clip s) track
    /\ Forall (in_clip s) track_edge
    /\ Forall (in_clip s) adj_left
    /\ Forall (in_clip s) adj_right.
Proof.
  unfold update_model. intros H.
  apply bind_Ret in H. destruct H as [max_distance [_ H]].
  apply bind_Ret in H. destruct H as [lane_line0 [_ H]].
  apply bind_Ret in H. destruct H as [max_idx [_ H]].
  apply bind_Ret in H. destruct H as [s1 [H1 H]].
  apply bind_Ret in H. destruct H as [s2 [H2 H]].
  apply bind_Ret in H. destruct H as [max_idx' [_ H]]. cbv zeta in H.
  apply bind_Ret in H. destruct H as [track [Ht H]].
  apply bind_Ret in H. destruct H as [track_edge [Hte H]].
  apply bind_Ret in H. destruct H as [lane_line4 [_ H]].
  apply bind_Ret in H. destruct H as [adj_left [Hal H]].
  apply bind_Ret in H. destruct H as [lane_line5 [_ H]].
  apply bind_Ret in H. destruct H as [adj_right [Har H]].
  injection H as <-.
  apply (lane_lines_loop_effect model max_idx _ O) in H1; [|constructor].
  destruct H1 as [probs [lane_lines [-> [Hll Fll]]]].
  apply (road_edges_loop_effect model max_idx _ O) in H2; [|constructor].
  destruct H2 as [stds [road_edges [-> [Hre Fre]]]].
  apply update_line_data_in_clip in Ht, Hte, Hal, Har.
  cbn [Nat.add] in Fll, Fre.
  change (length road_edges = length (road_edge_vertices (scene s))) in Hre.
  rewrite <- Hll in Fll. rewrite firstn_all in Fll.
  change (Forall (Forall (in_clip s))
            (firstn (length (road_edge_vertices (scene s))) road_edges))
    in Fre.
  rewrite <- Hre in Fre. rewrite firstn_all in Fre.
  exists probs, stds, lane_lines, road_edges, track, track_edge,
    adj_left, adj_right.
  split; [reflexivity|]. repeat split; assumption.
Qed.

(** X6. [update_model] changes nothing but the eight geometry fields of the
    scene: the messages, the status, the frame size, the screen transform
    and the start flag are as before, and so is every other field of the
    scene, among them the calibration and the lead markers. The two arrays
    of polygons keep their sizes. *)
Theorem update_model_frame (s s' : UIState) (model : ModelDataV2)
    (plan : UiPlan) :
  update_model s model plan = Ret s' ->
  s' = set_scene
         (with_model_geometry
            (lane_line_probs (scene s')) (road_edge_stds (scene s'))
            (lane_line_vertices (scene s')) (road_edge_vertices (scene s'))
            (track_vertices (scene s')) (track_edge_vertices (scene s'))
            (track_left_adjacent_lane_vertices (scene s'))
            (track_right_adjacent_lane_vertices (scene s'))
            (scene s)) s
  /\ calibration_of (scene s') = calibration_of (scene s)
  /\ lead_vertices (scene s') = lead_vertices (scene s)
  /\ length (lane_line_vertices (scene s'))
     = length (lane_line_vertices (scene s))
  /\ length (road_edge_vertices (scene s'))
     = length (road_edge_vertices (scene s)).
Proof.
  intros H. apply update_model_effect in H.
  destruct H as [probs [stds [ll [re [t [te [al [ar [-> [Hll [Hre _]]]]]]]]]]].
  repeat split; try reflexivity; assumption.
Qed.

(** X7. Every point of every polygon that [update_model] leaves in the
    scene, the lane lines, the road edges, the path, its edge and the two
    adjacent lanes, passes the clip test: [QRectF::contains] of the clip
    region holds of it. By lemma [in_clip_coordinates] none of its
    coordinates is an infinity or a number outside the margin; a NaN
    coordinate passes. *)
Theorem update_model_polygons_in_clip (s s' : UIState) (model : ModelDataV2)
    (plan : UiPlan) :
  update_model s model plan = Ret s' ->
  Forall (Forall (in_clip s)) (lane_line_vertices (scene s'))
  /\ Forall (Forall (in_clip s)) (road_edge_vertices (scene s'))
  /\ Forall (in_clip s) (track_vertices (scene s'))
  /\ Forall (in_clip s) (track_edge_vertices (scene s'))
  /\ Forall (in_clip s) (track_left_adjacent_lane_vertices (scene s'))
  /\ Forall (in_clip s) (track_right_adjacent_lane_vertices (scene s')).
Proof.
  intros H. apply update_model_effect in H.
  destruct H as [probs [stds [ll [re [t [te [al [ar [-> H]]]]]]]]].
  destruct H as [_ [_ [Fll [Fre [Ft [Fte [Fal Far]]]]]]].
  repeat split; assumption.
Qed.

(** The polygons that [update_line_data] builds depend on the UI state
    through the projection only. *)
Lemma update_line_data_same_projection (s1 s2 : UIState) (line : XYZTData)
    (y_off z_off : Q) (max_idx : Z) (allow_invert : bool) :
  same_projection s1 s2 ->
  update_line_data s1 line y_off z_off max_idx allow_invert
  = update_line_data s2 line y_off z_off max_idx allow_invert.
Proof.
  intros [Hw [Hh [Hc [Hv [Hvw Ht]]]]].
  assert (Hp : forall x y z, project_point s1 x y z = project_point s2 x y z).
  { intros x y z. unfold project_point. now rewrite Hc, Hv, Hvw, Ht. }
  assert (Hr : clip_region s1 = clip_region s2)
    by (unfold clip_region; now rewrite Hw, Hh).
  assert (Hf : forall x y z out,
             calib_frame_to_full_frame s1 x y z out
             = calib_frame_to_full_frame s2 x y z out).
  { intros x y z out. unfold calib_frame_to_full_frame. now rewrite Hp, Hr. }
  assert (Hs : forall i pts,
             line_step s1 line y_off z_off allow_invert i pts
             = line_step s2 line y_off z_off allow_invert i pts).
  { intros i [lp rp]. unfold line_step.
    destruct (read (getX line) i) as [x|]; [|reflexivity]. cbn [bind].
    destruct (Qltb x 0); [reflexivity|].
    destruct (read (getY line) i) as [y|]; [|reflexivity]. cbn [bind].
    destruct (read (getZ line) i) as [z|]; [|reflexivity]. cbn [bind].
    now rewrite !Hf. }
  assert (Hl : forall n i pts,
             line_loop s1 line y_off z_off allow_invert n i pts
             = line_loop s2 line y_off z_off allow_invert n i pts).
  { induction n as [|n IH]; intros i pts; cbn [line_loop]; [reflexivity|].
    rewrite Hs. destruct (line_step s2 line y_off z_off allow_invert i pts);
      cbn [bind]; [apply IH | reflexivity]. }
  unfold update_line_data, line_points. now rewrite Hl.
Qed.

(** The height enters [get_path_length_idx] through comparisons only. *)
Lemma path_length_loop_Qeq (line_x : list Q) (h h' : Q) (n : nat) :
  (h == h')%Q ->
  forall i max_idx,
    path_length_loop line_x h n i max_idx
    = path_length_loop line_x h' n i max_idx.
Proof.
  intros Hh.
  induction n as [|n IH]; intros i max_idx; cbn [path_length_loop];
    [reflexivity|].
  destruct (read line_x i) as [x|]; [|reflexivity]. cbn [bind].
  assert (E : Qle_bool x h = Qle_bool x h').
  { destruct (Qle_bool x h) eqn:E1, (Qle_bool x h') eqn:E2; try reflexivity.
    - apply Qle_bool_iff in E1. rewrite Hh in E1.
      apply Qle_bool_iff in E1. congruence.
    - apply Qle_bool_iff in E2. rewrite <- Hh in E2.
      apply Qle_bool_iff in E2. congruence. }
  rewrite E. destruct (Qle_bool x h'); [apply IH | reflexivity].
Qed.

Lemma get_path_length_idx_Qeq (line : XYZTData) (h h' : Q) :
  (h == h')%Q -> get_path_length_idx line h = get_path_length_idx line h'.
Proof.
  intros Hh. unfold get_path_length_idx. now apply path_length_loop_Qeq.
Qed.

(** The path of [update_model]: the two path polygons it stores are those
    [update_line_data] builds, without inversion, up to the index that
    [path_max_idx] gives for the draw distance of [model_max_distance]. *)
Lemma update_model_path (s s' : UIState) (model : ModelDataV2)
    (plan : UiPlan) :
  update_model s model plan = Ret s' ->
  exists max_distance max_idx,
    model_max_distance (scene s) (select_plan_position model plan)
    = Ret max_distance
    /\ path_max_idx s (select_plan_position model plan) max_distance
       = Ret max_idx
    /\ update_line_data s (select_plan_position model plan)
         (if custom_road_ui (scene s)
          then path_width (scene s) * (1 - path_edge_width (scene s) / 100)
          else 9 # 10)%Q
         (122 # 100)%Q max_idx false
       = Ret (track_vertices (scene s'))
    /\ update_line_data s (select_plan_position model plan)
         (if custom_road_ui (scene s) then path_width (scene s) else 0)%Q
         (122 # 100)%Q max_idx false
       = Ret (track_edge_vertices (scene s')).
Proof.
  unfold update_model. intros H.
  apply bind_Ret in H. destruct H as [max_distance [Hd H]].
  apply bind_Ret in H. destruct H as [lane_line0 [_ H]].
  apply bind_Ret in H. destruct H as [max_idx [_ H]].
  apply bind_Ret in H. destruct H as [s1 [H1 H]].
  apply bind_Ret in H. destruct H as [s2 [H2 H]].
  apply bind_Ret in H. destruct H as [max_idx' [Hi H]]. cbv zeta in H.
  apply bind_Ret in H. destruct H as [track [Ht H]].
  apply bind_Ret in H. destruct H as [track_edge [Hte H]].
  apply bind_Ret in H. destruct H as [lane_line4 [_ H]].
  apply bind_Ret in H. destruct H as [adj_left [_ H]].
  apply bind_Ret in H. destruct H as [lane_line5 [_ H]].
  apply bind_Ret in H. destruct H as [adj_right [_ H]].
  injection H as <-.
  apply (lane_lines_loop_effect model max_idx _ O) in H1; [|constructor].
  destruct H1 as [probs [lane_lines [-> _]]].
  apply (road_edges_loop_effect model max_idx _ O) in H2; [|constructor].
  destruct H2 as [stds [road_edges [-> _]]].
  exists max_distance, max_idx'.
  split; [exact Hd|]. split; [exact Hi|]. split.
  - etransitivity; [|exact Ht].
    apply update_line_data_same_projection. repeat split.
  - etransitivity; [|exact Hte].
    apply update_line_data_same_projection. repeat split.
Qed.

(** C4, as the code has it. When lead one has a valid status and the
    [max_distance] that [update_model] computed first is not negative, the
    two path polygons that [update_model] stores are drawn up to the index
    of the distance [leadDistance*2 - min(leadDistance*0.7, 10)] floored at
    0 and capped by that [max_distance]. *)
Theorem update_model_lead_clamp (s s' : UIState) (model : ModelDataV2)
    (plan : UiPlan) (max_distance : Q) :
  update_model s model plan = Ret s' ->
  getStatus (getLeadOne (radarState (sm s))) = true ->
  model_max_distance (scene s) (select_plan_position model plan)
  = Ret max_distance ->
  (0 <= max_distance)%Q ->
  let plan_position := select_plan_position model plan in
  let lead_one := getLeadOne (radarState (sm s)) in
  let d := Qmin (Qmax (lead_draw_distance (getDRel lead_one)) 0)
             max_distance in
  (0 <= d <= max_distance)%Q
  /\ exists max_idx,
       get_path_length_idx plan_position d = Ret max_idx
       /\ update_line_data s plan_position
            (if custom_road_ui (scene s)
             then path_width (scene s) * (1 - path_edge_width (scene s) / 100)
             else 9 # 10)%Q
            (122 # 100)%Q max_idx false
          = Ret (track_vertices (scene s'))
       /\ update_line_data s plan_position
            (if custom_road_ui (scene s) then path_width (scene s) else 0)%Q
            (122 # 100)%Q max_idx false
          = Ret (track_edge_vertices (scene s')).
Proof.
  intros H Hst Hd Hmax plan_position lead_one d.
  apply update_model_path in H.
  destruct H as [max_distance0 [max_idx [Hd0 [Hi [Ht Hte]]]]].
  rewrite Hd in Hd0. injection Hd0 as <-.
  destruct (path_max_distance_lead_clamp s plan_position max_distance
              Hst Hmax) as [Heq [Hr Hidx]].
  fold lead_one in Heq, Hr, Hidx. fold d in Heq.
  split.
  - rewrite <- Heq. exact Hr.
  - exists max_idx. split; [|split; assumption].
    rewrite <- (get_path_length_idx_Qeq plan_position _ _ Heq).
    rewrite <- Hidx. exact Hi.
Qed.

(** X3. A tracked lead never lengthens the drawn path: when the
    [max_distance] that [update_model] computed first is not negative, the
    two path polygons that [update_model] stores are drawn up to an index
    that is at most the index of [max_distance] itself. *)
Theorem update_model_path_not_lengthened (s s' : UIState)
    (model : ModelDataV2) (plan : UiPlan) (max_distance : Q) :
  update_model s model plan = Ret s' ->
  model_max_distance (scene s) (select_plan_position model plan)
  = Ret max_distance ->
  (0 <= max_distance)%Q ->
  let plan_position := select_plan_position model plan in
  exists idx_path idx_free,
    get_path_length_idx plan_position max_distance = Ret idx_free
    /\ idx_path <= idx_free
    /\ update_line_data s plan_position
         (if custom_road_ui (scene s)
          then path_width (scene s) * (1 - path_edge_width (scene s) / 100)
          else 9 # 10)%Q
         (122 # 100)%Q idx_path false
       = Ret (track_vertices (scene s'))
    /\ update_line_data s plan_position
         (if custom_road_ui (scene s) then path_width (scene s) else 0)%Q
         (122 # 100)%Q idx_path false
       = Ret (track_edge_vertices (scene s')).
Proof.
  intros H Hd Hmax plan_position. subst plan_position.
  set (plan_position := select_plan_position model plan) in *.
  apply update_model_path in H. fold plan_position in H.
  destruct H as [max_distance0 [max_idx [Hd0 [Hi [Ht Hte]]]]].
  rewrite Hd in Hd0. injection Hd0 as <-.
  assert (Hsize : 1 <= TRAJECTORY_SIZE
                  <= Z.of_nat (length (getX plan_position))).
  { unfold model_max_distance in Hd. apply bind_Ret in Hd.
    destruct Hd as [x [Hx _]]. apply read_Ret_range in Hx. lia. }
  destruct (path_max_idx_not_beyond_unclamped s plan_position max_distance)
    as [idx_lead [idx_free [Hl [Hf Hle]]]]; [lia | lia | exact Hmax |].
  rewrite Hi in Hl. injection Hl as <-.
  exists max_idx, idx_free. repeat split; assumption.
Qed.

(** X8. [update_model] reads lane lines 0, 4 and 5 and the last sample of
    the chosen trajectory: it comes back without a read past the end of a
    list only for a model with at least six lane lines and a chosen
    trajectory of at least [TRAJECTORY_SIZE] samples, [TRAJECTORY_SIZE]
    being at least 1. *)
Theorem update_model_reads (s s' : UIState) (model : ModelDataV2)
    (plan : UiPlan) :
  update_model s model plan = Ret s' ->
  (6 <= length (getLaneLines model))%nat
  /\ 1 <= TRAJECTORY_SIZE
     <= Z.of_nat (length (getX (select_plan_position model plan))).
Proof.
  unfold update_model, model_max_distance. intros H.
  apply bind_Ret in H. destruct H as [max_distance [Hd H]].
  apply bind_Ret in Hd. destruct Hd as [x [Hx _]].
  apply bind_Ret in H. destruct H as [lane_line0 [_ H]].
  apply bind_Ret in H. destruct H as [max_idx [_ H]].
  apply bind_Ret in H. destruct H as [s1 [_ H]].
  apply bind_Ret in H. destruct H as [s2 [_ H]].
  apply bind_Ret in H. destruct H as [max_idx' [_ H]]. cbv zeta in H.
  apply bind_Ret in H. destruct H as [track [_ H]].
  apply bind_Ret in H. destruct H as [track_edge [_ H]].
  apply bind_Ret in H. destruct H as [lane_line4 [_ H]].
  apply bind_Ret in H. destruct H as [adj_left [_ H]].
  apply bind_Ret in H. destruct H as [lane_line5 [H5 _]].
  apply read_Ret_range in Hx, H5. lia.
Qed.


Lemma write_nat_in_range {A : Type} (v : A) :
  forall (l : list A) (k : nat),
    (k < length l)%nat ->
    exists l',
      write_nat l k v = Ret l'
      /\ length l' = length l
      /\ nth_error l' k = Some v.
Proof.
  induction l as [|a l IH]; intros k Hk; cbn [length] in Hk; [lia|].
  destruct k as [|k]; cbn [write_nat].
  - exists (v :: l). repeat split; reflexivity.
  - destruct (IH k) as [l' [-> [Hlen Hn]]]; [lia|]. cbn [bind].
    exists (a :: l'). repeat split; [cbn; now rewrite Hlen | exact Hn].
Qed.

Lemma write_in_range {A : Type} (l : list A) (k : nat) (v : A) :
  (k < length l)%nat ->
  exists l',
    write l (Z.of_nat k) v = Ret l'
    /\ length l' = length l
    /\ read l' (Z.of_nat k) = Ret v.
Proof.
  intros Hk. unfold write, read.
  destruct (Z.of_nat k <? 0) eqn:E; [apply Z.ltb_lt in E; lia|].
  rewrite Nat2Z.id.
  destruct (write_nat_in_range v l k Hk) as [l' [Hw [Hlen Hn]]].
  exists l'. rewrite Hw, Hn. repeat split; assumption.
Qed.

Lemma read_Forall {A : Type} (P : A -> Prop) (l : list A) (i : Z) (a : A) :
  Forall P l -> read l i = Ret a -> P a.
Proof.
  intros HF H. unfold read in H. destruct (i <? 0); [discriminate|].
  destruct (nth_error l (Z.to_nat i)) eqn:N; [|discriminate].
  injection H as <-. rewrite Forall_forall in HF. apply HF.
  eapply nth_error_In; eauto.
Qed.

Lemma update_line_data_returns (s : UIState) (line : XYZTData)
    (y_off z_off : Q) (max_idx : Z) (allow_invert : bool) :
  full_line line -> max_idx < TRAJECTORY_SIZE ->
  exists pvd, update_line_data s line y_off z_off max_idx allow_invert = Ret pvd.
Proof.
  intros [Hx [Hy Hz]] Hm.
  destruct (line_points_return s line y_off z_off max_idx allow_invert)
    as [pts Hp]; [lia | lia | lia |].
  unfold update_line_data. rewrite Hp. cbn [bind]. eauto.
Qed.

Lemma lane_lines_loop_returns (model : ModelDataV2) (max_idx : Z) (n : nat) :
  max_idx < TRAJECTORY_SIZE ->
  Forall full_line (getLaneLines model) ->
  forall (k : nat) (s : UIState),
    (k + n <= length (getLaneLines model))%nat ->
    (k + n <= length (getLaneLineProbs model))%nat ->
    (k + n <= length (lane_line_probs (scene s)))%nat ->
    (k + n <= length (lane_line_vertices (scene s)))%nat ->
    exists s', lane_lines_loop model max_idx n (Z.of_nat k) s = Ret s'.
Proof.
  intros Hm Hfull. induction n as [|n IH]; intros k s H1 H2 H3 H4;
    cbn [lane_lines_loop]; [eauto|].
  destruct (read_in_range (getLaneLineProbs model) (Z.of_nat k))
    as [p ->]; [lia|]. cbn [bind].
  destruct (write_in_range (lane_line_probs (scene s)) k p)
    as [probs [-> [Hlp Hrp]]]; [lia|]. cbn [bind]. cbv zeta.
  destruct (read_in_range (getLaneLines model) (Z.of_nat k))
    as [line Hline]; [lia|]. rewrite Hline. cbn [bind].
  change (lane_line_probs (scene (set_scene (set_lane_line_probs probs
            (scene s)) s))) with probs.
  rewrite Hrp. cbn [bind].
  pose proof (read_Forall _ _ _ _ Hfull Hline) as Hfl.
  match goal with
  | |- context [update_line_data ?s0 line ?y ?z max_idx true] =>
      destruct (update_line_data_returns s0 line y z max_idx true Hfl Hm)
        as [pvd ->]
  end. cbn [bind].
  change (lane_line_vertices (scene (set_scene (set_lane_line_probs probs
            (scene s)) s))) with (lane_line_vertices (scene s)).
  destruct (write_in_range (lane_line_vertices (scene s)) k pvd)
    as [verts [-> [Hlv _]]]; [lia|]. cbn [bind].
  replace (Z.of_nat k + 1) with (Z.of_nat (S k)) by lia.
  apply IH; cbn [scene set_scene]; try lia.
  - change (S k + n <= length probs)%nat. lia.
  - change (S k + n <= length verts)%nat. lia.
Qed.

Lemma road_edges_loop_returns (model : ModelDataV2) (max_idx : Z) (n : nat) :
  max_idx < TRAJECTORY_SIZE ->
  Forall full_line (getRoadEdges model) ->
  forall (k : nat) (s : UIState),
    (k + n <= length (getRoadEdges model))%nat ->
    (k + n <= length (getRoadEdgeStds model))%nat ->
    (k + n <= length (road_edge_stds (scene s)))%nat ->
    (k + n <= length (road_edge_vertices (scene s)))%nat ->
    exists s', road_edges_loop model max_idx n (Z.of_nat k) s = Ret s'.
Proof.
  intros Hm Hfull. induction n as [|n IH]; intros k s H1 H2 H3 H4;
    cbn [road_edges_loop]; [eauto|].
  destruct (read_in_range (getRoadEdgeStds model) (Z.of_nat k))
    as [e ->]; [lia|]. cbn [bind].
  destruct (write_in_range (road_edge_stds (scene s)) k e)
    as [stds [-> [Hls _]]]; [lia|]. cbn [bind]. cbv zeta.
  destruct (read_in_range (getRoadEdges model) (Z.of_nat k))
    as [line Hline]; [lia|]. rewrite Hline. cbn [bind].
  pose proof (read_Forall _ _ _ _ Hfull Hline) as Hfl.
  match goal with
  | |- context [update_line_data ?s0 line ?y ?z max_idx true] =>
      destruct (update_line_data_returns s0 line y z max_idx true Hfl Hm)
        as [pvd ->]
  end. cbn [bind].
  change (road_edge_vertices (scene (set_scene (set_road_edge_stds stds
            (scene s)) s))) with (road_edge_vertices (scene s)).
  destruct (write_in_range (road_edge_vertices (scene s)) k pvd)
    as [verts [-> [Hlv _]]]; [lia|]. cbn [bind].
  replace (Z.of_nat k + 1) with (Z.of_nat (S k)) by lia.
  apply IH; cbn [scene set_scene]; try lia.
  - change (S k + n <= length stds)%nat. lia.
  - change (S k + n <= length verts)%nat. lia.
Qed.


(** X9. [update_model] comes back without a read past the end of a list
    whenever the trajectories are full, the model has its six lane lines
    and no fewer lane lines, probabilities, road edges and deviations than
    the scene has slots for them. *)
Theorem update_model_returns (s : UIState) (model : ModelDataV2) (plan : UiPlan) :
  1 <= TRAJECTORY_SIZE ->
  full_line (select_plan_position model plan) ->
  Forall full_line (getLaneLines model) ->
  Forall full_line (getRoadEdges model) ->
  (6 <= length (getLaneLines model))%nat ->
  (length (lane_line_vertices (scene s)) <= length (getLaneLines model))%nat ->
  (length (lane_line_vertices (scene s)) <= length (getLaneLineProbs model))%nat ->
  (length (lane_line_vertices (scene s)) <= length (lane_line_probs (scene s)))%nat ->
  (length (road_edge_vertices (scene s)) <= length (getRoadEdges model))%nat ->
  (length (road_edge_vertices (scene s)) <= length (getRoadEdgeStds model))%nat ->
  (length (road_edge_vertices (scene s)) <= length (road_edge_stds (scene s)))%nat ->
  exists s', update_model s model plan = Ret s'.
Proof.
  intros Hn Hplan Hlanes Hedges H6 Hl1 Hl2 Hl3 Hr1 Hr2 Hr3.
  unfold update_model, model_max_distance, path_max_idx.
  set (plan_position := select_plan_position model plan) in *.
  destruct Hplan as [Hpx [Hpy Hpz]].
  destruct (read_in_range (getX plan_position) (TRAJECTORY_SIZE - 1))
    as [x ->]; [lia|]. cbn [bind].
  destruct (read_in_range (getLaneLines model) 0) as [lane0 H0]; [lia|].
  rewrite H0. cbn [bind].
  pose proof (read_Forall _ _ _ _ Hlanes H0) as [H0x _].
  match goal with
  | |- context [get_path_length_idx lane0 ?d] =>
      destruct (get_path_length_idx_returns lane0 d Hn H0x)
        as [max_idx [-> Hmax]]
  end. cbn [bind].
  assert (Hm : max_idx < TRAJECTORY_SIZE) by lia.
  destruct (lane_lines_loop_returns model max_idx
              (length (lane_line_vertices (scene s))) Hm Hlanes O s)
    as [s1 Hs1]; try (cbn [Nat.add]; lia).
  change (Z.of_nat 0) with 0 in Hs1. rewrite Hs1. cbn [bind].
  apply (lane_lines_loop_effect model max_idx _ O) in Hs1; [|constructor].
  destruct Hs1 as [probs [lane_lines [-> _]]].
  change (road_edge_vertices (scene (set_scene (set_lane_line_vertices
            lane_lines (set_lane_line_probs probs (scene s))) s)))
    with (road_edge_vertices (scene s)).
  match goal with
  | |- context [road_edges_loop model max_idx ?n 0 ?s0] =>
      destruct (road_edges_loop_returns model max_idx n Hm Hedges O s0)
        as [s2 Hs2];
        [exact Hr1 | exact Hr2 | exact Hr3 | exact (Nat.le_refl _) |]
  end.
  change (Z.of_nat 0) with 0 in Hs2. rewrite Hs2. cbn [bind].
  match goal with
  | |- context [get_path_length_idx plan_position ?d] =>
      destruct (get_path_length_idx_returns plan_position d Hn Hpx)
        as [max_idx' [-> Hmax']]
  end. cbn [bind]. cbv zeta.
  assert (Hm' : max_idx' < TRAJECTORY_SIZE) by lia.
  assert (Hfp : full_line plan_position) by (repeat split; assumption).
  match goal with
  | |- context [update_line_data ?s0 plan_position ?y ?z max_idx' false] =>
      destruct (update_line_data_returns s0 plan_position y z max_idx' false
                  Hfp Hm') as [track ->]
  end. cbn [bind].
  match goal with
  | |- context [update_line_data ?s0 plan_position ?y ?z max_idx' false] =>
      destruct (update_line_data_returns s0 plan_position y z max_idx' false
                  Hfp Hm') as [track_edge ->]
  end. cbn [bind].
  destruct (read_in_range (getLaneLines model) 4) as [lane4 H4]; [lia|].
  rewrite H4. cbn [bind].
  pose proof (read_Forall _ _ _ _ Hlanes H4) as Hf4.
  match goal with
  | |- context [update_line_data ?s0 lane4 ?y ?z max_idx' true] =>
      destruct (update_line_data_returns s0 lane4 y z max_idx' true Hf4 Hm')
        as [adj_left ->]
  end. cbn [bind].
  destruct (read_in_range (getLaneLines model) 5) as [lane5 H5]; [lia|].
  rewrite H5. cbn [bind].
  pose proof (read_Forall _ _ _ _ Hlanes H5) as Hf5.
  match goal with
  | |- context [update_line_data ?s0 lane5 ?y ?z max_idx' true] =>
      destruct (update_line_data_returns s0 lane5 y z max_idx' true Hf5 Hm')
        as [adj_right ->]
  end. cbn [bind]. eauto.
Qed.


(** *** Status, continued *)

(** The notification of [updateStatus]. *)
Lemma updateStatus_signals (s : UIState) :
  snd (updateStatus s)
  = (if transition_tick s
     then [offroadTransition (negb (started (scene s)))] else []).
Proof.
  unfold updateStatus, transition_tick.
  destruct s as [w h m st sc tr prev]. destruct sc. cbn.
  destruct started0, always_on_lateral_active0, prev;
    destruct (updated m "controlsState");
    destruct (getState (controlsState m));
    destruct (getEnabled (controlsState m));
    cbn; destruct (frame m =? 1); cbn; reflexivity.
Qed.

(** The start flags after [updateStatus]. *)
Lemma updateStatus_started_flags (s : UIState) :
  started (scene (fst (updateStatus s))) = started (scene s)
  /\ started_prev (fst (updateStatus s)) = started (scene s).
Proof.
  unfold updateStatus, transition_tick.
  destruct s as [w h m st sc tr prev]. destruct sc. cbn.
  destruct started0, always_on_lateral_active0, prev;
    destruct (updated m "controlsState");
    destruct (getState (controlsState m));
    destruct (getEnabled (controlsState m));
    cbn; destruct (frame m =? 1); cbn; split; reflexivity.
Qed.

(** X10. [updateStatus] emits [offroadTransition] on the ticks where
    [started] differs from [started_prev] or the frame is 1, once, with
    the negation of [started], and on no other tick; after the call
    [started_prev] equals [started]. *)
Theorem updateStatus_transition_signal (s : UIState) :
  snd (updateStatus s)
  = (if transition_tick s
     then [offroadTransition (negb (started (scene s)))] else [])
  /\ started (scene (fst (updateStatus s))) = started (scene s)
  /\ started_prev (fst (updateStatus s)) = started (scene s).
Proof.
  split; [apply updateStatus_signals | apply updateStatus_started_flags].
Qed.

(** X11. One notification per edge: on a later tick that is not frame 1
    and on which [started] is what it was at a call of [updateStatus],
    [started_prev] being as that call left it, [updateStatus] emits
    nothing. *)
Theorem updateStatus_no_second_transition (s s2 : UIState) :
  started_prev s2 = started_prev (fst (updateStatus s)) ->
  started (scene s2) = started (scene s) ->
  frame (sm s2) <> 1 ->
  snd (updateStatus s2) = [].
Proof.
  intros Hp Hs Hf.
  destruct (updateStatus_started_flags s) as [_ Hprev].
  rewrite (updateStatus_signals s2).
  unfold transition_tick. rewrite Hp, Hprev, Hs.
  apply Z.eqb_neq in Hf. rewrite Hf.
  now destruct (started (scene s)).
Qed.

(** X12. While [started] is false [updateStatus] changes neither the
    status nor the scene, on a stop edge as on any other tick: the status
    of the drive that ended stays. *)
Theorem updateStatus_offroad_keeps_status (s : UIState) :
  started (scene s) = false ->
  status (fst (updateStatus s)) = status s
  /\ scene (fst (updateStatus s)) = scene s.
Proof.
  intros Est. unfold updateStatus. rewrite Est. cbn [andb]. rewrite Est.
  destruct (negb (Bool.eqb false (started_prev s)) || (frame (sm s) =? 1));
    split; reflexivity.
Qed.

(** With no fresh controlsState message and no start or stop edge,
    on a frame other than the first, [updateStatus] changes nothing. *)
Theorem updateStatus_stale_is_identity (s : UIState) :
  updated (sm s) "controlsState" = false ->
  transition_tick s = false ->
  updateStatus s = (s, []).
Proof.
  intros Hup Ht. unfold updateStatus. rewrite Hup, andb_false_r.
  unfold transition_tick in Ht. rewrite Ht. reflexivity.
Qed.

(** X13. [updateStatus] touches the scene only to stamp [started_frame]
    with the frame counter, and does so exactly on the ticks with [started]
    true that are a start edge or the first frame. *)
Theorem updateStatus_started_frame (s : UIState) :
  scene (fst (updateStatus s))
  = if started (scene s) && transition_tick s
    then set_started_frame (frame (sm s)) (scene s)
    else scene s.
Proof.
  unfold updateStatus, transition_tick.
  destruct s as [w h m st sc tr prev]. destruct sc. cbn.
  destruct started0, always_on_lateral_active0, prev;
    destruct (updated m "controlsState");
    destruct (getState (controlsState m));
    destruct (getEnabled (controlsState m));
    cbn; destruct (frame m =? 1); cbn; reflexivity.
Qed.


(** *** Reactive state sync, continued *)

Ltac split_conditions :=
  repeat match goal with
         | |- context [if ?c then _ else _] => destruct c
         end.

Lemma fold_left_orb {A : Type} (f : A -> bool) (l : list A) :
  forall acc, fold_left (fun b a => b || f a) l acc = acc || existsb f l.
Proof.
  induction l as [|a l IH]; intros acc; cbn [fold_left existsb].
  - now rewrite orb_false_r.
  - rewrite IH. now rewrite orb_assoc.
Qed.

Lemma update_panda_ignition (m : SubMaster) (sc : UIScene) :
  ignition (update_panda m sc)
  = match reported_ignition m with
    | Some b => b
    | None => ignition sc
    end.
Proof.
  unfold update_panda, reported_ignition.
  destruct (updated m "pandaStates").
  - destruct (pandaStates m) as [|first rest] eqn:E; [reflexivity|].
    change (pandaType (set_pandaType (getPandaType first) sc))
      with (getPandaType first).
    destruct (getPandaType first); [reflexivity|].
    change (ignition (set_ignition ?b _)) with b.
    now rewrite fold_left_orb.
  - destruct (_ >? _); reflexivity.
Qed.

(** The blocks after the panda block leave the ignition alone. *)
Lemma update_state_ignition_frame (s : UIState) (u1 u2 : vec3) :
  ignition (scene (update_state s u1 u2))
  = ignition (update_panda (sm s) (after_calibration s u1 u2)).
Proof.
  unfold update_state. fold (after_calibration s u1 u2).
  generalize (update_panda (sm s) (after_calibration s u1 u2)). intros sc1.
  split_conditions; reflexivity.
Qed.

(** X14. After [update_state] the ignition is the one a fresh pandaStates
    message reports, the OR over all its pandas once the first has a known
    type, and is what it was before in every other case; [started] is the
    device's started flag and that ignition. *)
Theorem update_state_ignition (s : UIState) (uninit_rpy uninit_wfde : vec3) :
  ignition (scene (update_state s uninit_rpy uninit_wfde))
  = match reported_ignition (sm s) with
    | Some b => b
    | None => ignition (scene s)
    end
  /\ started (scene (update_state s uninit_rpy uninit_wfde))
     = deviceState_getStarted (sm s)
       && ignition (scene (update_state s uninit_rpy uninit_wfde)).
Proof.
  split.
  - rewrite update_state_ignition_frame, update_panda_ignition.
    destruct (reported_ignition (sm s)); [reflexivity|].
    unfold after_calibration.
    destruct (updated (sm s) "liveCalibration"); reflexivity.
  - reflexivity.
Qed.

(** X15. Selective recomputation: on a tick with no fresh message and a
    pandaStates message that is not stale, [update_state] changes nothing
    but [started]. *)
Theorem update_state_nothing_fresh (s : UIState) (uninit_rpy uninit_wfde : vec3) :
  (forall topic, updated (sm s) topic = false) ->
  (to_uint64 (frame (sm s) - rcv_frame (sm s) "pandaStates")
   >? to_uint64 (to_int (5 * UI_FREQ))) = false ->
  update_state s uninit_rpy uninit_wfde
  = set_scene
      (set_started (deviceState_getStarted (sm s) && ignition (scene s))
         (scene s)) s.
Proof.
  intros Hup Hstale. unfold update_state, update_panda.
  rewrite !Hup, Hstale. reflexivity.
Qed.

(** X16. Without a fresh pandaStates message the panda type reverts to
    UNKNOWN once more than [5 * UI_FREQ] frames have passed since the last
    one, and is kept until then; the frame counters being within
    [uint64_t] and [5 * UI_FREQ] within [int], the wrap-around plays no
    part. *)
Theorem update_state_stale_panda (s : UIState) (uninit_rpy uninit_wfde : vec3) :
  updated (sm s) "pandaStates" = false ->
  0 <= rcv_frame (sm s) "pandaStates" <= frame (sm s) ->
  frame (sm s) < 2 ^ 64 ->
  0 <= 5 * UI_FREQ < 2 ^ 31 ->
  pandaType (scene (update_state s uninit_rpy uninit_wfde))
  = if frame (sm s) - rcv_frame (sm s) "pandaStates" >? 5 * UI_FREQ
    then UNKNOWN else pandaType (scene s).
Proof.
  intros Hup Hrcv Hframe Hfreq.
  assert (F : pandaType (scene (update_state s uninit_rpy uninit_wfde))
              = pandaType (update_panda (sm s)
                             (after_calibration s uninit_rpy uninit_wfde))).
  { unfold update_state. fold (after_calibration s uninit_rpy uninit_wfde).
    generalize (update_panda (sm s)
                  (after_calibration s uninit_rpy uninit_wfde)).
    intros sc1. split_conditions; reflexivity. }
  rewrite F. unfold update_panda. rewrite Hup.
  unfold to_uint64. rewrite to_int_small by lia.
  rewrite !Z.mod_small by lia.
  unfold after_calibration.
  destruct (_ >? _); destruct (updated (sm s) "liveCalibration");
    reflexivity.
Qed.

(** X17. On a fresh wideRoadCameraState message the light sensor value is
    [100 - scale * exposure], floored at 0: it is never negative, and it is
    at most 100 for an exposure that is not negative. *)
Theorem update_state_light_sensor (s : UIState) (uninit_rpy uninit_wfde : vec3) :
  updated (sm s) "wideRoadCameraState" = true ->
  (0 <= getExposureValPercent (wideRoadCameraState (sm s)))%Q ->
  let l := light_sensor (scene (update_state s uninit_rpy uninit_wfde)) in
  (0 <= l <= 100)%Q.
Proof.
  intros Hup Hexp l.
  assert (E : l = fmax (100 - match getSensor (wideRoadCameraState (sm s)) with
                               | AR0231 => 6
                               | OTHER_SENSOR => 1
                               end
                               * getExposureValPercent
                                   (wideRoadCameraState (sm s))) 0).
  { unfold l, update_state. rewrite Hup. reflexivity. }
  rewrite E. clear E l. unfold fmax.
  set (e := getExposureValPercent (wideRoadCameraState (sm s))) in *.
  destruct (getSensor (wideRoadCameraState (sm s)));
    match goal with
    | |- context [Qltb ?a ?b] => destruct (Qltb a b) eqn:E
    end;
    try (apply Qltb_ge in E); try (apply Qltb_lt in E); split; lra.
Qed.

(** X18. The always-on-lateral-active flag is computed from the [enabled]
    and [always_on_lateral] flags as the tick before left them: a fresh
    carControl message sets it to "not enabled and requested" when
    [always_on_lateral] was set, whatever the carParams and controlsState
    messages of the same tick say, and nothing else changes it. *)
Theorem update_state_always_on_lateral_active (s : UIState)
    (uninit_rpy uninit_wfde : vec3) :
  always_on_lateral_active (scene (update_state s uninit_rpy uninit_wfde))
  = if updated (sm s) "carControl" && always_on_lateral (scene s)
    then negb (enabled (scene s)) && carControl_getAlwaysOnLateral (sm s)
    else always_on_lateral_active (scene s).
Proof.
  assert (P : forall sc,
             (always_on_lateral (update_panda (sm s) sc),
              enabled (update_panda (sm s) sc),
              always_on_lateral_active (update_panda (sm s) sc))
             = (always_on_lateral sc, enabled sc,
                always_on_lateral_active sc)).
  { intros sc. unfold update_panda.
    destruct (updated (sm s) "pandaStates");
      [destruct (pandaStates (sm s)) as [|first rest]; [reflexivity|];
       change (pandaType (set_pandaType (getPandaType first) sc))
         with (getPandaType first);
       destruct (getPandaType first); reflexivity
      |destruct (_ >? _); reflexivity]. }
  unfold update_state. fold (after_calibration s uninit_rpy uninit_wfde).
  specialize (P (after_calibration s uninit_rpy uninit_wfde)).
  assert (C : (always_on_lateral (after_calibration s uninit_rpy uninit_wfde),
               enabled (after_calibration s uninit_rpy uninit_wfde),
               always_on_lateral_active
                 (after_calibration s uninit_rpy uninit_wfde))
              = (always_on_lateral (scene s), enabled (scene s),
                 always_on_lateral_active (scene s))).
  { unfold after_calibration.
    destruct (updated (sm s) "liveCalibration"); reflexivity. }
  rewrite C in P. clear C.
  revert P.
  generalize (update_panda (sm s)
                (after_calibration s uninit_rpy uninit_wfde)).
  intros sc1 P.
  pose proof (f_equal (fun t => fst (fst t)) P) as P1.
  pose proof (f_equal (fun t => snd (fst t)) P) as P2.
  pose proof (f_equal snd P) as P3.
  cbv beta in P1, P2. cbn [fst snd] in P1, P2, P3.
  rewrite <- P1, <- P2, <- P3.
  destruct (updated (sm s) "carControl" && always_on_lateral sc1);
    split_conditions; reflexivity.
Qed.


(** *** Device, continued *)

Lemma setAwake_eq (d : Device) (on : bool) :
  setAwake d on
  = (mk_Device on (interactive_timeout d) (ignition_on d) (last_brightness d)
       (offroad_brightness d) (brightness_filter d) (brightness_future d),
     if Bool.eqb on (awake d) then []
     else [Hardware_set_display_power on; displayPowerChanged on]).
Proof.
  unfold setAwake. destruct d as [aw t ig lb ob bf fu]. cbn.
  destruct on, aw; reflexivity.
Qed.

(** [setAwake] leaves the device awake or asleep as asked; it powers
    the display and emits [displayPowerChanged], in that order, exactly
    when this changes the state, so that asking again changes and emits
    nothing. *)
Theorem setAwake_on_change_only (d : Device) (on : bool) :
  awake (fst (setAwake d on)) = on
  /\ snd (setAwake d on)
     = (if Bool.eqb on (awake d) then []
        else [Hardware_set_display_power on; displayPowerChanged on])
  /\ setAwake (fst (setAwake d on)) on = (fst (setAwake d on), []).
Proof.
  rewrite !setAwake_eq. cbn [fst snd awake interactive_timeout ignition_on
    last_brightness offroad_brightness brightness_filter brightness_future].
  rewrite eqb_reflx. repeat split; reflexivity.
Qed.

(** X19. After [updateWakefulness] the device is awake exactly when the
    countdown is still positive or, the configured screen brightness being
    other than 0, the ignition is on; the display is powered and
    [displayPowerChanged] emitted exactly when that differs from before. *)
Theorem updateWakefulness_awake_rule (d : Device) (s : UIState) :
  let d' := fst (updateWakefulness d s) in
  awake d'
  = (if negb (screen_brightness (scene s) =? 0)
     then ignition (scene s) || (0 <? interactive_timeout d')
     else 0 <? interactive_timeout d')
  /\ power_signals (snd (updateWakefulness d s))
     = (if Bool.eqb (awake d') (awake d) then []
        else [Hardware_set_display_power (awake d');
              displayPowerChanged (awake d')]).
Proof.
  unfold updateWakefulness, resetInteractiveTimeout. cbv zeta.
  destruct (negb (ignition (scene s)) && ignition_on d);
    [|destruct (0 <? interactive_timeout _);
      [destruct (interactive_timeout _ =? 0)|]];
    destruct (negb (screen_brightness (scene s) =? 0));
    rewrite setAwake_eq; cbn [fst snd awake interactive_timeout app
      ignition_on];
    (split; [reflexivity|]);
    match goal with
    | |- context [Bool.eqb ?a ?b] => destruct (Bool.eqb a b)
    end; reflexivity.
Qed.

(** X20. The countdown is never negative: over any run of
    [updateWakefulness], a counter that is not negative stays so. *)
Theorem wake_run_timeout_nonnegative (d : Device) (ticks : list UIState) :
  0 < UI_FREQ -> 30 * UI_FREQ < 2 ^ 31 ->
  0 <= interactive_timeout d ->
  0 <= interactive_timeout (fst (wake_run d ticks)).
Proof.
  intros Hf Hmax. revert d.
  induction ticks as [|s ticks IH]; intros d Hpos; cbn [wake_run].
  - exact Hpos.
  - assert (H1 : 0 <= interactive_timeout (fst (updateWakefulness d s))).
    { destruct (negb (ignition (scene s)) && ignition_on d) eqn:E.
      - apply andb_true_iff in E. destruct E as [Ei Eo].
        apply negb_true_iff in Ei.
        destruct (updateWakefulness_off_edge d s Hf Hmax Eo Ei) as [-> _].
        lia.
      - destruct (updateWakefulness_no_edge d s E) as [-> _].
        destruct (0 <? interactive_timeout d) eqn:Ep; Z_of_bool; lia. }
    destruct (updateWakefulness d s) as [d1 sig]. cbn [fst] in H1.
    specialize (IH d1 H1).
    destruct (wake_run d1 ticks) as [d2 sigs]. exact IH.
Qed.

(** X21. The tick that ends the countdown with the ignition off emits
    [interactiveTimeout] and then puts an awake device to sleep: the display
    is powered off and [displayPowerChanged(false)] emitted after it. *)
Theorem updateWakefulness_sleep_tick (d : Device) (s : UIState) :
  interactive_timeout d = 1 ->
  ignition_on d = false -> ignition (scene s) = false ->
  awake d = true ->
  snd (updateWakefulness d s)
  = [interactiveTimeout; Hardware_set_display_power false;
     displayPowerChanged false]
  /\ awake (fst (updateWakefulness d s)) = false
  /\ interactive_timeout (fst (updateWakefulness d s)) = 0.
Proof.
  intros Ht Hon Hign Haw. unfold updateWakefulness.
  rewrite Hon, Hign, Ht. cbn [negb andb orb interactive_timeout Z.ltb
    Z.compare Pos.compare Pos.compare_cont Z.sub Z.add Z.pos_sub Z.eqb
    Z.opp Pos.pred_double].
  destruct (negb (screen_brightness (scene s) =? 0));
    rewrite setAwake_eq; cbn [fst snd awake interactive_timeout app];
    rewrite Haw; repeat split; reflexivity.
Qed.


Lemma computed_brightness_target (d : Device) (s : UIState) :
  fst (computed_brightness d s)
  = fst (FirstOrderFilter_update (brightness_filter d) (brightness_target d s)).
Proof. reflexivity. Qed.

Lemma clamp_bounds (v lo hi : Q) :
  (lo <= hi)%Q -> (lo <= clamp v lo hi <= hi)%Q.
Proof.
  intros H. unfold clamp. destruct (Qltb v lo) eqn:E1.
  - split; [apply Qle_refl | exact H].
  - destruct (Qltb hi v) eqn:E2.
    + split; [exact H | apply Qle_refl].
    + apply Qltb_ge in E1, E2. now split.
Qed.

Lemma clamp_monotone (v v' lo hi : Q) :
  (v <= v')%Q -> (clamp v lo hi <= clamp v' lo hi)%Q \/ (hi < lo)%Q.
Proof.
  intros H. unfold clamp.
  destruct (Qltb v lo) eqn:E1; destruct (Qltb v' lo) eqn:E1';
    destruct (Qltb hi v) eqn:E2; destruct (Qltb hi v') eqn:E2';
    try apply Qltb_lt in E1; try apply Qltb_ge in E1;
    try apply Qltb_lt in E1'; try apply Qltb_ge in E1';
    try apply Qltb_lt in E2; try apply Qltb_ge in E2;
    try apply Qltb_lt in E2'; try apply Qltb_ge in E2';
    first [left; lra | right; lra
          | destruct (Qlt_le_dec hi lo); [right | left]; lra].
Qed.

(** X22. The tap-to-wake floor: on an awake device with a configured
    screen brightness of at most 100 the brightness is that value, raised to
    5 if it is less, whatever the light sensor and the filter say; on a
    device that is not awake it is 0. *)
Theorem computed_brightness_override (d : Device) (s : UIState) :
  screen_brightness (scene s) <= 100 ->
  snd (computed_brightness d s)
  = (if awake d then Z.max 5 (screen_brightness (scene s)) else 0)
  /\ 0 <= snd (computed_brightness d s) <= 100.
Proof.
  intros Hsb.
  assert (E : snd (computed_brightness d s)
              = if awake d then Z.max 5 (screen_brightness (scene s)) else 0).
  { unfold computed_brightness.
    destruct (FirstOrderFilter_update _ _) as [f x]. cbn [snd].
    destruct (awake d); cbn [negb]; [|reflexivity].
    destruct (screen_brightness (scene s) <=? 100) eqn:E;
      [|apply Z.leb_gt in E; lia].
    unfold fmax, Qltb, Qle_bool, float_to_int, inject_Z. cbn [Qnum Qden].
    rewrite !Z.mul_1_r.
    destruct (screen_brightness (scene s) <=? 5) eqn:E5; cbn [negb Qnum Qden];
      rewrite Z.quot_1_r; [apply Z.leb_le in E5 | apply Z.leb_gt in E5]; lia. }
  split; [exact E|]. rewrite E. destruct (awake d); lia.
Qed.

(** X23. While started, the brightness that [updateBrightness] feeds to
    its filter lies between 10 and 100; while not started it is the
    configured offroad brightness. *)
Theorem brightness_target_range (d : Device) (s : UIState) :
  fst (computed_brightness d s)
  = fst (FirstOrderFilter_update (brightness_filter d) (brightness_target d s))
  /\ (if started (scene s)
      then (10 <= brightness_target d s <= 100)%Q
      else brightness_target d s = offroad_brightness d).
Proof.
  split; [reflexivity|]. unfold brightness_target.
  destruct (started (scene s)); [|reflexivity].
  apply clamp_bounds. discriminate.
Qed.

Lemma cube_monotone (a b : Q) :
  (0 <= a)%Q -> (a <= b)%Q -> (a * (a * a) <= b * (b * b))%Q.
Proof.
  intros Ha Hab.
  assert (H1 : (a * a <= b * b)%Q) by nra.
  nra.
Qed.

(** X24. While started, a brighter light sensor never gives a darker
    target: the brightness fed to the filter is monotone in the light
    sensor value, across the join of the two branches of the CIE curve at 8
    as well. *)
Theorem brightness_target_monotone (d : Device) (s1 s2 : UIState) :
  started (scene s1) = true -> started (scene s2) = true ->
  (light_sensor (scene s1) <= light_sensor (scene s2))%Q ->
  (brightness_target d s1 <= brightness_target d s2)%Q.
Proof.
  intros H1 H2 Hle. unfold brightness_target. rewrite H1, H2. cbv zeta.
  set (l1 := light_sensor (scene s1)) in *.
  set (l2 := light_sensor (scene s2)) in *.
  clearbody l1 l2.
  match goal with
  | |- (clamp ?v _ _ <= clamp ?v' _ _)%Q =>
      assert (Hv : (v <= v')%Q)
  end.
  { cbn [Qpower Qpower_positive pow_pos Pos.iter_op].
    destruct (Qle_bool l1 8) eqn:E1; destruct (Qle_bool l2 8) eqn:E2.
    - apply Qle_bool_iff in E1, E2.
      apply Qmult_le_l; [reflexivity|].
      unfold Qdiv. apply Qmult_le_compat_r; [exact Hle | discriminate].
    - apply Qle_bool_iff in E1.
      assert (E2' : (8 < l2)%Q).
      { apply Qnot_le_lt. intros H. apply Qle_bool_iff in H. congruence. }
      apply Qmult_le_l; [reflexivity|].
      apply Qle_trans with ((8 + 16) / 116 * ((8 + 16) / 116 * ((8 + 16) / 116)))%Q.
      + apply Qle_trans with (8 / (9033 # 10))%Q.
        * unfold Qdiv. apply Qmult_le_compat_r; [exact E1 | discriminate].
        * discriminate.
      + apply cube_monotone; [discriminate|].
        unfold Qdiv. apply Qmult_le_compat_r; [lra | discriminate].
    - apply Qle_bool_iff in E2.
      assert (E1' : (8 < l1)%Q).
      { apply Qnot_le_lt. intros H. apply Qle_bool_iff in H. congruence. }
      lra.
    - assert (E1' : (8 < l1)%Q).
      { apply Qnot_le_lt. intros H. apply Qle_bool_iff in H. congruence. }
      apply Qmult_le_l; [reflexivity|].
      apply cube_monotone.
      + unfold Qdiv. apply Qmult_le_0_compat; [lra | discriminate].
      + unfold Qdiv. apply Qmult_le_compat_r; [lra | discriminate]. }
  destruct (clamp_monotone _ _ 10 100 Hv) as [H | H]; [exact H|].
  exfalso. revert H. discriminate.
Qed.


Lemma distinct_neighbours_snoc (l : list Z) (b : Z) :
  distinct_neighbours l ->
  (l <> [] -> last l 0 <> b) ->
  distinct_neighbours (l ++ [b]).
Proof.
  induction l as [|a l IH]; intros Hd Hl; [exact I|].
  destruct l as [|c l].
  - cbn. split; [|exact I]. apply Hl. discriminate.
  - cbn [app distinct_neighbours] in *. destruct Hd as [Hac Hd].
    split; [exact Hac|]. apply IH; [exact Hd|].
    intros _. apply Hl. discriminate.
Qed.

Lemma write_log_invariant_step (w : Device * ThreadPool) (e : Event) :
  write_log_invariant w -> write_log_invariant (step w e).
Proof.
  destruct w as [d pool]. intros [Hd Hl]. cbn [fst snd] in Hd, Hl.
  destruct e as [s | id]; cbn [step fst snd].
  - unfold Device_update.
    pose proof (updateBrightness_effect d pool s) as B. cbv zeta in B.
    destruct (updateBrightness d pool s) as [d1 pool'].
    cbn [fst snd] in B. destruct B as [Bl [_ [_ [Bc _]]]].
    pose proof (updateWakefulness_keeps_brightness d1 s) as [Wl _].
    destruct (updateWakefulness d1 s) as [d2 sig]. cbn [fst snd] in *.
    unfold write_log_invariant. cbn [fst snd]. rewrite Bc, Wl, Bl.
    unfold dispatches.
    generalize (snd (computed_brightness d s)). intros b.
    destruct (negb (b =? last_brightness d)) eqn:Eb; cbn [andb].
    + destruct (negb (isRunning (brightness_future d) pool)).
      * split.
        -- apply distinct_neighbours_snoc; [exact Hd|].
           intros Hne. rewrite (Hl Hne).
           apply negb_true_iff in Eb. apply Z.eqb_neq in Eb. congruence.
        -- intros _. now rewrite last_last.
      * rewrite app_nil_r. now split.
    + rewrite app_nil_r. now split.
  - unfold write_log_invariant, task_finished. cbn [fst snd set_brightness_calls].
    now split.
Qed.

(** X25. The hardware never receives the same brightness twice in a row:
    in every run of ticks and returns of background calls that starts with
    an empty log, no two successive calls of [Hardware::set_brightness]
    carry the same value. *)
Theorem set_brightness_never_repeats (d0 : Device) (evs : list Event) :
  distinct_neighbours (set_brightness_calls (snd (run (d0, idle_pool) evs))).
Proof.
  assert (H : forall w, write_log_invariant w ->
                        write_log_invariant (run w evs)).
  { unfold run. induction evs as [|e evs IH]; intros w Hw; cbn [fold_left].
    - exact Hw.
    - apply IH. now apply write_log_invariant_step. }
  apply H. split; [exact I | intros Hne; now elim Hne].
Qed.


(** *** Lead markers, continued *)

Lemma set2_get2 {A : Type} (a : A * A) (i : Z) : set2 a i (get2 a i) = a.
Proof.
  unfold set2, get2. destruct a. now destruct (i =? 0).
Qed.

Lemma update_lead_marker (s s' : UIState) (lead_data : LeadData)
    (line : XYZTData) (i : Z) :
  update_lead s lead_data line i = Ret s' ->
  exists m,
    lead_marker s lead_data line = Ret m
    /\ s' = match m with
            | Some p =>
                set_scene (set_lead_vertices
                             (set2 (lead_vertices (scene s)) i p) (scene s)) s
            | None => s
            end.
Proof.
  unfold update_lead, lead_marker, calib_frame_to_full_frame.
  destruct (getStatus lead_data).
  - intros H. apply bind_Ret in H. destruct H as [idx [Hidx H]].
    rewrite Hidx. cbn [bind].
    apply bind_Ret in H. destruct H as [z [Hz H]]. rewrite Hz. cbn [bind].
    injection H as <-. cbv zeta.
    set (p := project_point s (getDRel lead_data) (- getYRel lead_data)
                (z + (122 # 100))).
    destruct (QRectF_contains (clip_region s) p).
    + exists (Some p). split; reflexivity.
    + exists None. split; [reflexivity|]. cbn [snd].
      rewrite set2_get2. now destruct s.
  - intros [= <-]. exists None. split; reflexivity.
Qed.

(** The markers do not enter the projection. *)
Lemma lead_marker_set_lead_vertices (s : UIState) (v : QPointF * QPointF)
    (lead_data : LeadData) (line : XYZTData) :
  lead_marker (set_scene (set_lead_vertices v (scene s)) s) lead_data line
  = lead_marker s lead_data line.
Proof. reflexivity. Qed.

(** X26. [update_leads] writes nothing but the two markers, and each of
    them from its own lead: the marker of lead one is the projection of lead
    one when that is valid and in the clip region, and is kept otherwise;
    likewise for lead two. The rest of the UI state is as before. *)
Theorem update_leads_markers (s s' : UIState) (radar_state : RadarState)
    (line : XYZTData) :
  update_leads s radar_state line = Ret s' ->
  exists m1 m2,
    lead_marker s (getLeadOne radar_state) line = Ret m1
    /\ lead_marker s (getLeadTwo radar_state) line = Ret m2
    /\ s' = set_scene
              (set_lead_vertices
                 (match m1 with
                  | Some p => p
                  | None => fst (lead_vertices (scene s))
                  end,
                  match m2 with
                  | Some p => p
                  | None => snd (lead_vertices (scene s))
                  end) (scene s)) s.
Proof.
  unfold update_leads. intros H.
  apply bind_Ret in H. destruct H as [s1 [H1 H2]].
  apply update_lead_marker in H1. destruct H1 as [m1 [Hm1 ->]].
  apply update_lead_marker in H2. destruct H2 as [m2 [Hm2 ->]].
  change (lead_of radar_state 0) with (getLeadOne radar_state) in *.
  change (lead_of radar_state 1) with (getLeadTwo radar_state) in *.
  exists m1, m2. split; [exact Hm1|].
  destruct m1 as [p1|].
  - rewrite lead_marker_set_lead_vertices in Hm2. split; [exact Hm2|].
    destruct m2 as [p2|]; reflexivity.
  - split; [exact Hm2|].
    destruct m2 as [p2|]; [reflexivity|].
    rewrite <- surjective_pairing. now destruct s.
Qed.


(** ** Properties of the prime type and of driver monitoring *)

(** *** Prime type *)

Lemma digit_of_digit (d : Z) :
  0 <= d <= 9 ->
  digit_of (Ascii.ascii_of_nat (Z.to_nat (48 + d))) = Some d.
Proof.
  intros Hd. unfold digit_of.
  rewrite Ascii.nat_ascii_embedding by lia.
  rewrite Z2Nat.id by lia.
  replace (48 <=? 48 + d) with true by (symmetry; apply Z.leb_le; lia).
  replace (48 + d <=? 57) with true by (symmetry; apply Z.leb_le; lia).
  cbn [andb]. f_equal. lia.
Qed.

Lemma atoi_to_string_digits (fuel : nat) :
  forall n acc a,
    0 <= n < 10 ^ Z.of_nat fuel -> (0 < fuel)%nat ->
    exists k,
      atoi_digits (to_string_digits fuel n acc) a
      = atoi_digits acc (a * 10 ^ k + n)
      /\ 0 < k
      /\ exists c rest, to_string_digits fuel n acc = String c rest
                        /\ digit_of c <> None.
Proof.
  induction fuel as [|fuel IH]; intros n acc a Hn Hf; [lia|].
  cbn [to_string_digits].
  assert (Hd : 0 <= n mod 10 <= 9) by (pose proof (Z.mod_pos_bound n 10); lia).
  destruct (n / 10 =? 0) eqn:E.
  - apply Z.eqb_eq in E. exists 1. split; [|split; [lia|]].
    + cbn [atoi_digits]. rewrite digit_of_digit by exact Hd.
      f_equal. pose proof (Z.div_mod n 10 ltac:(lia)) as Hn10.
      rewrite E in Hn10. lia.
    + eexists. eexists. split; [reflexivity|].
      rewrite digit_of_digit by exact Hd. discriminate.
  - apply Z.eqb_neq in E.
    assert (Hq : 0 <= n / 10 < 10 ^ Z.of_nat fuel).
    { split; [apply Z.div_pos; lia|].
      apply Z.div_lt_upper_bound; [lia|].
      rewrite Nat2Z.inj_succ, Z.pow_succ_r in Hn by lia. lia. }
    assert (Hfuel : (0 < fuel)%nat).
    { destruct fuel; [|lia]. cbn in Hq. lia. }
    destruct (IH (n / 10)
                (String (Ascii.ascii_of_nat (Z.to_nat (48 + n mod 10))) acc)
                a Hq Hfuel) as [k [Hk [Hpos Hc]]].
    exists (k + 1). split; [|split; [lia | exact Hc]].
    rewrite Hk. cbn [atoi_digits]. rewrite digit_of_digit by exact Hd.
    f_equal. rewrite Z.pow_add_r by lia. change (10 ^ 1) with 10.
    pose proof (Z.div_mod n 10 ltac:(lia)) as Hn10.
    rewrite Hn10 at 3. ring.
Qed.

(** [atoi] reads back what [to_string] prints. *)
Lemma atoi_to_string (z : Z) :
  - 2 ^ 31 <= z < 2 ^ 31 ->
  atoi (to_string z) = z /\ to_string z <> EmptyString.
Proof.
  intros Hz. unfold to_string, atoi.
  destruct (z <? 0) eqn:E.
  - apply Z.ltb_lt in E. split; [|discriminate].
    destruct (atoi_to_string_digits 10 (- z) EmptyString 0) as [k [Hk _]];
      [cbn; lia | lia |].
    assert (Hsp : forall r, skip_spaces (String minus_sign r)
                            = String minus_sign r) by reflexivity.
    rewrite Hsp, Ascii.eqb_refl, Hk. cbn [atoi_digits]. lia.
  - apply Z.ltb_ge in E.
    destruct (atoi_to_string_digits 10 z EmptyString 0)
      as [k [Hk [_ [c [rest [Hs Hc]]]]]]; [cbn; lia | lia |].
    rewrite Hs. split; [|discriminate].
    rewrite Hs in Hk.
    assert (Hsp : skip_spaces (String c rest) = String c rest).
    { cbn [skip_spaces]. destruct (is_space c) eqn:Es; [|reflexivity].
      exfalso. apply Hc. unfold digit_of, is_space in *.
      destruct (Nat.eqb (Ascii.nat_of_ascii c) 32) eqn:E32.
      - apply Nat.eqb_eq in E32. now rewrite E32.
      - cbn [orb] in Es. apply andb_true_iff in Es. destruct Es as [_ E13].
        apply Nat.leb_le in E13.
        replace (48 <=? Z.of_nat (Ascii.nat_of_ascii c)) with false
          by (symmetry; apply Z.leb_gt; lia).
        reflexivity. }
    rewrite Hsp.
    destruct (Ascii.eqb c minus_sign) eqn:Em;
      [apply Ascii.eqb_eq in Em; subst c; exfalso; apply Hc; reflexivity|].
    destruct (Ascii.eqb c plus_sign) eqn:Ep;
      [apply Ascii.eqb_eq in Ep; subst c; exfalso; apply Hc; reflexivity|].
    rewrite Hk. cbn [atoi_digits]. lia.
Qed.


(** X27. The prime type survives a restart: after [setPrimeType] has
    changed the type, the constructor's read of the parameter store gives
    that type back, [atoi] undoing [std::to_string]. *)
Theorem setPrimeType_persists (prime_type : Z) (params : Params) (type init : Z) :
  type <> prime_type ->
  - 2 ^ 31 <= type < 2 ^ 31 ->
  let r := setPrimeType prime_type params type in
  fst (fst r) = type
  /\ restore_prime_type (snd (fst r)) init = type.
Proof.
  intros Hne Hrange r. unfold r, setPrimeType.
  apply Z.eqb_neq in Hne. rewrite Hne. cbn [negb fst snd].
  split; [reflexivity|].
  unfold restore_prime_type, Params_get, Params_put.
  rewrite String.eqb_refl.
  destruct (atoi_to_string type Hrange) as [Ha Hs].
  destruct (String.eqb (to_string type) EmptyString) eqn:E.
  - apply String.eqb_eq in E. contradiction.
  - exact Ha.
Qed.

(** [setPrimeType] always leaves the given type in place, and a
    second call with the same type changes and emits nothing;
    [primeChanged] is emitted only when [hasPrime] flips, with its new
    value, and the parameter store is written only when the type changes. *)
Theorem setPrimeType_signals (prime_type : Z) (params : Params) (type : Z) :
  let r := setPrimeType prime_type params type in
  fst (fst r) = type
  /\ setPrimeType (fst (fst r)) (snd (fst r)) type
     = (fst (fst r), snd (fst r), [])
  /\ (forall b, In (primeChanged b) (snd r) ->
        b = hasPrime type /\ hasPrime prime_type <> hasPrime type)
  /\ (type = prime_type -> r = (prime_type, params, [])).
Proof.
  intros r. unfold r, setPrimeType.
  destruct (type =? prime_type) eqn:E; cbn [negb fst snd].
  - apply Z.eqb_eq in E. subst type. rewrite Z.eqb_refl. cbn [negb].
    split; [reflexivity|]. split; [reflexivity|].
    split; [intros b0 [] | reflexivity].
  - rewrite Z.eqb_refl. cbn [negb]. split; [reflexivity|].
    split; [reflexivity|]. split.
    + intros b [H | H]; [discriminate|].
      destruct (Bool.eqb (hasPrime prime_type) (hasPrime type)) eqn:Eb;
        cbn [negb] in H; [destruct H|].
      destruct H as [H | []]. injection H as <-.
      split; [reflexivity|]. now apply eqb_false_iff.
    + intros ->. rewrite Z.eqb_refl in E. discriminate.
Qed.

(** *** Driver monitoring *)

Lemma write_nat_read {A : Type} (v : A) :
  forall (l l' : list A) (k j : nat),
    write_nat l k v = Ret l' ->
    nth_error l' j = if Nat.eqb j k then Some v else nth_error l j.
Proof.
  induction l as [|a l IH]; intros l' k j H; cbn [write_nat] in H.
  - destruct k; discriminate.
  - destruct k as [|k].
    + injection H as <-. now destruct j.
    + apply bind_Ret in H. destruct H as [l'' [Hw H]]. injection H as <-.
      destruct j as [|j]; [reflexivity|]. cbn [nth_error Nat.eqb].
      now apply IH.
Qed.

Lemma write_read {A : Type} (l l' : list A) (i j : Z) (v : A) :
  write l i v = Ret l' -> 0 <= j ->
  read l' j = if j =? i then Ret v else read l j.
Proof.
  unfold write, read. intros H Hj.
  destruct (i <? 0) eqn:Ei; [discriminate|]. apply Z.ltb_ge in Ei.
  destruct (j <? 0) eqn:Ej; [apply Z.ltb_lt in Ej; lia|].
  rewrite (write_nat_read v l l' _ (Z.to_nat j) H).
  destruct (j =? i) eqn:E.
  - apply Z.eqb_eq in E. subst j. now rewrite Nat.eqb_refl.
  - apply Z.eqb_neq in E.
    replace (Nat.eqb (Z.to_nat j) (Z.to_nat i)) with false;
      [reflexivity|].
    symmetry. apply Nat.eqb_neq. lia.
Qed.

(** What the loop does at the indices it visits and at the others. *)
Lemma pose_loop_effect (driver_orient : list Q) (dm_fade_state : Q) (n : nat) :
  forall (k : nat) (p p' : DriverPose),
    pose_loop driver_orient dm_fade_state n (Z.of_nat k) p = Ret p' ->
    face_kpts_draw p' = face_kpts_draw p
    /\ (forall j, 0 <= j < Z.of_nat k ->
          read (driver_pose_vals p') j = read (driver_pose_vals p) j
          /\ read (driver_pose_diff p') j = read (driver_pose_diff p) j)
    /\ (forall j, Z.of_nat k <= j < Z.of_nat (k + n) ->
          exists o old,
            read driver_orient j = Ret o
            /\ read (driver_pose_vals p) j = Ret old
            /\ read (driver_pose_vals p') j
               = Ret ((8 # 10) * pose_target j o + (1 - (8 # 10)) * old)%Q
            /\ read (driver_pose_diff p') j
               = Ret (fabs (old - pose_target j o))).
Proof.
  induction n as [|n IH]; intros k p p' H; cbn [pose_loop] in H.
  - injection H as <-. split; [reflexivity|]. split; [auto|].
    intros j Hj. lia.
  - apply bind_Ret in H. destruct H as [o [Ho H]]. cbv zeta in H.
    apply bind_Ret in H. destruct H as [old [Hold H]].
    apply bind_Ret in H. destruct H as [diff [Hd H]].
    apply bind_Ret in H. destruct H as [vals [Hv H]].
    apply bind_Ret in H. destruct H as [sins [_ H]].
    apply bind_Ret in H. destruct H as [coss [_ H]].
    replace (Z.of_nat k + 1) with (Z.of_nat (S k)) in H by lia.
    apply IH in H. cbn [face_kpts_draw driver_pose_vals driver_pose_diff] in H.
    destruct H as [Hf [Hlow Hhigh]].
    split; [exact Hf|]. split.
    + intros j Hj. destruct (Hlow j) as [H1 H2]; [lia|].
      rewrite H1, H2.
      rewrite (write_read _ _ _ j _ Hv), (write_read _ _ _ j _ Hd) by lia.
      replace (j =? Z.of_nat k) with false by (symmetry; apply Z.eqb_neq; lia).
      now split.
    + intros j Hj. destruct (Z.eq_dec j (Z.of_nat k)) as [-> | Hne].
      * exists o, old. split; [exact Ho|]. split; [exact Hold|].
        destruct (Hlow (Z.of_nat k)) as [H1 H2]; [lia|].
        rewrite H1, H2.
        rewrite (write_read _ _ _ _ _ Hv), (write_read _ _ _ _ _ Hd) by lia.
        rewrite Z.eqb_refl. now split.
      * destruct (Hhigh j) as [o' [old' [Ho' [Hold' [Hn' Hd']]]]]; [lia|].
        exists o', old'. split; [exact Ho'|]. split; [|now split].
        rewrite (write_read _ _ _ j _ Hv) in Hold' by lia.
        replace (j =? Z.of_nat k) with false in Hold'
          by (symmetry; apply Z.eqb_neq; lia).
        exact Hold'.
Qed.

Lemma kpts_loop_effect (r_xyz : mat3) (dm_fade_state : Q) (kpts : list vec3) :
  forall (k : nat) (draw draw' : list vec3),
    kpts_loop r_xyz dm_fade_state kpts (Z.of_nat k) draw = Ret draw' ->
    forall j, Z.of_nat k <= j < Z.of_nat (k + length kpts) ->
      exists kpt,
        read kpts (j - Z.of_nat k) = Ret kpt
        /\ read draw' j
           = Ret (mk_vec3 (v_0 (matvecmul3 r_xyz kpt))
                    (v_1 (matvecmul3 r_xyz kpt))
                    (v_2 (matvecmul3 r_xyz kpt) * (1 - dm_fade_state)
                     + 8 * dm_fade_state)).
Proof.
  induction kpts as [|kpt kpts IH]; intros k draw draw' H j Hj;
    cbn [kpts_loop length] in *; [lia|].
  cbv zeta in H. apply bind_Ret in H. destruct H as [draw1 [Hw H]].
  replace (Z.of_nat k + 1) with (Z.of_nat (S k)) in H by lia.
  destruct (Z.eq_dec j (Z.of_nat k)) as [-> | Hne].
  - exists kpt. split; [now rewrite Z.sub_diag|].
    assert (Hkeep : forall kpts0 k0 d d',
               kpts_loop r_xyz dm_fade_state kpts0 (Z.of_nat k0) d = Ret d' ->
               forall i, 0 <= i < Z.of_nat k0 -> read d' i = read d i).
    { clear. induction kpts0 as [|a kpts0 IHk]; intros k0 d d' H i Hi;
        cbn [kpts_loop] in H; [now injection H as <-|].
      cbv zeta in H. apply bind_Ret in H. destruct H as [d1 [Hw H]].
      replace (Z.of_nat k0 + 1) with (Z.of_nat (S k0)) in H by lia.
      rewrite (IHk _ _ _ H i) by lia.
      rewrite (write_read _ _ _ i _ Hw) by lia.
      now replace (i =? Z.of_nat k0) with false
        by (symmetry; apply Z.eqb_neq; lia). }
    rewrite (Hkeep _ _ _ _ H (Z.of_nat k)) by lia.
    rewrite (write_read _ _ _ _ _ Hw) by lia.
    now rewrite Z.eqb_refl.
  - destruct (IH (S k) draw1 draw' H j) as [kpt' [Hr Hd]]; [lia|].
    exists kpt'. split; [|exact Hd].
    unfold read in *.
    destruct (j - Z.of_nat k <? 0) eqn:E; [apply Z.ltb_lt in E; lia|].
    destruct (j - Z.of_nat (S k) <? 0) eqn:E'; [discriminate|].
    replace (Z.to_nat (j - Z.of_nat k))
      with (S (Z.to_nat (j - Z.of_nat (S k)))) by lia.
    exact Hr.
Qed.

(** X28. The pose filter: at each axis [update_dmonitoring] moves the
    filtered angle four fifths of the way to its target, the reported angle
    times the gain of the axis, so that the distance to the target shrinks
    to a fifth, and it records the distance there was before the move. *)
Theorem update_dmonitoring_smoothing (p p' : DriverPose)
    (driverstate : DriverStateV2) (dm_fade_state : Q) (is_rhd : bool) (i : Z) :
  update_dmonitoring p driverstate dm_fade_state is_rhd = Ret p' ->
  0 <= i < Z.of_nat (length (driver_pose_vals p)) ->
  exists orient old new diff,
    read (getFaceOrientation
            (if is_rhd then getRightDriverData driverstate
             else getLeftDriverData driverstate)) i = Ret orient
    /\ read (driver_pose_vals p) i = Ret old
    /\ read (driver_pose_vals p') i = Ret new
    /\ read (driver_pose_diff p') i = Ret diff
    /\ (new - pose_target i orient == (1 # 5) * (old - pose_target i orient))%Q
    /\ diff = fabs (old - pose_target i orient).
Proof.
  unfold update_dmonitoring. intros H Hi. cbv zeta in H.
  apply bind_Ret in H. destruct H as [p1 [Hloop H]].
  repeat (apply bind_Ret in H; destruct H as [? [_ H]]).
  injection H as <-. cbn [driver_pose_vals driver_pose_diff].
  apply (pose_loop_effect _ _ _ O) in Hloop.
  destruct Hloop as [_ [_ Hhigh]].
  destruct (Hhigh i) as [o [old [Ho [Hold [Hn Hd]]]]]; [cbn; lia|].
  exists o, old. eexists. eexists.
  split; [destruct is_rhd; exact Ho|]. split; [exact Hold|].
  split; [exact Hn|]. split; [exact Hd|]. split; [ring | reflexivity].
Qed.

(** X29. Faded out, the face overlay lies on the backdrop: with a fade
    state of 1 every keypoint that [update_dmonitoring] draws has depth 8,
    whatever the pose. *)
Theorem update_dmonitoring_faded_out (p p' : DriverPose)
    (driverstate : DriverStateV2) (dm_fade_state : Q) (is_rhd : bool) (j : Z) :
  update_dmonitoring p driverstate dm_fade_state is_rhd = Ret p' ->
  (dm_fade_state == 1)%Q ->
  0 <= j < Z.of_nat (length default_face_kpts_3d) ->
  exists kpt, read (face_kpts_draw p') j = Ret kpt /\ (v_2 kpt == 8)%Q.
Proof.
  unfold update_dmonitoring. intros H Hf Hj. cbv zeta in H.
  apply bind_Ret in H. destruct H as [p1 [_ H]].
  do 6 (apply bind_Ret in H; destruct H as [? [_ H]]).
  apply bind_Ret in H. destruct H as [draw [Hk H]].
  injection H as <-. cbn [face_kpts_draw].
  destruct (kpts_loop_effect _ _ _ O _ _ Hk j) as [kpt [_ Hr]]; [cbn; lia|].
  eexists. split; [exact Hr|]. cbn [v_2]. rewrite Hf. ring.
Qed.


(** *** Calibration, continued *)

(** X30. A calibration message whose two lists have three elements each
    determines the calibration by itself: the transforms and the flags that
    [update_calibration] stores depend neither on what the uninitialised
    vectors hold nor on the scene before, so that the same message gives
    the same calibration again. *)
Theorem update_calibration_well_formed (live_calib : LiveCalibrationData)
    (u1 u2 u1' u2' : vec3) (sc sc' : UIScene) :
  length (getRpyCalib live_calib) = 3%nat ->
  length (getWideFromDeviceEuler live_calib) = 3%nat ->
  calibration_of (update_calibration live_calib u1 u2 sc)
  = calibration_of (update_calibration live_calib u1' u2' sc')
  /\ calibration_wide_valid (update_calibration live_calib u1 u2 sc) = true
  /\ update_calibration live_calib u1' u2'
       (update_calibration live_calib u1 u2 sc)
     = update_calibration live_calib u1 u2 sc.
Proof.
  intros H1 H2. unfold update_calibration, calibration_of, fill_vector3.
  rewrite H1, H2. cbn [Nat.eqb]. repeat split; reflexivity.
Qed.

End Embedding.

(** ** Closed instances *)

(** Values for the constants, for the closed statements below. *)
Definition TRAJECTORY_SIZE_33 : Z := 33.
Definition UI_FREQ_20 : Z := 20.
Definition MIN_DRAW_DISTANCE_10 : Q := 10.
Definition MAX_DRAW_DISTANCE_100 : Q := 100.
Definition fcam_intrinsic_matrix : mat3 :=
  mk_mat3 2648 0 964
          0 2648 604
          0 0 1.
Definition ecam_intrinsic_matrix : mat3 :=
  mk_mat3 567 0 964
          0 567 604
          0 0 1.

Definition identity3 : mat3 :=
  mk_mat3 1 0 0
          0 1 0
          0 0 1.

(** The rotation of zero Euler angles. The closed statements apply
    [euler2rot] to zero angles only. *)
Definition euler2rot_zero_angles (_ : vec3) : mat3 := identity3.

Definition zero3 : vec3 := mk_vec3 0 0 0.
Definition zero_mat3 : mat3 := mk_mat3 0 0 0 0 0 0 0 0 0.

(** A scene before any message: the default calibration, four lane lines,
    two road edges, null markers; [road_ui] is the custom road UI with
    unlimited length, [brightness] the configured screen brightness. *)
Definition scene_init (road_ui : bool) (brightness : Z) : UIScene :=
  {| view_from_calib := view_from_device;
     view_from_wide_calib := view_from_device;
     calibration_valid := false; calibration_wide_valid := false;
     wide_cam := false; pandaType := UNKNOWN;
     ignition := false; started := false; started_frame := 0;
     always_on_lateral := false; always_on_lateral_active := false;
     enabled := false; light_sensor := 0; screen_brightness := brightness;
     lane_width_left := 0; lane_width_right := 0;
     custom_road_ui := road_ui; unlimited_road_ui_length := road_ui;
     blind_spot_path := false; developer_ui := 0;
     lane_line_width := 0; path_width := 0; path_edge_width := 0;
     road_edge_width := 0;
     lane_line_probs := [0; 0; 0; 0]%Q; road_edge_stds := [0; 0]%Q;
     lane_line_vertices := [[]; []; []; []]; road_edge_vertices := [[]; []];
     track_vertices := []; track_edge_vertices := [];
     track_left_adjacent_lane_vertices := [];
     track_right_adjacent_lane_vertices := [];
     lead_vertices := (QPointF_null, QPointF_null) |}.

Definition scene0 : UIScene := scene_init false 101.

Definition no_lead : LeadData := mk_LeadData false 0 0.
Definition lead_at_20 : LeadData := mk_LeadData true 20 0.
Definition lead_at_5 : LeadData := mk_LeadData true 5 0.

Definition calibrated : LiveCalibrationData :=
  mk_LiveCalibrationData [0; 0; 0]%Q [0; 0; 0]%Q CALIBRATED.

(** A calibration message whose roll/pitch/yaw list is empty. *)
Definition calibrated_without_rpy : LiveCalibrationData :=
  mk_LiveCalibrationData [] [0; 0; 0]%Q CALIBRATED.

(** Messages of a tick: every topic fresh, the given calibration, controls
    state, device-started flag, ignition and lead one. *)
Definition messages_with (frame_no : Z) (lc : LiveCalibrationData)
    (cs : ControlsState) (dev_started : bool) (ign : bool)
    (lead_one : LeadData) : SubMaster :=
  {| frame := frame_no;
     updated := fun _ => true;
     rcv_frame := fun _ => frame_no;
     liveCalibration := lc;
     pandaStates := [mk_PandaState (KNOWN_PANDA 1) ign false];
     carControl_getAlwaysOnLateral := false;
     carParams_getAlwaysOnLateral := false;
     controlsState := cs;
     lateralPlan := mk_LateralPlan 0 0;
     wideRoadCameraState := mk_WideRoadCameraState OTHER_SENSOR 50;
     deviceState_getStarted := dev_started;
     radarState := mk_RadarState lead_one no_lead |}.

Definition messages (frame_no : Z) (cs : ControlsState) (dev_started : bool)
    (ign : bool) (lead_one : LeadData) : SubMaster :=
  messages_with frame_no calibrated cs dev_started ign lead_one.

Definition pre_enabled : ControlsState := mk_ControlsState true PRE_ENABLED.
Definition engaged : ControlsState := mk_ControlsState true ENABLED.
Definition disengaged : ControlsState := mk_ControlsState false DISABLED.

(** A UI state on a 2160x1080 frame with the identity screen transform. *)
Definition ui_state (m : SubMaster) (sc : UIScene) (prev : bool) : UIState :=
  {| fb_w := 2160; fb_h := 1080; sm := m; status := STATUS_DISENGAGED;
     scene := sc; car_space_transform := fun p => p; started_prev := prev |}.

Definition offroad_state : UIState :=
  ui_state (messages 99 disengaged false false no_lead) scene0 false.

(** A straight level trajectory, one sample every 3 units: x = 0, 3, ..,
    96. *)
Definition straight_line : XYZTData :=
  let xs := map (fun i => inject_Z (3 * Z.of_nat i)) (seq 0 33) in
  mk_XYZTData xs (repeat 0%Q 33) (repeat 0%Q 33).

(** The view transform of an earlier calibration: a yaw of cosine 4/5 and
    sine 3/5. *)
Definition earlier_view_from_calib : mat3 :=
  matmul3 view_from_device
    (mk_mat3 (4 # 5) (- 3 # 5) 0
             (3 # 5) (4 # 5) 0
             0 0 1).

(** A device that is awake with the ignition on; the filter constant is
    that of a 0.05 s step and a 10 s time constant. *)
Definition backlight_filter : FirstOrderFilter := mk_FirstOrderFilter 50 (1 # 201).

Definition device_on : Device :=
  mk_Device true 200 true 0 50 backlight_filter None.

(** The UI state at the entry of [updateStatus] on the tick that sees the
    car start, with a controls state in PRE_ENABLED. *)
Definition start_edge_state : UIState :=
  update_state UI_FREQ_20 euler2rot_zero_angles
    (update_sockets offroad_state (messages 100 pre_enabled true true no_lead))
    zero3 zero3.

(** The UI state after that tick. *)
Definition started_state : UIState := fst (updateStatus start_edge_state).

(** The tick that follows, with the messages [m]. *)
Definition next_tick (m : SubMaster) : UIState * list Signal :=
  update_scene_status UI_FREQ_20 euler2rot_zero_angles started_state m
    zero3 zero3.

(** A UI state calibrated earlier that polls a calibration message
    without roll/pitch/yaw. *)
Definition recalibrating_state : UIState :=
  set_scene (set_view_from_calib earlier_view_from_calib scene0)
    (update_sockets offroad_state
       (messages_with 100 calibrated_without_rpy disengaged false false
          no_lead)).

(** A UI state with the ignition on and the configured screen brightness
    [b]; the brightness computed from it on an awake device is [max 5 b]
    for [b <= 100]. *)
Definition bright (b : Z) : UIState :=
  ui_state (messages 100 disengaged false true no_lead)
    (set_ignition true (scene_init false b)) false.

(** A UI state with lead one tracked at 20 m. *)
Definition following_state : UIState :=
  ui_state (messages 100 engaged true true lead_at_20) scene0 true.

(** The trajectory of a car backing up: x = 0, -1/32, .., -1. *)
Definition reversing_line : XYZTData :=
  let xs := map (fun i => (- Z.of_nat i # 32)%Q) (seq 0 32) ++ [(-1)%Q] in
  mk_XYZTData xs (repeat 0%Q 33) (repeat 0%Q 33).

(** A line from the origin of the car frame to a sample 4 m ahead and 1 m
    down. *)
Definition origin_line : XYZTData :=
  mk_XYZTData [0; 4]%Q [0; 0]%Q [0; 1]%Q.

(** A line with a sample at the origin of the car frame between two samples
    ahead, the second of which projects lower on the screen than the
    first. *)
Definition crest_line : XYZTData :=
  mk_XYZTData [4; 0; 8]%Q [0; 0; 0]%Q [1; 0; (5 # 2)]%Q.

(** A line of two samples ahead, the second of which projects lower on the
    screen than the first. *)
Definition dip_line : XYZTData :=
  mk_XYZTData [4; 8]%Q [0; 0]%Q [1; (5 # 2)]%Q.

(** The same line 1.22 m lower: the heights at which the path edge of
    [update_model], drawn with the offsets 0 and 1.22, meets the same
    points. *)
Definition crest_path : XYZTData :=
  mk_XYZTData [4; 0; 8]%Q [0; 0; 0]%Q
    [(1 - (122 # 100)); (- (122 # 100)); ((5 # 2) - (122 # 100))]%Q.

(** A car backing up behind a lead at 5 m, with the unlimited-length
    override: the model message and the UI state. *)
Definition reversing_model : ModelDataV2 :=
  mk_ModelDataV2 reversing_line (repeat reversing_line 6)
    [0; 0; 0; 0]%Q (repeat reversing_line 2) [0; 0]%Q.

Definition reversing_state : UIState :=
  ui_state (messages 100 engaged true true lead_at_5) (scene_init true 101)
    true.

(** *** Further inputs *)

(** A model message with six lane lines and two road edges, each the
    straight trajectory, and a plan with the same trajectory. *)
Definition straight_model : ModelDataV2 :=
  mk_ModelDataV2 straight_line (repeat straight_line 6)
    [(1 # 2); (9 # 10); (9 # 10); (1 # 2)]%Q
    (repeat straight_line 2) [(1 # 10); (1 # 10)]%Q.

Definition straight_plan : UiPlan := mk_UiPlan straight_line.

(** Messages of a tick on which no topic is fresh, the last pandaStates
    message having come at frame [last_panda]. *)
Definition quiet_messages (frame_no last_panda : Z) : SubMaster :=
  {| frame := frame_no;
     updated := fun _ => false;
     rcv_frame := fun _ => last_panda;
     liveCalibration := calibrated;
     pandaStates := [mk_PandaState (KNOWN_PANDA 1) true false];
     carControl_getAlwaysOnLateral := false;
     carParams_getAlwaysOnLateral := false;
     controlsState := engaged;
     lateralPlan := mk_LateralPlan 0 0;
     wideRoadCameraState := mk_WideRoadCameraState OTHER_SENSOR 50;
     deviceState_getStarted := true;
     radarState := mk_RadarState no_lead no_lead |}.

(** A UI state with a known panda type that polls no fresh message. *)
Definition quiet_state (frame_no last_panda : Z) : UIState :=
  ui_state (quiet_messages frame_no last_panda)
    (set_pandaType (KNOWN_PANDA 1) scene0) false.

(** The UI state at the entry of [update_state] on the tick of the start
    edge. *)
Definition polled_state : UIState :=
  update_sockets offroad_state (messages 100 pre_enabled true true no_lead).

(** The UI state at the entry of [updateStatus] on the tick after the
    start edge. *)
Definition second_tick_state : UIState :=
  update_state UI_FREQ_20 euler2rot_zero_angles
    (update_sockets started_state (messages 101 pre_enabled true true no_lead))
    zero3 zero3.

(** A started UI state with the light sensor at [l]. *)
Definition lit (l : Q) : UIState :=
  ui_state (messages 100 engaged true true no_lead)
    (set_started true (set_light_sensor l scene0)) true.

(** A device one tick before the end of its countdown, the ignition
    off. *)
Definition device_last_tick : Device :=
  mk_Device true 1 false 0 50 backlight_filter None.

(** A prime predicate: the types above 0. *)
Definition hasPrime_above_none (t : Z) : bool := 0 <? t.

Definition empty_params : Params := fun _ => EmptyString.

(** Sine and cosine at zero. The closed statements below have a fade state
    of 1, which applies [sinf] and [cosf] to zero only. *)
Definition sinf_at_zero (_ : Q) : Q := 0.
Definition cosf_at_zero (_ : Q) : Q := 1.

Definition three_face_kpts : list vec3 :=
  [mk_vec3 (-6) 1 (-10); mk_vec3 0 (-3) (-12); mk_vec3 6 1 (-10)]%Q.

Definition pose_at_rest : DriverPose :=
  mk_DriverPose [0; 0; 0]%Q [0; 0; 0]%Q [0; 0; 0]%Q [0; 0; 0]%Q
    [zero3; zero3; zero3].

(** A driver state with the left driver looking down and to the side. *)
Definition looking_aside : DriverStateV2 :=
  mk_DriverStateV2 (mk_DriverData [(- 1 # 2); (1 # 4); 0]%Q)
    (mk_DriverData [0; 0; 0]%Q).

(** *** Projection and path length, on concrete inputs *)

(** C10 on a point far to the left of the road: rejected, [out] kept. *)
Lemma calib_frame_false_leaves_out_witness :
  fst (calib_frame_to_full_frame ecam_intrinsic_matrix fcam_intrinsic_matrix
         offroad_state 1 100 0 (mk_QPointF 7 9)) = false
  /\ snd (calib_frame_to_full_frame ecam_intrinsic_matrix fcam_intrinsic_matrix
            offroad_state 1 100 0 (mk_QPointF 7 9)) = mk_QPointF 7 9.
Proof.
  split; [reflexivity|].
  apply (calib_frame_false_leaves_out ecam_intrinsic_matrix
           fcam_intrinsic_matrix offroad_state 1 100 0 (mk_QPointF 7 9)).
  reflexivity.
Defined.

Example get_path_length_idx_straight_20 :
  get_path_length_idx TRAJECTORY_SIZE_33 straight_line 20 = Ret 6.
Proof. reflexivity. Qed.

(** C9 on the straight trajectory. *)
Lemma get_path_length_idx_in_bounds_witness :
  exists idx z,
    get_path_length_idx TRAJECTORY_SIZE_33 straight_line 20 = Ret idx
    /\ 0 <= idx <= TRAJECTORY_SIZE_33 - 1
    /\ read (getZ straight_line) idx = Ret z.
Proof.
  apply (get_path_length_idx_in_bounds TRAJECTORY_SIZE_33 straight_line 20).
  - unfold TRAJECTORY_SIZE_33. lia.
  - reflexivity.
  - reflexivity.
Defined.

(** *** Polygons, on concrete inputs *)

(** The sample at x = 0 projects to infinities and the one at x = 3
    projects below the clip region; the 31 others are valid and each gives
    two points. *)
Example update_line_data_straight_counts :
  valid_count ecam_intrinsic_matrix fcam_intrinsic_matrix offroad_state
    straight_line (9 # 10) (122 # 100) 32 = 31%nat
  /\ exists pvd,
       update_line_data ecam_intrinsic_matrix fcam_intrinsic_matrix
         offroad_state straight_line (9 # 10) (122 # 100) 32 false = Ret pvd
       /\ length pvd = 62%nat.
Proof.
  split; [vm_compute; reflexivity|].
  eexists. split; [vm_compute; reflexivity | reflexivity].
Qed.

(** C5 fails on the code. The sample at the origin of the car frame has
    the projection 0/0: its points are NaN, the clip test lets them through,
    and both comparisons of line 72 with a NaN are false. The left points
    accepted without inversion have the y values 1266, NaN and 1431.5: the
    third, greater than the first, is not skipped. *)
Theorem update_line_data_inversion_through_nan :
  exists p1 p2 p3 right_points,
    line_points ecam_intrinsic_matrix fcam_intrinsic_matrix offroad_state
      crest_line 0 0 2 false = Ret ([p1; p2; p3], right_points)
    /\ update_line_data ecam_intrinsic_matrix fcam_intrinsic_matrix
         offroad_state crest_line 0 0 2 false
       = Ret ([p1; p2; p3] ++ right_points)
    /\ py p2 = NaN
    /\ (exists y1 y3,
          py p1 = Finite y1 /\ py p3 = Finite y3
          /\ (y1 == 1266)%Q /\ (y3 == 2863 # 2)%Q)
    /\ qreal_ltb (py p1) (py p3) = true
    /\ ~ y_nonincreasing [p1; p2; p3].
Proof.
  do 4 eexists. split; [vm_compute; reflexivity|].
  split; [vm_compute; reflexivity|]. split; [reflexivity|].
  split; [do 2 eexists; repeat split; reflexivity|].
  split; [reflexivity|].
  intros H. inversion H as [| |p q l Hle Hrest]; subst.
  cbn in Hle. discriminate.
Qed.

(** The same on the call that [update_model] makes for the path edge
    without the custom road UI, with the offsets 0 and 1.22. *)
Example update_line_data_inversion_on_path_edge :
  exists p1 p2 p3 right_points,
    line_points ecam_intrinsic_matrix fcam_intrinsic_matrix offroad_state
      crest_path 0 (122 # 100) 2 false = Ret ([p1; p2; p3], right_points)
    /\ py p2 = NaN
    /\ (exists y1 y3,
          py p1 = Finite y1 /\ py p3 = Finite y3
          /\ (y1 == 1266)%Q /\ (y3 == 2863 # 2)%Q).
Proof.
  do 4 eexists. split; [vm_compute; reflexivity|].
  split; [reflexivity|]. do 2 eexists. repeat split; reflexivity.
Qed.

(** C6 fails on the code. On the line from the origin of the car frame,
    drawn without offsets as [update_model] draws the adjacent lanes, the
    polygon has four points for one valid sample, and the two points of the
    sample at the origin are NaN, not points within the margin. The adjacent
    lane that [update_model] draws from a lane line through the origin holds
    such a point. *)
Theorem update_line_data_nan_points :
  (exists p1 p2 p3 p4,
     update_line_data ecam_intrinsic_matrix fcam_intrinsic_matrix
       offroad_state origin_line 0 0 1 true = Ret [p1; p2; p3; p4]
     /\ px p1 = NaN /\ py p1 = NaN
     /\ ~ within_margin offroad_state p1
     /\ valid_count ecam_intrinsic_matrix fcam_intrinsic_matrix offroad_state
          origin_line 0 0 1 = 1%nat
     /\ (2 * valid_count ecam_intrinsic_matrix fcam_intrinsic_matrix
               offroad_state origin_line 0 0 1
         < length [p1; p2; p3; p4])%nat)
  /\ exists s' p rest,
       update_model TRAJECTORY_SIZE_33 MIN_DRAW_DISTANCE_10
         MAX_DRAW_DISTANCE_100 ecam_intrinsic_matrix fcam_intrinsic_matrix
         following_state straight_model straight_plan = Ret s'
       /\ track_left_adjacent_lane_vertices (scene s') = p :: rest
       /\ px p = NaN /\ py p = NaN
       /\ ~ within_margin following_state p.
Proof.
  split.
  - do 4 eexists. split; [vm_compute; reflexivity|].
    split; [reflexivity|]. split; [reflexivity|].
    split; [intros H; exact H|].
    split; [vm_compute; reflexivity|]. vm_compute. lia.
  - do 3 eexists. split; [vm_compute; reflexivity|].
    split; [reflexivity|]. split; [reflexivity|].
    split; [reflexivity|]. intros H. exact H.
Qed.

(** *** Lead markers, on concrete inputs *)

(** C8 as the spec states it fails. Lead one is tracked on one tick and
    its marker is written; on the next tick its status is not valid, and the
    scene still holds the marker of the tick before. *)
Lemma lead_marker_outlives_valid_status :
  exists s1 s2,
    update_leads TRAJECTORY_SIZE_33 ecam_intrinsic_matrix fcam_intrinsic_matrix
      offroad_state (mk_RadarState lead_at_20 no_lead) straight_line = Ret s1
    /\ update_leads TRAJECTORY_SIZE_33 ecam_intrinsic_matrix
         fcam_intrinsic_matrix s1 (mk_RadarState no_lead no_lead)
         straight_line = Ret s2
    /\ getStatus (lead_of (mk_RadarState no_lead no_lead) 0) = false
    /\ get2 (lead_vertices (scene s2)) 0 = get2 (lead_vertices (scene s1)) 0
    /\ get2 (lead_vertices (scene s2)) 0 <> QPointF_null.
Proof.
  eexists. eexists.
  split; [vm_compute; reflexivity|].
  split; [vm_compute; reflexivity|].
  split; [reflexivity|]. split; [reflexivity|]. discriminate.
Defined.

(** The amended C8 on the tick that tracks lead one. *)
Lemma update_leads_marker_kept_or_valid_witness :
  exists s',
    update_leads TRAJECTORY_SIZE_33 ecam_intrinsic_matrix fcam_intrinsic_matrix
      offroad_state (mk_RadarState lead_at_20 no_lead) straight_line = Ret s'
    /\ (get2 (lead_vertices (scene s')) 1
        = get2 (lead_vertices (scene offroad_state)) 1
        \/ (getStatus (lead_of (mk_RadarState lead_at_20 no_lead) 1) = true
            /\ QRectF_contains (clip_region offroad_state)
                 (get2 (lead_vertices (scene s')) 1) = true)).
Proof.
  eexists. split; [vm_compute; reflexivity|].
  apply (update_leads_marker_kept_or_valid TRAJECTORY_SIZE_33
           ecam_intrinsic_matrix fcam_intrinsic_matrix offroad_state _
           (mk_RadarState lead_at_20 no_lead) straight_line 1).
  - right. reflexivity.
  - vm_compute. reflexivity.
Defined.

(** *** Draw distance, on concrete inputs *)

(** C4 as the spec states it fails. With the unlimited-length override the
    first [max_distance] is the last x of the trajectory, -1 for a car
    backing up; with lead one tracked at 5 m the distance used for the path
    is then -1, below the floor of 0, and [update_model] draws the path up
    to index 0, where the floor would give index 32. *)
Lemma path_max_distance_below_floor :
  model_max_distance TRAJECTORY_SIZE_33 MIN_DRAW_DISTANCE_10
    MAX_DRAW_DISTANCE_100 (scene_init true 101) reversing_line = Ret (-1)%Q
  /\ getStatus lead_at_5 = true
  /\ path_max_distance lead_at_5 (-1) = (-1)%Q
  /\ ~ (0 <= path_max_distance lead_at_5 (-1))%Q
  /\ (exists s',
        update_model TRAJECTORY_SIZE_33 MIN_DRAW_DISTANCE_10
          MAX_DRAW_DISTANCE_100 ecam_intrinsic_matrix fcam_intrinsic_matrix
          reversing_state reversing_model (mk_UiPlan reversing_line) = Ret s')
  /\ path_max_idx TRAJECTORY_SIZE_33 reversing_state reversing_line (-1)
     = Ret 0
  /\ get_path_length_idx TRAJECTORY_SIZE_33 reversing_line 0 = Ret 32.
Proof.
  split; [reflexivity|]. split; [reflexivity|]. split; [reflexivity|].
  split; [vm_compute; intros H; apply H; reflexivity|].
  split; [eexists; vm_compute; reflexivity|].
  split; reflexivity.
Defined.

(** The amended C4 with lead one at 20 m and a first [max_distance] of 96:
    the path is drawn to the index of 40 - 10 = 30. *)
Lemma update_model_lead_clamp_witness :
  exists s',
    update_model TRAJECTORY_SIZE_33 MIN_DRAW_DISTANCE_10 MAX_DRAW_DISTANCE_100
      ecam_intrinsic_matrix fcam_intrinsic_matrix following_state
      straight_model straight_plan = Ret s'
    /\ let plan_position :=
         select_plan_position TRAJECTORY_SIZE_33 straight_model
           straight_plan in
       let lead_one := getLeadOne (radarState (sm following_state)) in
       let d := Qmin (Qmax (lead_draw_distance (getDRel lead_one)) 0) 96 in
       (0 <= d <= 96)%Q
       /\ exists max_idx,
            get_path_length_idx TRAJECTORY_SIZE_33 plan_position d
            = Ret max_idx
            /\ update_line_data ecam_intrinsic_matrix fcam_intrinsic_matrix
                 following_state plan_position
                 (if custom_road_ui (scene following_state)
                  then path_width (scene following_state)
                       * (1 - path_edge_width (scene following_state) / 100)
                  else 9 # 10)%Q
                 (122 # 100)%Q max_idx false
               = Ret (track_vertices (scene s'))
            /\ update_line_data ecam_intrinsic_matrix fcam_intrinsic_matrix
                 following_state plan_position
                 (if custom_road_ui (scene following_state)
                  then path_width (scene following_state) else 0)%Q
                 (122 # 100)%Q max_idx false
               = Ret (track_edge_vertices (scene s')).
Proof.
  eexists. split; [vm_compute; reflexivity|].
  apply (update_model_lead_clamp TRAJECTORY_SIZE_33 MIN_DRAW_DISTANCE_10
           MAX_DRAW_DISTANCE_100 ecam_intrinsic_matrix fcam_intrinsic_matrix
           following_state _ straight_model straight_plan 96).
  - vm_compute. reflexivity.
  - reflexivity.
  - reflexivity.
  - discriminate.
Defined.

Example path_max_distance_lead_at_20 :
  path_max_distance lead_at_20 96 = 30%Q
  /\ path_max_idx TRAJECTORY_SIZE_33 following_state straight_line 96 = Ret 10.
Proof. split; reflexivity. Qed.

(** *** Calibration, on concrete inputs *)

(** C7 fails on the code. The calibration message has no roll/pitch/yaw and
    the status CALIBRATED. Whatever [euler2rot] is and whatever the two
    uninitialised vectors hold, [update_state] stores as the narrow
    transform the one built from the uninitialised vector, in place of the
    transform of the calibration before, and sets both validity flags: no
    flag tells of the missing list. *)
Theorem update_state_malformed_rpy (euler2rot : vec3 -> mat3)
    (uninit_rpy uninit_wfde : vec3) :
  let s := recalibrating_state in
  let sc' := scene (update_state UI_FREQ_20 euler2rot s uninit_rpy
                      uninit_wfde) in
  updated (sm s) "liveCalibration" = true
  /\ getRpyCalib (liveCalibration (sm s)) = []
  /\ view_from_calib (scene s) = earlier_view_from_calib
  /\ view_from_calib sc' = matmul3 view_from_device (euler2rot uninit_rpy)
  /\ calibration_valid sc' = true
  /\ calibration_wide_valid sc' = true.
Proof.
  cbv zeta. repeat split; reflexivity.
Qed.

(** *** Status, on concrete inputs *)

(** C1 as the spec states it fails. On the tick that sees the car start,
    [started] is true and the controlsState message is fresh and reports
    PRE_ENABLED, and the status after [updateStatus] is DISENGAGED where
    the rule gives OVERRIDE. *)
Lemma start_edge_status_is_disengaged :
  started (scene start_edge_state) = true
  /\ updated (sm start_edge_state) "controlsState" = true
  /\ getState (controlsState (sm start_edge_state)) = PRE_ENABLED
  /\ derived_status (controlsState (sm start_edge_state))
       (always_on_lateral_active (scene start_edge_state)) = STATUS_OVERRIDE
  /\ status (fst (updateStatus start_edge_state)) = STATUS_DISENGAGED
  /\ status (fst (updateStatus start_edge_state))
     <> derived_status (controlsState (sm start_edge_state))
          (always_on_lateral_active (scene start_edge_state)).
Proof.
  repeat split; try reflexivity. vm_compute. discriminate.
Defined.

(** The amended C1 on the start edge. *)
Lemma updateStatus_fresh_controlsState_witness :
  started (scene start_edge_state) = true
  /\ updated (sm start_edge_state) "controlsState" = true
  /\ status (fst (updateStatus start_edge_state))
     = if transition_tick start_edge_state then STATUS_DISENGAGED
       else derived_status (controlsState (sm start_edge_state))
              (always_on_lateral_active (scene start_edge_state)).
Proof.
  assert (H0 : started (scene start_edge_state) = true) by reflexivity.
  assert (H1 : updated (sm start_edge_state) "controlsState" = true)
    by reflexivity.
  split; [exact H0|]. split; [exact H1|].
  exact (updateStatus_fresh_controlsState start_edge_state H0 H1).
Defined.

(** The start sequence of the spec: the tick of the start edge gives
    DISENGAGED and the onroad notification; the tick after it gives
    OVERRIDE, ENGAGED or DISENGAGED with the controls state. *)
Example start_sequence :
  status started_state = STATUS_DISENGAGED
  /\ snd (updateStatus start_edge_state) = [offroadTransition false]
  /\ status (fst (next_tick (messages 101 pre_enabled true true no_lead)))
     = STATUS_OVERRIDE
  /\ status (fst (next_tick (messages 101 engaged true true no_lead)))
     = STATUS_ENGAGED
  /\ status (fst (next_tick (messages 101 disengaged true true no_lead)))
     = STATUS_DISENGAGED
  /\ snd (next_tick (messages 101 pre_enabled true true no_lead)) = [].
Proof. repeat split; reflexivity. Qed.

(** *** Device, on concrete inputs *)

(** The single-flight scenario of the spec: two ticks with different
    targets before the first write returns start one call, for the first
    target; once it has returned, the next tick starts the call for the
    second. *)
Example brightness_two_ticks_one_write :
  let w1 := run UI_FREQ_20 (device_on, idle_pool)
              [Tick (bright 30); Tick (bright 60)] in
  let w2 := run UI_FREQ_20 w1 [Finished 0%nat; Tick (bright 60)] in
  set_brightness_calls (snd w1) = [30]
  /\ running (snd w1) = [(0%nat, 30)]
  /\ last_brightness (fst w1) = 30
  /\ set_brightness_calls (snd w2) = [30; 60]
  /\ running (snd w2) = [(1%nat, 60)]
  /\ last_brightness (fst w2) = 60.
Proof. vm_compute. repeat split; reflexivity. Qed.

(** C3 at 20 Hz: 600 after the edge, 598 two ticks later. *)
Lemma updateWakefulness_ignition_off_countdown_witness :
  let d1 := fst (updateWakefulness UI_FREQ_20 device_on offroad_state) in
  let later := [offroad_state; offroad_state] in
  interactive_timeout d1 = 30 * UI_FREQ_20
  /\ timeouts_emitted (snd (updateWakefulness UI_FREQ_20 device_on offroad_state))
     = O
  /\ interactive_timeout (fst (wake_run UI_FREQ_20 d1 later))
     = Z.max 0 (30 * UI_FREQ_20 - Z.of_nat (length later))
  /\ forall k sig,
       nth_error (snd (wake_run UI_FREQ_20 d1 later)) k = Some sig ->
       timeouts_emitted sig
       = (if Z.of_nat (S k) =? 30 * UI_FREQ_20 then 1%nat else O).
Proof.
  cbv zeta.
  apply (updateWakefulness_ignition_off_countdown UI_FREQ_20 device_on
           offroad_state [offroad_state; offroad_state]).
  - unfold UI_FREQ_20. lia.
  - unfold UI_FREQ_20. lia.
  - reflexivity.
  - reflexivity.
  - reflexivity.
Defined.

(** A whole countdown at 20 Hz: 600 ticks after the edge the counter is 0
    and the one notification is on the 600th. *)
Example countdown_at_20_Hz :
  let d1 := fst (updateWakefulness UI_FREQ_20 device_on offroad_state) in
  let r := wake_run UI_FREQ_20 d1 (repeat offroad_state 605) in
  interactive_timeout (fst r) = 0
  /\ map timeouts_emitted (snd r)
     = repeat O 599 ++ [1%nat] ++ repeat O 5.
Proof. vm_compute. split; reflexivity. Qed.

(** *** Path length, on further inputs *)

(** X1 on the straight trajectory, for the heights 20 and 50. *)
Lemma get_path_length_idx_monotone_witness :
  exists idx idx',
    get_path_length_idx TRAJECTORY_SIZE_33 straight_line 20 = Ret idx
    /\ get_path_length_idx TRAJECTORY_SIZE_33 straight_line 50 = Ret idx'
    /\ idx <= idx'.
Proof.
  apply (get_path_length_idx_monotone TRAJECTORY_SIZE_33 straight_line 20 50).
  - unfold TRAJECTORY_SIZE_33. lia.
  - vm_compute. discriminate.
  - vm_compute. discriminate.
Defined.

(** X2 on the straight trajectory: the samples 1 to 6 are at most 20 and
    sample 7 is above. *)
Lemma get_path_length_idx_first_run_witness :
  0 <= 6
  /\ (forall j, 1 <= j <= 6 ->
        exists x, read (getX straight_line) j = Ret x /\ (x <= 20)%Q)
  /\ (6 + 1 < TRAJECTORY_SIZE_33 ->
        exists x, read (getX straight_line) (6 + 1) = Ret x /\ (20 < x)%Q).
Proof.
  apply (get_path_length_idx_first_run TRAJECTORY_SIZE_33 straight_line 20 6).
  reflexivity.
Defined.

(** X3 with lead one tracked at 20 m: the path is drawn to index 10, where
    the first [max_distance] gives index 32. *)
Lemma update_model_path_not_lengthened_witness :
  exists s',
    update_model TRAJECTORY_SIZE_33 MIN_DRAW_DISTANCE_10 MAX_DRAW_DISTANCE_100
      ecam_intrinsic_matrix fcam_intrinsic_matrix following_state
      straight_model straight_plan = Ret s'
    /\ let plan_position :=
         select_plan_position TRAJECTORY_SIZE_33 straight_model
           straight_plan in
       exists idx_path idx_free,
         get_path_length_idx TRAJECTORY_SIZE_33 plan_position 96
         = Ret idx_free
         /\ idx_path <= idx_free
         /\ update_line_data ecam_intrinsic_matrix fcam_intrinsic_matrix
              following_state plan_position
              (if custom_road_ui (scene following_state)
               then path_width (scene following_state)
                    * (1 - path_edge_width (scene following_state) / 100)
               else 9 # 10)%Q
              (122 # 100)%Q idx_path false
            = Ret (track_vertices (scene s'))
         /\ update_line_data ecam_intrinsic_matrix fcam_intrinsic_matrix
              following_state plan_position
              (if custom_road_ui (scene following_state)
               then path_width (scene following_state) else 0)%Q
              (122 # 100)%Q idx_path false
            = Ret (track_edge_vertices (scene s')).
Proof.
  eexists. split; [vm_compute; reflexivity|].
  apply (update_model_path_not_lengthened TRAJECTORY_SIZE_33
           MIN_DRAW_DISTANCE_10 MAX_DRAW_DISTANCE_100 ecam_intrinsic_matrix
           fcam_intrinsic_matrix following_state _ straight_model
           straight_plan 96).
  - vm_compute. reflexivity.
  - reflexivity.
  - discriminate.
Defined.

(** *** Polygons, on further inputs *)

(** X4 on the line from the origin, without offsets: both samples are
    accepted, the one at the origin with NaN coordinates, and one is
    valid. *)
Lemma update_line_data_invertible_band_witness :
  let samples :=
    band_samples ecam_intrinsic_matrix fcam_intrinsic_matrix offroad_state
      origin_line 0 0 (Z.to_nat (1 + 1)) 0 in
  update_line_data ecam_intrinsic_matrix fcam_intrinsic_matrix offroad_state
    origin_line 0 0 1 true
  = Ret (map fst samples ++ rev (map snd samples))
  /\ (2 * valid_count ecam_intrinsic_matrix fcam_intrinsic_matrix
            offroad_state origin_line 0 0 1
      <= length (map fst samples ++ rev (map snd samples)))%nat.
Proof.
  apply (update_line_data_invertible_band ecam_intrinsic_matrix
           fcam_intrinsic_matrix offroad_state origin_line 0 0 1);
    vm_compute; reflexivity.
Defined.

(** X5 on a line whose second sample projects lower than the first,
    without inversion. *)
Lemma update_line_data_paired_witness :
  exists accepted,
    subseq accepted
      (band_samples ecam_intrinsic_matrix fcam_intrinsic_matrix offroad_state
         dip_line 0 0 (Z.to_nat (1 + 1)) 0)
    /\ update_line_data ecam_intrinsic_matrix fcam_intrinsic_matrix
         offroad_state dip_line 0 0 1 false
       = Ret (map fst accepted ++ rev (map snd accepted)).
Proof.
  apply (update_line_data_paired ecam_intrinsic_matrix fcam_intrinsic_matrix
           offroad_state dip_line 0 0 1 false);
    vm_compute; reflexivity.
Defined.

(** On that line both samples are accepted; without inversion the second
    is skipped, and the polygon has two points where inversion gives
    four. *)
Example update_line_data_skips_lower_sample :
  length (band_samples ecam_intrinsic_matrix fcam_intrinsic_matrix
            offroad_state dip_line 0 0 2 0) = 2%nat
  /\ (exists pvd,
        update_line_data ecam_intrinsic_matrix fcam_intrinsic_matrix
          offroad_state dip_line 0 0 1 false = Ret pvd
        /\ length pvd = 2%nat)
  /\ (exists pvd,
        update_line_data ecam_intrinsic_matrix fcam_intrinsic_matrix
          offroad_state dip_line 0 0 1 true = Ret pvd
        /\ length pvd = 4%nat).
Proof.
  split; [vm_compute; reflexivity|].
  split; eexists; (split; [vm_compute; reflexivity | reflexivity]).
Qed.

(** *** The model, on concrete inputs *)

(** X6 on the straight model. *)
Lemma update_model_frame_witness :
  exists s',
    update_model TRAJECTORY_SIZE_33 MIN_DRAW_DISTANCE_10 MAX_DRAW_DISTANCE_100
      ecam_intrinsic_matrix fcam_intrinsic_matrix following_state
      straight_model straight_plan = Ret s'
    /\ s' = set_scene
              (with_model_geometry
                 (lane_line_probs (scene s')) (road_edge_stds (scene s'))
                 (lane_line_vertices (scene s'))
                 (road_edge_vertices (scene s'))
                 (track_vertices (scene s')) (track_edge_vertices (scene s'))
                 (track_left_adjacent_lane_vertices (scene s'))
                 (track_right_adjacent_lane_vertices (scene s'))
                 (scene following_state)) following_state
    /\ calibration_of (scene s') = calibration_of (scene following_state)
    /\ lead_vertices (scene s') = lead_vertices (scene following_state)
    /\ length (lane_line_vertices (scene s'))
       = length (lane_line_vertices (scene following_state))
    /\ length (road_edge_vertices (scene s'))
       = length (road_edge_vertices (scene following_state)).
Proof.
  eexists. split; [vm_compute; reflexivity|].
  apply (update_model_frame TRAJECTORY_SIZE_33 MIN_DRAW_DISTANCE_10
           MAX_DRAW_DISTANCE_100 ecam_intrinsic_matrix fcam_intrinsic_matrix
           following_state _ straight_model straight_plan).
  vm_compute. reflexivity.
Defined.

(** X7 on the straight model. *)
Lemma update_model_polygons_in_clip_witness :
  exists s',
    update_model TRAJECTORY_SIZE_33 MIN_DRAW_DISTANCE_10 MAX_DRAW_DISTANCE_100
      ecam_intrinsic_matrix fcam_intrinsic_matrix following_state
      straight_model straight_plan = Ret s'
    /\ Forall (Forall (in_clip following_state)) (lane_line_vertices (scene s'))
    /\ Forall (Forall (in_clip following_state)) (road_edge_vertices (scene s'))
    /\ Forall (in_clip following_state) (track_vertices (scene s'))
    /\ Forall (in_clip following_state) (track_edge_vertices (scene s'))
    /\ Forall (in_clip following_state)
         (track_left_adjacent_lane_vertices (scene s'))
    /\ Forall (in_clip following_state)
         (track_right_adjacent_lane_vertices (scene s')).
Proof.
  eexists. split; [vm_compute; reflexivity|].
  apply (update_model_polygons_in_clip TRAJECTORY_SIZE_33 MIN_DRAW_DISTANCE_10
           MAX_DRAW_DISTANCE_100 ecam_intrinsic_matrix fcam_intrinsic_matrix
           following_state _ straight_model straight_plan).
  vm_compute. reflexivity.
Defined.

(** X8 on the straight model. *)
Lemma update_model_reads_witness :
  (6 <= length (getLaneLines straight_model))%nat
  /\ 1 <= TRAJECTORY_SIZE_33
     <= Z.of_nat (length (getX (select_plan_position TRAJECTORY_SIZE_33
                                  straight_model straight_plan))).
Proof.
  eapply (update_model_reads TRAJECTORY_SIZE_33 MIN_DRAW_DISTANCE_10
            MAX_DRAW_DISTANCE_100 ecam_intrinsic_matrix fcam_intrinsic_matrix
            following_state _ straight_model straight_plan).
  vm_compute. reflexivity.
Defined.

(** X9 on the straight model. *)
Lemma update_model_returns_witness :
  exists s',
    update_model TRAJECTORY_SIZE_33 MIN_DRAW_DISTANCE_10 MAX_DRAW_DISTANCE_100
      ecam_intrinsic_matrix fcam_intrinsic_matrix following_state
      straight_model straight_plan = Ret s'.
Proof.
  assert (Hfull : full_line TRAJECTORY_SIZE_33 straight_line)
    by (repeat split; vm_compute; discriminate).
  apply (update_model_returns TRAJECTORY_SIZE_33 MIN_DRAW_DISTANCE_10
           MAX_DRAW_DISTANCE_100 ecam_intrinsic_matrix fcam_intrinsic_matrix
           following_state straight_model straight_plan).
  - unfold TRAJECTORY_SIZE_33. lia.
  - exact Hfull.
  - simpl. repeat (apply Forall_cons; [exact Hfull|]). apply Forall_nil.
  - simpl. repeat (apply Forall_cons; [exact Hfull|]). apply Forall_nil.
  - simpl. lia.
  - simpl. lia.
  - simpl. lia.
  - simpl. lia.
  - simpl. lia.
  - simpl. lia.
  - simpl. lia.
Defined.

(** *** Status and state, on further inputs *)

(** X11 on the tick after the start edge. *)
Lemma updateStatus_no_second_transition_witness :
  snd (updateStatus second_tick_state) = [].
Proof.
  apply (updateStatus_no_second_transition start_edge_state second_tick_state).
  - reflexivity.
  - reflexivity.
  - vm_compute. discriminate.
Defined.

(** X12 offroad. *)
Lemma updateStatus_offroad_keeps_status_witness :
  status (fst (updateStatus offroad_state)) = status offroad_state
  /\ scene (fst (updateStatus offroad_state)) = scene offroad_state.
Proof.
  apply (updateStatus_offroad_keeps_status offroad_state). reflexivity.
Defined.

(** X15 one frame after the last pandaStates message. *)
Lemma update_state_nothing_fresh_witness :
  update_state UI_FREQ_20 euler2rot_zero_angles (quiet_state 101 100)
    zero3 zero3
  = set_scene
      (set_started
         (deviceState_getStarted (sm (quiet_state 101 100))
          && ignition (scene (quiet_state 101 100)))
         (scene (quiet_state 101 100))) (quiet_state 101 100).
Proof.
  apply (update_state_nothing_fresh UI_FREQ_20 euler2rot_zero_angles
           (quiet_state 101 100) zero3 zero3).
  - intros topic. reflexivity.
  - vm_compute. reflexivity.
Defined.

(** X16 at 20 Hz, 200 frames after the last pandaStates message: the type
    is UNKNOWN again. *)
Lemma update_state_stale_panda_witness :
  pandaType (scene (update_state UI_FREQ_20 euler2rot_zero_angles
                      (quiet_state 300 100) zero3 zero3))
  = if frame (sm (quiet_state 300 100))
       - rcv_frame (sm (quiet_state 300 100)) "pandaStates" >? 5 * UI_FREQ_20
    then UNKNOWN else pandaType (scene (quiet_state 300 100)).
Proof.
  apply (update_state_stale_panda UI_FREQ_20 euler2rot_zero_angles
           (quiet_state 300 100) zero3 zero3).
  - reflexivity.
  - simpl. lia.
  - simpl. lia.
  - unfold UI_FREQ_20. lia.
Defined.

Example update_state_stale_panda_at_20_Hz :
  pandaType (scene (update_state UI_FREQ_20 euler2rot_zero_angles
                      (quiet_state 300 100) zero3 zero3)) = UNKNOWN
  /\ pandaType (scene (update_state UI_FREQ_20 euler2rot_zero_angles
                         (quiet_state 200 100) zero3 zero3)) = KNOWN_PANDA 1.
Proof. split; reflexivity. Qed.

(** X17 for an exposure of 50 percent. *)
Lemma update_state_light_sensor_witness :
  let l := light_sensor (scene (update_state UI_FREQ_20 euler2rot_zero_angles
                                  polled_state zero3 zero3)) in
  (0 <= l <= 100)%Q.
Proof.
  apply (update_state_light_sensor UI_FREQ_20 euler2rot_zero_angles
           polled_state zero3 zero3).
  - reflexivity.
  - vm_compute. discriminate.
Defined.

(** *** Device, on further inputs *)

(** X20 over two ticks. *)
Lemma wake_run_timeout_nonnegative_witness :
  0 <= interactive_timeout
         (fst (wake_run UI_FREQ_20 device_on [offroad_state; offroad_state])).
Proof.
  apply (wake_run_timeout_nonnegative UI_FREQ_20 device_on
           [offroad_state; offroad_state]).
  - unfold UI_FREQ_20. lia.
  - unfold UI_FREQ_20. lia.
  - simpl. lia.
Defined.

(** X21 on the last tick of a countdown. *)
Lemma updateWakefulness_sleep_tick_witness :
  snd (updateWakefulness UI_FREQ_20 device_last_tick offroad_state)
  = [interactiveTimeout; Hardware_set_display_power false;
     displayPowerChanged false]
  /\ awake (fst (updateWakefulness UI_FREQ_20 device_last_tick offroad_state))
     = false
  /\ interactive_timeout
       (fst (updateWakefulness UI_FREQ_20 device_last_tick offroad_state)) = 0.
Proof.
  apply (updateWakefulness_sleep_tick UI_FREQ_20 device_last_tick
           offroad_state); reflexivity.
Defined.

(** X22 for a configured brightness of 30. *)
Lemma computed_brightness_override_witness :
  snd (computed_brightness device_on (bright 30))
  = (if awake device_on then Z.max 5 (screen_brightness (scene (bright 30)))
     else 0)
  /\ 0 <= snd (computed_brightness device_on (bright 30)) <= 100.
Proof.
  apply (computed_brightness_override device_on (bright 30)).
  simpl. lia.
Defined.

(** X24 for the light sensor values 5 and 50, on the two branches of the
    curve. *)
Lemma brightness_target_monotone_witness :
  (brightness_target device_on (lit 5) <= brightness_target device_on (lit 50))%Q.
Proof.
  apply (brightness_target_monotone device_on (lit 5) (lit 50)).
  - reflexivity.
  - reflexivity.
  - vm_compute. discriminate.
Defined.

(** *** Lead markers, on further inputs *)

(** X26 with lead one tracked at 20 m and no lead two. *)
Lemma update_leads_markers_witness :
  exists s' m1 m2,
    update_leads TRAJECTORY_SIZE_33 ecam_intrinsic_matrix fcam_intrinsic_matrix
      offroad_state (mk_RadarState lead_at_20 no_lead) straight_line = Ret s'
    /\ lead_marker TRAJECTORY_SIZE_33 ecam_intrinsic_matrix
         fcam_intrinsic_matrix offroad_state lead_at_20 straight_line = Ret m1
    /\ lead_marker TRAJECTORY_SIZE_33 ecam_intrinsic_matrix
         fcam_intrinsic_matrix offroad_state no_lead straight_line = Ret m2
    /\ s' = set_scene
              (set_lead_vertices
                 (match m1 with
                  | Some p => p
                  | None => fst (lead_vertices (scene offroad_state))
                  end,
                  match m2 with
                  | Some p => p
                  | None => snd (lead_vertices (scene offroad_state))
                  end) (scene offroad_state)) offroad_state.
Proof.
  destruct (update_leads_markers TRAJECTORY_SIZE_33 ecam_intrinsic_matrix
              fcam_intrinsic_matrix offroad_state _
              (mk_RadarState lead_at_20 no_lead) straight_line
              ltac:(vm_compute; reflexivity)) as (m1 & m2 & H).
  eexists. exists m1, m2. split; [vm_compute; reflexivity | exact H].
Defined.

(** *** Prime type, on concrete inputs *)

(** X27 from an empty store: type 2 is stored and read back. *)
Lemma setPrimeType_persists_witness :
  let r := setPrimeType hasPrime_above_none (-1) empty_params 2 in
  fst (fst r) = 2
  /\ restore_prime_type (snd (fst r)) (-1) = 2.
Proof.
  apply (setPrimeType_persists hasPrime_above_none (-1) empty_params 2 (-1)).
  - lia.
  - lia.
Defined.

(** *** Driver monitoring, on concrete inputs *)

(** X28 at the pitch axis, faded out. *)
Lemma update_dmonitoring_smoothing_witness :
  exists p' orient old new diff,
    update_dmonitoring sinf_at_zero cosf_at_zero three_face_kpts pose_at_rest
      looking_aside 1 false = Ret p'
    /\ read (getFaceOrientation (getLeftDriverData looking_aside)) 0
       = Ret orient
    /\ read (driver_pose_vals pose_at_rest) 0 = Ret old
    /\ read (driver_pose_vals p') 0 = Ret new
    /\ read (driver_pose_diff p') 0 = Ret diff
    /\ (new - pose_target 0 orient == (1 # 5) * (old - pose_target 0 orient))%Q
    /\ diff = fabs (old - pose_target 0 orient).
Proof.
  destruct (update_dmonitoring_smoothing sinf_at_zero cosf_at_zero
              three_face_kpts pose_at_rest _ looking_aside 1 false 0
              ltac:(vm_compute; reflexivity) ltac:(simpl; lia))
    as (orient & old & new & diff & H).
  eexists. exists orient, old, new, diff.
  split; [vm_compute; reflexivity | exact H].
Defined.

(** X29 at the second keypoint. *)
Lemma update_dmonitoring_faded_out_witness :
  exists p' kpt,
    update_dmonitoring sinf_at_zero cosf_at_zero three_face_kpts pose_at_rest
      looking_aside 1 false = Ret p'
    /\ read (face_kpts_draw p') 1 = Ret kpt /\ (v_2 kpt == 8)%Q.
Proof.
  destruct (update_dmonitoring_faded_out sinf_at_zero cosf_at_zero
              three_face_kpts pose_at_rest _ looking_aside 1 false 1
              ltac:(vm_compute; reflexivity) ltac:(reflexivity)
              ltac:(simpl; lia))
    as (kpt & H).
  eexists. exists kpt. split; [vm_compute; reflexivity | exact H].
Defined.

(** *** Calibration, on further inputs *)

(** X30 for the message of zero angles, from two scenes and two pairs of
    uninitialised vectors. *)
Lemma update_calibration_well_formed_witness :
  calibration_of (update_calibration euler2rot_zero_angles calibrated
                    zero3 zero3 scene0)
  = calibration_of (update_calibration euler2rot_zero_angles calibrated
                      (mk_vec3 1 2 3) (mk_vec3 4 5 6) (scene_init true 50))
  /\ calibration_wide_valid (update_calibration euler2rot_zero_angles
                               calibrated zero3 zero3 scene0) = true
  /\ update_calibration euler2rot_zero_angles calibrated
       (mk_vec3 1 2 3) (mk_vec3 4 5 6)
       (update_calibration euler2rot_zero_angles calibrated zero3 zero3 scene0)
     = update_calibration euler2rot_zero_angles calibrated zero3 zero3 scene0.
Proof.
  apply (update_calibration_well_formed euler2rot_zero_angles calibrated
           zero3 zero3 (mk_vec3 1 2 3) (mk_vec3 4 5 6) scene0
           (scene_init true 50)); reflexivity.
Defined.
